(** * IEMS: availability and staffing-intelligence engine

    A shallow embedding of the counsellor event system (v3.4): the SQLite
    store of [schema.sql], the admin routes of [routes/admin.js], the
    counsellor routes of [routes/counsellor.js] and the detection jobs of
    [services/notificationEngine.js].

    Modelling conventions.
    - A calendar date (the [YYYY-MM-DD] text of the store) is the number of
      days since 1970-01-01, in [Z].  On well-formed dates the text order that
      the JavaScript comparisons use and the order of SQLite's [date()] are
      both the order of [Z]; [Iso.toISODate] gives the text back.  The dates
      of a request body are taken well formed: the counsellor routes compare
      the texts as they come and test no format, so a body with a text such
      as [2026-1-5] is outside the model; the reschedule route tests the
      pattern, and there a malformed text is a value of its own.
    - A point in time ([datetime('now')], [new Date()]) is a number of seconds
      since the epoch; a request or a job run is served at one instant [now].
    - The time zone of the server process is a parameter ([Zone.zone]) of the
      code that reads the local clock: [routes/admin.js] steps through a
      date range with [setDate(getDate() + 1)], which works on local time.
    - Texts are ASCII: [toLowerCase] and the length of a text are those of
      JavaScript on ASCII text only.
    - A table is the list of its rows in rowid order; a statement is a
      function from store to store, a failing statement returns [None].
    - Text enumerations of the store ([status], [event_status], notification
      [type], [priority]) are inductive types. *)

From Stdlib Require Import ZArith List String Ascii Bool Lia Permutation.
From stdpp Require Import base decidable option list sorting gmap sets strings.

Open Scope Z_scope.
Set Warnings "-clear-no-such-hyp".

(** ** Calendar dates *)

Module Iso.

Definition date := Z.

(** Proleptic Gregorian calendar: day number of a civil date. *)
Definition fromYMD (y m d : Z) : date :=
  let y' := if m <=? 2 then y - 1 else y in
  let era := y' / 400 in
  let yoe := y' - era * 400 in
  let mp := if 2 <? m then m - 3 else m + 9 in
  let doy := (153 * mp + 2) / 5 + d - 1 in
  let doe := yoe * 365 + yoe / 4 - yoe / 100 + doy in
  era * 146097 + doe - 719468.

(** Civil date (year, month, day) of a day number. *)
Definition toYMD (n : date) : Z * Z * Z :=
  let z := n + 719468 in
  let era := z / 146097 in
  let doe := z - era * 146097 in
  let yoe := (doe - doe / 1460 + doe / 36524 - doe / 146096) / 365 in
  let doy := doe - (365 * yoe + yoe / 4 - yoe / 100) in
  let mp := (5 * doy + 2) / 153 in
  let d := doy - (153 * mp + 2) / 5 + 1 in
  let m := if mp <? 10 then mp + 3 else mp - 9 in
  ((if m <=? 2 then yoe + era * 400 + 1 else yoe + era * 400), m, d).

Definition digit (n : Z) : string :=
  String (ascii_of_nat (48 + Z.to_nat (n mod 10))) EmptyString.

Definition pad2 (n : Z) : string := (digit (n / 10) ++ digit n)%string.

Definition pad4 (n : Z) : string :=
  (digit (n / 1000) ++ digit (n / 100) ++ digit (n / 10) ++ digit n)%string.

(** [d.toISOString().split('T')[0]] for years 0000 to 9999. *)
Definition toISODate (n : date) : string :=
  let '(y, m, d) := toYMD n in
  (pad4 y ++ "-" ++ pad2 m ++ "-" ++ pad2 d)%string.

End Iso.

Export Iso.

(** ** The time zone of the process *)

Module Zone.

(** [1000 * 60 * 60 * 24]. *)
Definition msPerDay : Z := 86400000.

(** The local time zone adjustment of the process, in milliseconds
    (ECMAScript [LocalTZA(t, isUTC)]).  [tza_utc t] is the offset of local
    time at the instant [t]; [tza_local t] is the offset the local time
    value [t] is read with, which at a clock change is the offset before the
    change.  [tza_slow]: the same time of day on the next local day is at
    least twelve hours later.  The clock changes of the time zone database
    satisfy it (an hour or two for summer time, a whole day at the date
    line); it bounds the loops that step by local days. *)
Record zone := {
  tza_utc : Z → Z;
  tza_local : Z → Z;
  tza_slow : ∀ t, tza_local (t + tza_utc t + msPerDay) - tza_utc t ≤ 43200000
}.

(** [LocalTime(t)] and [UTC(t)]. *)
Definition localTime (tz : zone) (t : Z) : Z := t + tza_utc tz t.
Definition utcTime (tz : zone) (t : Z) : Z := t - tza_local tz t.

(** [new Date(dateStr)] for a [YYYY-MM-DD] text: midnight UTC of the day,
    in milliseconds. *)
Definition midnight (d : date) : Z := d * msPerDay.

(** [d.toISOString().split('T')[0]]: the UTC day of a time value. *)
Definition isoDay (t : Z) : date := t / msPerDay.

(** [d.setDate(d.getDate() + 1)] on the time value [t]: the local time of
    [t] moved to the same time of day on the next day of the month
    ([MakeDay] carries into the next month), read back as a time value. *)
Definition setNextDate (tz : zone) (t : Z) : Z :=
  utcTime tz (localTime tz t + msPerDay).

(** A process in UTC. *)
Definition utc : zone :=
  {| tza_utc := λ _, 0; tza_local := λ _, 0;
     tza_slow := λ _, ltac:(lia) |}.

End Zone.

Export Zone.

(** ** The store ([schema.sql], with the columns [db.js] adds) *)

Inductive sub_status := pending | confirmed | not_applicable.
Inductive event_status := ONGOING | COMPLETED | CANCELLED | POSTPONED.
Inductive payment_status := PAID | UNPAID | FREE.

Inductive notif_type :=
  event_reminder | duplicate_detected | staffing_warning | anomaly | weekly_report.
Inductive priority := low | medium | high | critical.
Inductive notif_status := unread | read | dismissed | actioned.

#[global] Instance sub_status_eq_dec : EqDecision sub_status.
Proof. solve_decision. Defined.
#[global] Instance event_status_eq_dec : EqDecision event_status.
Proof. solve_decision. Defined.
#[global] Instance payment_status_eq_dec : EqDecision payment_status.
Proof. solve_decision. Defined.
#[global] Instance notif_type_eq_dec : EqDecision notif_type.
Proof. solve_decision. Defined.
#[global] Instance priority_eq_dec : EqDecision priority.
Proof. solve_decision. Defined.
#[global] Instance notif_status_eq_dec : EqDecision notif_status.
Proof. solve_decision. Defined.

Record counsellor := {
  c_id : Z;
  c_username : string;
  c_full_name : string;
  c_is_active : bool
}.

Record preset := { p_id : Z; p_name : string }.

Record submission := {
  s_id : Z;
  s_start_date : date;
  s_end_date : date;
  s_organizer : string;
  s_organizer_id : option Z;
  s_event_name_id : option Z;
  s_event_type_id : option Z;
  s_city : string;
  s_country : string;
  s_proposed_staffing : option string;
  s_remarks : option string;
  s_sent_by_counsellor_id : option Z;
  s_payment_status : payment_status;
  s_status : sub_status;
  s_event_status : event_status;
  s_submitted_by : string;
  s_confirmed_at : option Z;
  s_created_at : Z;
  s_updated_at : Z
}.

(** A row of [submission_assignments] or [submission_suggestions]:
    (submission_id, counsellor_id), the pair being the primary key. *)
Definition link := (Z * Z)%type.

(** The JSON [metadata] of a notification, by the job that wrote it. *)
Inductive metadata :=
  | MetaDuplicate (new_submission_id existing_submission_id score : Z)
                  (factors : list string)
  | MetaOverload (counsellor_id : Z) (event_count : Z)
  | MetaWeekly (total_upcoming unstaffed_events aging_pending
                next_week_events active_counsellors : Z).

Record notification := {
  n_id : Z;
  n_type : notif_type;
  n_priority : priority;
  n_title : string;
  n_message : string;
  n_metadata : option metadata;
  n_target_role : string;
  n_target_user : option string;
  n_status : notif_status;
  n_related_submission_id : option Z;
  n_created_at : Z
}.

(** The values of the JSON [details] of an activity. *)
Inductive json :=
  | JNull
  | JBool (b : bool)
  | JNum (n : Z)
  | JStr (s : string)
  | JNums (l : list Z)
  | JStrs (l : list string).

Record activity := {
  a_action : string;
  a_username : string;
  a_details : list (string * json);
  a_created_at : Z
}.

Record store := {
  counsellors : list counsellor;
  organizers : list preset;
  event_names : list preset;
  event_types : list preset;
  submissions : list submission;
  submissions_seq : Z;
  submission_assignments : list link;
  submission_suggestions : list link;
  notifications : list notification;
  notifications_seq : Z;
  notification_settings : gmap string string;
  duplicate_dismissals : list link;
  activity_log : list activity
}.

(** Functional updates of the tables the routes write. *)
Definition set_submissions (db : store) (l : list submission) (seq : Z) : store :=
  {| counsellors := counsellors db; organizers := organizers db;
     event_names := event_names db; event_types := event_types db;
     submissions := l; submissions_seq := seq;
     submission_assignments := submission_assignments db;
     submission_suggestions := submission_suggestions db;
     notifications := notifications db; notifications_seq := notifications_seq db;
     notification_settings := notification_settings db;
     duplicate_dismissals := duplicate_dismissals db;
     activity_log := activity_log db |}.

Definition set_assignments (db : store) (l : list link) : store :=
  {| counsellors := counsellors db; organizers := organizers db;
     event_names := event_names db; event_types := event_types db;
     submissions := submissions db; submissions_seq := submissions_seq db;
     submission_assignments := l;
     submission_suggestions := submission_suggestions db;
     notifications := notifications db; notifications_seq := notifications_seq db;
     notification_settings := notification_settings db;
     duplicate_dismissals := duplicate_dismissals db;
     activity_log := activity_log db |}.

Definition set_suggestions (db : store) (l : list link) : store :=
  {| counsellors := counsellors db; organizers := organizers db;
     event_names := event_names db; event_types := event_types db;
     submissions := submissions db; submissions_seq := submissions_seq db;
     submission_assignments := submission_assignments db;
     submission_suggestions := l;
     notifications := notifications db; notifications_seq := notifications_seq db;
     notification_settings := notification_settings db;
     duplicate_dismissals := duplicate_dismissals db;
     activity_log := activity_log db |}.

Definition set_notifications (db : store) (l : list notification) (seq : Z) : store :=
  {| counsellors := counsellors db; organizers := organizers db;
     event_names := event_names db; event_types := event_types db;
     submissions := submissions db; submissions_seq := submissions_seq db;
     submission_assignments := submission_assignments db;
     submission_suggestions := submission_suggestions db;
     notifications := l; notifications_seq := seq;
     notification_settings := notification_settings db;
     duplicate_dismissals := duplicate_dismissals db;
     activity_log := activity_log db |}.

Definition set_activity_log (db : store) (l : list activity) : store :=
  {| counsellors := counsellors db; organizers := organizers db;
     event_names := event_names db; event_types := event_types db;
     submissions := submissions db; submissions_seq := submissions_seq db;
     submission_assignments := submission_assignments db;
     submission_suggestions := submission_suggestions db;
     notifications := notifications db; notifications_seq := notifications_seq db;
     notification_settings := notification_settings db;
     duplicate_dismissals := duplicate_dismissals db;
     activity_log := l |}.

(** The assignment set of a submission: the counsellors staffed on it. *)
Definition assigned (db : store) (sid cid : Z) : Prop :=
  (sid, cid) ∈ submission_assignments db.

(** [SELECT ... FROM submissions WHERE id = ?], [.get()]. *)
Definition find_submission (db : store) (sid : Z) : option submission :=
  List.find (λ s, bool_decide (s_id s = sid)) (submissions db).

(** [UPDATE submissions SET ... WHERE id = ?]. *)
Definition updateWhereId (id : Z) (f : submission → submission)
           (l : list submission) : list submission :=
  map (λ s, if decide (s_id s = id) then f s else s) l.

(** [date('now')]: the UTC day of an instant. *)
Definition date_of (now : Z) : date := now / 86400.

(** What a handler answers: a JSON body, or an error status code. *)
Inductive response (A : Type) :=
  | Ok (body : A)
  | Error (code : Z).
Arguments Ok {A} body.
Arguments Error {A} code.

(** ** Text helpers *)

Definition toLowerAscii (c : ascii) : ascii :=
  let n := nat_of_ascii c in
  if ((65 <=? n) && (n <=? 90))%nat then ascii_of_nat (n + 32) else c.

(** [String.prototype.toLowerCase] on ASCII text. *)
Fixpoint toLowerCase (s : string) : string :=
  match s with
  | EmptyString => EmptyString
  | String c r => String (toLowerAscii c) (toLowerCase r)
  end.

Definition toUpperAscii (c : ascii) : ascii :=
  let n := nat_of_ascii c in
  if ((97 <=? n) && (n <=? 122))%nat then ascii_of_nat (n - 32) else c.

(** [String.prototype.toUpperCase] on ASCII text. *)
Fixpoint toUpperCase (s : string) : string :=
  match s with
  | EmptyString => EmptyString
  | String c r => String (toUpperAscii c) (toUpperCase r)
  end.

(** The double-quote character, as a text. *)
Definition dquote : string := String (ascii_of_nat 34) EmptyString.

(** [Array.prototype.join]. *)
Fixpoint join (sep : string) (l : list string) : string :=
  match l with
  | [] => EmptyString
  | [x] => x
  | x :: r => (x ++ sep ++ join sep r)%string
  end.

(** ** [utils.js] *)

(** [overlapCondition(aStart, aEnd, bStart, bEnd)]: the SQL condition
    [NOT (date(aEnd) < date(bStart) OR date(aStart) > date(bEnd))]. *)
Definition overlapCondition (aStart aEnd bStart bEnd : date) : bool :=
  negb ((aEnd <? bStart) || (aStart >? bEnd)).

(** ** Numbers in text: settings and messages *)

Module Num.

Definition digitValue (c : ascii) : option Z :=
  let n := Z.of_nat (nat_of_ascii c) in
  if (48 <=? n) && (n <=? 57) then Some (n - 48) else None.

Definition isSpace (c : ascii) : bool :=
  let n := nat_of_ascii c in
  ((n =? 32) || ((9 <=? n) && (n <=? 13)))%nat.

Fixpoint skipSpaces (s : string) : string :=
  match s with
  | String c r => if isSpace c then skipSpaces r else s
  | EmptyString => s
  end.

(** The longest prefix of decimal digits: its value continued from [acc],
    how many digits it has, and the rest of the text. *)
Fixpoint digitsPrefix (s : string) (acc : Z) (count : nat) : Z * nat * string :=
  match s with
  | String c r =>
      match digitValue c with
      | Some v => digitsPrefix r (10 * acc + v) (S count)
      | None => (acc, count, s)
      end
  | EmptyString => (acc, count, s)
  end.

Definition signPrefix (s : string) : Z * string :=
  match s with
  | String "-" r => (-1, r)
  | String "+" r => (1, r)
  | _ => (1, s)
  end.

(** The value of a hexadecimal digit. *)
Definition hexValue (c : ascii) : option Z :=
  let n := Z.of_nat (nat_of_ascii c) in
  if (48 <=? n) && (n <=? 57) then Some (n - 48)
  else if (65 <=? n) && (n <=? 70) then Some (n - 55)
  else if (97 <=? n) && (n <=? 102) then Some (n - 87)
  else None.

(** The longest prefix of hexadecimal digits: its value continued from
    [acc] and how many digits it has. *)
Fixpoint hexPrefix (s : string) (acc : Z) (count : nat) : Z * nat :=
  match s with
  | String c r =>
      match hexValue c with
      | Some v => hexPrefix r (16 * acc + v) (S count)
      | None => (acc, count)
      end
  | EmptyString => (acc, count)
  end.

(** [parseInt(s)] without a radix: leading white space, a sign, then the
    digits, hexadecimal after [0x] or [0X] and decimal otherwise; [None] is
    [NaN]. *)
Definition parseInt (s : string) : option Z :=
  let '(sign, r) := signPrefix (skipSpaces s) in
  match r with
  | String "0" (String "x" h) | String "0" (String "X" h) =>
      let '(v, count) := hexPrefix h 0 0 in
      match count with O => None | _ => Some (sign * v) end
  | _ =>
      let '(v, count, _) := digitsPrefix r 0 0 in
      match count with O => None | _ => Some (sign * v) end
  end.

(** A decimal number [mantissa / 10 ^ decimals]. *)
Record decimal := { mantissa : Z; decimals : nat }.

(** A number that is not [NaN]: a decimal, or an infinity with its sign. *)
Inductive number :=
  | Finite (d : decimal)
  | Infinity (negative : bool).

(** [mantissa * 10 ^ (exponent - decimals)] as a decimal. *)
Definition scaled (mantissa : Z) (decimals : nat) (exponent : Z) : decimal :=
  if Z.of_nat decimals <=? exponent
  then {| mantissa := mantissa * 10 ^ (exponent - Z.of_nat decimals); decimals := 0 |}
  else {| mantissa := mantissa; decimals := Z.to_nat (Z.of_nat decimals - exponent) |}.

(** The exponent part at the head of the text: [e] or [E], a sign, and at
    least one digit; 0 when the text has none. *)
Definition exponentPart (s : string) : Z :=
  match s with
  | String "e" r | String "E" r =>
      let '(sign, r') := signPrefix r in
      let '(v, count, _) := digitsPrefix r' 0 0 in
      match count with O => 0 | _ => sign * v end
  | _ => 0
  end.

(** [parseFloat(s)]: leading white space, a sign, then [Infinity] or the
    longest decimal literal ([digits], [digits.digits], [.digits], each with
    an optional exponent part); [None] is [NaN]. *)
Definition parseFloat (s : string) : option number :=
  let '(sign, r) := signPrefix (skipSpaces s) in
  if String.prefix "Infinity" r then Some (Infinity (sign <? 0))
  else
    let '(v, count, r') := digitsPrefix r 0 0 in
    match r' with
    | String "." frac =>
        let '(v', count', r'') := digitsPrefix frac v 0 in
        match (count + count')%nat with
        | O => None
        | _ => Some (Finite (scaled (sign * v') count' (exponentPart r'')))
        end
    | _ =>
        match count with
        | O => None
        | _ => Some (Finite (scaled (sign * v) 0 (exponentPart r')))
        end
    end.

(** [hundredths / 100 >= t], in exact arithmetic.  The source compares
    doubles: the score is the double nearest to [hundredths / 100] and the
    threshold the double nearest to [t]; rounding to the nearest double is
    monotone, so the two comparisons agree unless two different decimals
    round to the same double. *)
Definition hundredths_ge (hundredths : Z) (t : number) : bool :=
  match t with
  | Finite d => 100 * mantissa d <=? hundredths * 10 ^ Z.of_nat (decimals d)
  | Infinity negative => negative
  end.

Fixpoint showDigits (fuel : nat) (n : Z) (acc : string) : string :=
  match fuel with
  | O => acc
  | S fuel' =>
      let acc' := (Iso.digit n ++ acc)%string in
      if n <? 10 then acc' else showDigits fuel' (n / 10) acc'
  end.

(** [String(n)] for an integer. *)
Definition showZ (n : Z) : string :=
  if n <? 0 then ("-" ++ showDigits (S (Z.to_nat (Z.log2 (- n)))) (- n) "")%string
  else showDigits (S (Z.to_nat (Z.log2 n))) n "".

End Num.

(** ** [services/notificationEngine.js] *)

Module NotificationEngine.

Import Num.

(** [getSetting(key)]; [None] is [null]. *)
Definition getSetting (db : store) (key : string) : option string :=
  notification_settings db !! key.

(** [isSettingEnabled(key)]: the value is ['true'] or ['1']. *)
Definition isSettingEnabled (db : store) (key : string) : bool :=
  match getSetting db key with
  | Some value => bool_decide (value = "true" ∨ value = "1")
  | None => false
  end.

(** [getSetting(key) || fallback]: [null] and the empty text are falsy. *)
Definition settingOr (db : store) (key fallback : string) : string :=
  match getSetting db key with
  | Some EmptyString | None => fallback
  | Some value => value
  end.

(** One row [dp[i][1..n]] of the table of [levenshteinDistance], from
    the character [str1[i-1]], the row above ([diag] is [dp[i-1][j-1]],
    [above] is [dp[i-1][j..n]]) and [left], which is [dp[i][j-1]]. *)
Fixpoint levRow (c : ascii) (str2 : string) (diag : nat) (above : list nat)
         (left : nat) : list nat :=
  match str2, above with
  | String c2 r2, up :: above' =>
      let v := if Ascii.eqb c c2 then diag
               else (1 + Nat.min up (Nat.min left diag))%nat in
      v :: levRow c r2 up above' v
  | _, _ => []
  end.

(** The outer loop over [i]: [prevRow] is [dp[i-1][0..n]]. *)
Fixpoint levRows (str1 str2 : string) (i : nat) (prevRow : list nat) : list nat :=
  match str1 with
  | EmptyString => prevRow
  | String c r1 =>
      levRows r1 str2 (S i)
              (S i :: levRow c str2 (List.hd O prevRow) (List.tl prevRow) (S i))
  end.

(** [dp[m][n]]; the first row is [dp[0][j] = j]. *)
Definition levenshteinDistance (str1 str2 : string) : nat :=
  List.last (levRows str1 str2 O (seq O (S (String.length str2)))) O.

(** [datesOverlap(start1, end1, start2, end2)]. *)
Definition datesOverlap (start1 end1 start2 end2 : date) : bool :=
  negb ((end1 <? start2) || (start1 >? end2)).

(** The row an [INSERT INTO notifications] writes; [status] takes its
    default ['unread'] and [created_at] is [datetime('now')]. *)
Definition new_notification (id now : Z) (type : notif_type) (prio : priority)
           (title message : string) (meta : option metadata)
           (targetRole : string) (targetUser : option string)
           (relatedSubmissionId : option Z) : notification :=
  {| n_id := id; n_type := type; n_priority := prio; n_title := title;
     n_message := message; n_metadata := meta; n_target_role := targetRole;
     n_target_user := targetUser; n_status := unread;
     n_related_submission_id := relatedSubmissionId; n_created_at := now |}.

(** The de-duplication query of [createNotification]: an unread
    notification of the same type, title and related submission, created
    within the last hour. *)
Definition similar (now : Z) (type : notif_type) (title : string)
           (relatedSubmissionId : option Z) (n : notification) : Prop :=
  n_type n = type ∧ n_title n = title ∧ n_status n = unread
  ∧ n_related_submission_id n = relatedSubmissionId
  ∧ now - 3600 < n_created_at n.

#[global] Instance similar_dec now type title rel n :
  Decision (similar now type title rel n).
Proof. unfold similar. apply _. Defined.

(** The foreign key of [related_submission_id]. *)
Definition related_exists (db : store) (relatedSubmissionId : option Z) : Prop :=
  match relatedSubmissionId with
  | Some sid => is_Some (find_submission db sid)
  | None => True
  end.

#[global] Instance related_exists_dec db rel : Decision (related_exists db rel).
Proof. destruct rel; simpl; apply _. Defined.

(** [createNotification]: the store after the call and the id returned
    ([None] is the [null] of the [catch] branch). *)
Definition createNotification (now : Z) (type : notif_type) (prio : priority)
           (title message : string) (meta : option metadata)
           (targetRole : string) (targetUser : option string)
           (relatedSubmissionId : option Z) (db : store) : store * option Z :=
  let insert (db : store) :=
    if decide (related_exists db relatedSubmissionId) then
      let id := notifications_seq db + 1 in
      (set_notifications db
         (notifications db ++
            [new_notification id now type prio title message meta targetRole
                              targetUser relatedSubmissionId])
         id,
       Some id)
    else (db, None) in
  if decide (type = weekly_report) then
    insert (set_notifications db
              (filter (λ n, n_type n ≠ weekly_report) (notifications db))
              (notifications_seq db))
  else
    match List.find (λ n, bool_decide (similar now type title relatedSubmissionId n))
                    (notifications db) with
    | Some existing => (db, Some (n_id existing))
    | None => insert db
    end.

(** [logActivity(action, username, details)]. *)
Definition logActivity (now : Z) (action username : string)
           (details : list (string * json)) (db : store) : store :=
  set_activity_log db
    (activity_log db ++
       [{| a_action := action; a_username := username; a_details := details;
           a_created_at := now |}]).

(** JavaScript truthiness of a preset id: [null] and [0] are falsy. *)
Definition truthyId (x : option Z) : bool :=
  match x with Some v => negb (v =? 0) | None => false end.

(** JavaScript truthiness of a text: the empty text is falsy. *)
Definition truthyText (x : string) : bool :=
  match x with EmptyString => false | _ => true end.

(** [citySimilarity >= 0.8], where [citySimilarity] is
    [maxLen > 0 ? 1 - distance / maxLen : 0]: in exact arithmetic,
    [5 * distance <= maxLen].  At the boundary the doubles agree:
    [distance / maxLen] is then the double of 0.2 and [1 - 0.2] is the
    double of 0.8. *)
Definition citySimilar (city1 city2 : string) : bool :=
  let distance := levenshteinDistance city1 city2 in
  let maxLen := Nat.max (String.length city1) (String.length city2) in
  ((0 <? maxLen) && (5 * distance <=? maxLen))%nat.

(** [calculateSimilarity(sub1, sub2)]: the score in hundredths and the
    factors.  The source adds the weights as doubles and returns
    [Math.round(score * 100) / 100]: the rounding error of at most five
    additions is far below half a hundredth, so the result is the double
    nearest to the exact sum of hundredths kept here. *)
Definition calculateSimilarity (sub1 sub2 : submission) : Z * list string :=
  let '(score, factors) := (0, @nil string) in
  let '(score, factors) :=
    if truthyId (s_organizer_id sub1) && truthyId (s_organizer_id sub2)
       && bool_decide (s_organizer_id sub1 = s_organizer_id sub2)
    then (score + 35, factors ++ ["Same organizer"%string])
    else if truthyText (s_organizer sub1) && truthyText (s_organizer sub2)
            && bool_decide (toLowerCase (s_organizer sub1)
                            = toLowerCase (s_organizer sub2))
    then (score + 30, factors ++ ["Similar organizer name"%string])
    else (score, factors) in
  let '(score, factors) :=
    if datesOverlap (s_start_date sub1) (s_end_date sub1)
                    (s_start_date sub2) (s_end_date sub2)
    then (score + 25, factors ++ ["Overlapping dates"%string])
    else (score, factors) in
  let '(score, factors) :=
    if truthyText (s_country sub1) && truthyText (s_country sub2)
       && bool_decide (toLowerCase (s_country sub1) = toLowerCase (s_country sub2))
    then (score + 15, factors ++ ["Same country"%string])
    else (score, factors) in
  let '(score, factors) :=
    if truthyText (s_city sub1) && truthyText (s_city sub2)
       && citySimilar (toLowerCase (s_city sub1)) (toLowerCase (s_city sub2))
    then (score + 15, factors ++ ["Similar city"%string])
    else (score, factors) in
  let '(score, factors) :=
    if truthyId (s_event_name_id sub1) && truthyId (s_event_name_id sub2)
       && bool_decide (s_event_name_id sub1 = s_event_name_id sub2)
    then (score + 10, factors ++ ["Same event name"%string])
    else (score, factors) in
  (score, factors).

(** An entry of the array [detectDuplicates] returns. *)
Record duplicate := {
  existingSubmissionId : Z;
  dup_score : Z;
  dup_factors : list string
}.

(** [ORDER BY created_at DESC]. *)
Definition newer (a b : submission) : Prop := s_created_at b ≤ s_created_at a.

#[global] Instance newer_dec a b : Decision (newer a b).
Proof. unfold newer. apply _. Defined.

(** The candidates query: other submissions, not cancelled, in the same
    country or overlapping the new submission, at most the 50 newest.  SQL
    leaves the order of rows with equal [created_at] open; here it is the
    one [merge_sort] gives. *)
Definition candidatesQuery (db : store) (newSubmissionId : Z) (newSub : submission)
  : list submission :=
  take 50
    (merge_sort newer
       (filter (λ s, s_id s ≠ newSubmissionId
                     ∧ s_event_status s ≠ CANCELLED
                     ∧ (s_country s = s_country newSub
                        ∨ (s_start_date s ≤ s_end_date newSub
                           ∧ s_start_date newSub ≤ s_end_date s)))
               (submissions db))).

(** The dismissals query, the pair taken in either order. *)
Definition dismissed (db : store) (newSubmissionId candidateId : Z) : Prop :=
  (newSubmissionId, candidateId) ∈ duplicate_dismissals db
  ∨ (candidateId, newSubmissionId) ∈ duplicate_dismissals db.

#[global] Instance dismissed_dec db a b : Decision (dismissed db a b).
Proof. unfold dismissed. apply _. Defined.

(** The message of a duplicate notification; [Math.round(score * 100)] is
    the number of hundredths. *)
Definition duplicateMessage (newSub candidate : submission) (score : Z) : string :=
  ("New submission for " ++ dquote ++ s_organizer newSub ++ dquote ++ " in "
   ++ s_city newSub
   ++ " (" ++ toISODate (s_start_date newSub) ++ ") is " ++ showZ score
   ++ "% similar to existing event #" ++ showZ (s_id candidate) ++ ".")%string.

(** The body of the loop over the candidates. *)
Definition checkCandidate (now : Z) (threshold : option number)
           (newSubmissionId : Z) (newSub : submission)
           (acc : store * list duplicate) (candidate : submission)
  : store * list duplicate :=
  let '(db, duplicates) := acc in
  if decide (dismissed db newSubmissionId (s_id candidate)) then acc
  else
    let '(score, factors) := calculateSimilarity newSub candidate in
    if from_option (hundredths_ge score) false threshold then
      (fst (createNotification now duplicate_detected
              (if 90 <=? score then high else medium)
              "Possible duplicate event detected"
              (duplicateMessage newSub candidate score)
              (Some (MetaDuplicate newSubmissionId (s_id candidate) score factors))
              "admin" None (Some newSubmissionId) db),
       duplicates ++ [{| existingSubmissionId := s_id candidate;
                         dup_score := score; dup_factors := factors |}])
    else acc.

(** [detectDuplicates(newSubmissionId)]. *)
Definition detectDuplicates (now : Z) (newSubmissionId : Z) (db : store)
  : store * list duplicate :=
  if negb (isSettingEnabled db "duplicate_detection_enabled") then (db, [])
  else
    let threshold := parseFloat (settingOr db "duplicate_threshold" "0.7") in
    match find_submission db newSubmissionId with
    | None => (db, [])
    | Some newSub =>
        foldl (checkCandidate now threshold newSubmissionId newSub) (db, [])
              (candidatesQuery db newSubmissionId newSub)
    end.

(** The rows the overload query joins to one counsellor: the confirmed
    submissions they are assigned to, neither completed nor cancelled,
    starting today or within the next 30 days.  The query has no [ORDER
    BY]; SQLite walks the confirmed submissions (index on [status], in
    rowid order) and looks each assignment up by its primary key, so the
    rows of a group come in the order of the submissions. *)
Definition overloadRows (db : store) (today : date) (c : counsellor)
  : list submission :=
  s ← submissions db;
  sa ← submission_assignments db;
  if decide (sa.2 = c_id c ∧ s_id s = sa.1 ∧ s_status s = confirmed
             ∧ s_event_status s ≠ COMPLETED ∧ s_event_status s ≠ CANCELLED
             ∧ today ≤ s_start_date s ∧ s_start_date s ≤ today + 30)
  then [s] else [].

(** A row of the overload query. *)
Record overload_row := {
  o_id : Z;
  o_full_name : string;
  o_username : string;
  o_event_count : Z;
  o_events : string
}.

(** [COUNT(DISTINCT sa.submission_id)] of a group. *)
Definition eventCount (rows : list submission) : Z :=
  Z.of_nat (length (remove_dups (map s_id rows))).

(** The overload query: one group for each active counsellor that has a
    joined row ([counsellors.id] is the primary key), kept when
    [event_count >= threshold]; a [NaN] threshold keeps none. *)
Definition overloadedQuery (db : store) (today : date) (threshold : option Z)
  : list overload_row :=
  c ← filter (λ c, c_is_active c = true) (counsellors db);
  let rows := overloadRows db today c in
  match rows, threshold with
  | _ :: _, Some t =>
      if t <=? eventCount rows
      then [{| o_id := c_id c; o_full_name := c_full_name c;
               o_username := c_username c;
               o_event_count := eventCount rows;
               o_events :=
                 join ", " (map (λ s, (s_city s ++ " ("
                                       ++ toISODate (s_start_date s) ++ ")")%string)
                                rows) |}]
      else []
  | _, _ => []
  end.

(** [counsellor.event_count >= threshold + 2 ? 'high' : 'medium']. *)
Definition overloadPriority (threshold : option Z) (event_count : Z) : priority :=
  match threshold with
  | Some t => if t + 2 <=? event_count then high else medium
  | None => medium
  end.

(** The message of an overload notification. *)
Definition overloadMessage (row : overload_row) : string :=
  (o_full_name row ++ " has " ++ showZ (o_event_count row)
   ++ " events in the next 30 days. Events: " ++ o_events row)%string.

(** The call of [createNotification] for one overloaded counsellor. *)
Definition raiseOverload (now : Z) (threshold : option Z) (db : store)
           (row : overload_row) : store :=
  fst (createNotification now staffing_warning
         (overloadPriority threshold (o_event_count row))
         "Counsellor workload alert" (overloadMessage row)
         (Some (MetaOverload (o_id row) (o_event_count row)))
         "admin" None None db).

(** [checkCounsellorOverload()]: the store after the run and the number
    of overloaded counsellors found. *)
Definition checkCounsellorOverload (now : Z) (db : store) : store * Z :=
  if negb (isSettingEnabled db "staffing_warning_enabled") then (db, 0)
  else
    let threshold := parseInt (settingOr db "counsellor_overload_threshold" "5") in
    let overloaded := overloadedQuery db (date_of now) threshold in
    (foldl (raiseOverload now threshold) db overloaded,
     Z.of_nat (length overloaded)).

(** [SELECT COUNT( * ) ... WHERE P]. *)
Definition count {A} (P : A → Prop) `{∀ x, Decision (P x)} (l : list A) : Z :=
  Z.of_nat (length (filter P l)).

(** Neither completed nor cancelled, and starting today or within [days]
    days. *)
Definition liveUpcoming (today : date) (days : Z) (s : submission) : Prop :=
  s_event_status s ≠ COMPLETED ∧ s_event_status s ≠ CANCELLED
  ∧ today ≤ s_start_date s ∧ s_start_date s ≤ today + days.

#[global] Instance liveUpcoming_dec today days s :
  Decision (liveUpcoming today days s).
Proof. unfold liveUpcoming. apply _. Defined.

(** [generateWeeklyReport(force)]. *)
Definition generateWeeklyReport (now : Z) (force : bool) (db : store)
  : store * bool :=
  if negb force && negb (isSettingEnabled db "weekly_report_enabled")
  then (db, false)
  else
    let today := date_of now in
    let totalUpcoming :=
      count (λ s, (s_status s = pending ∨ s_status s = confirmed)
                  ∧ liveUpcoming today 30 s) (submissions db) in
    let unstaffedEvents :=
      count (λ s, (s_status s = pending ∨ s_status s = confirmed)
                  ∧ liveUpcoming today 30 s
                  ∧ ¬ Exists (λ sa : link, sa.1 = s_id s)
                             (submission_assignments db))
            (submissions db) in
    let agingPending :=
      count (λ s, s_status s = pending
                  ∧ s_created_at s < now - 7 * 86400
                  ∧ s_event_status s ≠ CANCELLED) (submissions db) in
    let nextWeekEvents :=
      count (λ s, s_status s = confirmed ∧ liveUpcoming today 7 s)
            (submissions db) in
    let activeCounsellors :=
      count (λ c, c_is_active c = true) (counsellors db) in
    let reportItems :=
      [("📊 " ++ showZ totalUpcoming ++ " total event(s) in next 30 days")%string]
      ++ (if 0 <? unstaffedEvents
          then [("⚠ " ++ showZ unstaffedEvents ++ " event(s) need staffing")%string]
          else [])
      ++ (if 0 <? agingPending
          then [("⏰ " ++ showZ agingPending ++ " event(s) pending over 7 days")%string]
          else [])
      ++ [("📅 " ++ showZ nextWeekEvents ++ " event(s) next week")%string;
          ("👥 " ++ showZ activeCounsellors ++ " active counsellor(s)")%string] in
    let prio :=
      if (5 <? unstaffedEvents) || (10 <? agingPending) then high else medium in
    (fst (createNotification now weekly_report prio
            "Weekly Intelligence Report" (join " | " reportItems)
            (Some (MetaWeekly totalUpcoming unstaffedEvents agingPending
                              nextWeekEvents activeCounsellors))
            "admin" None None db),
     true).

End NotificationEngine.

(** ** [routes/admin.js]: availability *)

Module Admin.

(** The [while (cur <= end)] loop of [getDatesInRange] on the time
    values of [cur] and [end]; [fuel] bounds the number of iterations. *)
Fixpoint datesLoop (tz : zone) (fuel : nat) (cur end_ : Z) : list date :=
  match fuel with
  | O => []
  | S fuel' =>
      if cur <=? end_
      then isoDay cur :: datesLoop tz fuel' (setNextDate tz cur) end_
      else []
  end.

(** [getDatesInRange(startStr, endStr)].  [cur] starts at midnight UTC
    and [setDate(getDate() + 1)] moves it by a day of the local calendar, so
    the days pushed depend on the zone of the process: where the clock
    changes within the range, a day is listed twice or left out.  A step
    advances [cur] by twelve hours at least ([tza_slow]), so the fuel given
    lets the loop reach its exit test (lemma [datesLoop_fuel]). *)
Definition getDatesInRange (tz : zone) (startStr endStr : date) : list date :=
  datesLoop tz (Z.to_nat (2 * (endStr - startStr) + 1))
            (midnight startStr) (midnight endStr).

(** [expected] in the loop of [formatDateRanges]: [new Date(prev)], moved
    by [setDate(getDate() + 1)], as a date text. *)
Definition expectedNext (tz : zone) (prev : date) : date :=
  isoDay (setNextDate tz (midnight prev)).

(** The [for] loop of [formatDateRanges] over [sorted[1..]], with the
    variables [start], [prev] and the array [ranges].  A range is kept as
    the pair (start, prev) and rendered by [renderRange] at the end. *)
Fixpoint rangesLoop (tz : zone) (start prev : date) (rest : list date)
         (ranges : list (date * date)) : list (date * date) :=
  match rest with
  | [] => ranges ++ [(start, prev)]
  | curr :: rest' =>
      if bool_decide (curr ≠ expectedNext tz prev)
      then rangesLoop tz curr curr rest' (ranges ++ [(start, prev)])
      else rangesLoop tz start curr rest' ranges
  end.

(** [start === prev ? start : `${start} -> ${prev}`]. *)
Definition renderRange (r : date * date) : string :=
  if bool_decide (r.1 = r.2) then toISODate r.1
  else (toISODate r.1 ++ " -> " ++ toISODate r.2)%string.

(** [[...new Set(dateStrings)].sort()]. *)
Definition sortedUnique (dateStrings : list date) : list date :=
  merge_sort Z.le (remove_dups dateStrings).

(** The array [ranges] at the end of [formatDateRanges]. *)
Definition dateRuns (tz : zone) (dateStrings : list date) : list (date * date) :=
  match sortedUnique dateStrings with
  | [] => []
  | first :: rest => rangesLoop tz first first rest []
  end.

(** [formatDateRanges(dateStrings)]. *)
Definition formatDateRanges (tz : zone) (dateStrings : list date) : string :=
  match dateStrings with
  | [] => EmptyString
  | _ => join ", " (map renderRange (dateRuns tz dateStrings))
  end.

Inductive availability := available | partially_available | busy.

#[global] Instance availability_eq_dec : EqDecision availability.
Proof. solve_decision. Defined.

(** A row of the conflicts query. *)
Record conflict := {
  cf_id : Z;
  cf_start_date : date;
  cf_end_date : date;
  cf_city : string;
  cf_country : string
}.

Definition conflict_of (s : submission) : conflict :=
  {| cf_id := s_id s; cf_start_date := s_start_date s;
     cf_end_date := s_end_date s; cf_city := s_city s;
     cf_country := s_country s |}.

Record availability_row := {
  r_id : Z;
  r_username : string;
  r_full_name : string;
  r_available : bool;
  r_status : availability;
  r_available_ranges : string;
  r_conflicts : list conflict
}.

(** JavaScript truthiness of [excludeId]: [null] and [0] are falsy. *)
Definition excludes (excludeId : option Z) (sid : Z) : Prop :=
  match excludeId with
  | Some e => e ≠ 0 ∧ sid = e
  | None => False
  end.

#[global] Instance excludes_dec excludeId sid : Decision (excludes excludeId sid).
Proof. destruct excludeId; simpl; apply _. Defined.

(** The join of [submission_assignments] with [submissions] for one
    counsellor: confirmed submissions whose dates overlap the window.  The
    query has no [ORDER BY]; SQLite walks the confirmed submissions (index
    on [status], in rowid order) and looks each assignment up by its primary
    key, so the conflicts come in the order of the submissions. *)
Definition conflictsQuery (db : store) (cid : Z) (start end_ : date)
           (excludeId : option Z) : list conflict :=
  s ← submissions db;
  sa ← submission_assignments db;
  if decide (s_id s = sa.1 ∧ sa.2 = cid ∧ s_status s = confirmed
             ∧ overlapCondition (s_start_date s) (s_end_date s) start end_ = true
             ∧ ¬ excludes excludeId (s_id s))
  then [conflict_of s] else [].

(** Step 2 of the handler: the days of the conflicts that are requested. *)
Definition busySetOf (tz : zone) (requestedSet : gset date)
           (conflicts : list conflict) : gset date :=
  foldl (λ busySet conf,
           foldl (λ busySet d,
                    if decide (d ∈ requestedSet) then {[d]} ∪ busySet
                    else busySet)
                 busySet
                 (getDatesInRange tz (cf_start_date conf) (cf_end_date conf)))
        ∅ conflicts.

(** The body of [counsellors.map(c => ...)]. *)
Definition availabilityOf (tz : zone) (db : store) (start end_ : date)
           (excludeId : option Z) (c : counsellor) : availability_row :=
  let requestedDates := getDatesInRange tz start end_ in
  let totalRequested := length requestedDates in
  let requestedSet : gset date := list_to_set requestedDates in
  let conflicts := conflictsQuery db (c_id c) start end_ excludeId in
  let busySet := busySetOf tz requestedSet conflicts in
  let busyCount := size busySet in
  let status :=
    if (busyCount =? 0)%nat then available
    else if (totalRequested <=? busyCount)%nat then busy
    else partially_available in
  let available_ranges :=
    match status with
    | partially_available =>
        formatDateRanges tz (filter (λ d, d ∉ busySet) requestedDates)
    | _ => EmptyString
    end in
  {| r_id := c_id c; r_username := c_username c; r_full_name := c_full_name c;
     r_available := bool_decide (status = available);
     r_status := status;
     r_available_ranges := available_ranges;
     r_conflicts := conflicts |}.

(** [ORDER BY lower(full_name) ASC]. *)
Definition name_le (a b : counsellor) : Prop :=
  String.leb (toLowerCase (c_full_name a)) (toLowerCase (c_full_name b)).

#[global] Instance name_le_dec a b : Decision (name_le a b).
Proof. unfold name_le. apply _. Defined.

Definition activeCounsellors (db : store) : list counsellor :=
  merge_sort name_le (filter (λ c, c_is_active c = true) (counsellors db)).

(** [GET /counsellors/availability]; a missing or empty [start] or [end]
    is [None]. *)
Definition getAvailability (tz : zone) (db : store) (start end_ : option date)
           (exclude_submission_id : option Z) : response (list availability_row) :=
  match start, end_ with
  | Some start, Some end_ =>
      Ok (map (availabilityOf tz db start end_ exclude_submission_id)
              (activeCounsellors db))
  | _, _ => Error 400
  end.

(** *** Finalize staffing *)

(** [INSERT INTO submission_assignments]: the primary key
    (submission_id, counsellor_id) rejects a row already there.  The
    foreign keys hold for the rows [finalize] inserts: the submission was
    found and every counsellor was selected from the table. *)
Definition insertAssignment (row : link) (t : list link) : option (list link) :=
  if decide (row ∈ t) then None else Some (t ++ [row]).

(** [for (const c of selected) ins.run(id, c.id)]. *)
Fixpoint insertAssignments (id : Z) (selected : list counsellor) (t : list link)
  : option (list link) :=
  match selected with
  | [] => Some t
  | c :: rest =>
      t' ← insertAssignment (id, c_id c) t;
      insertAssignments id rest t'
  end.

Definition confirm (now : Z) (s : submission) : submission :=
  {| s_id := s_id s; s_start_date := s_start_date s; s_end_date := s_end_date s;
     s_organizer := s_organizer s; s_organizer_id := s_organizer_id s;
     s_event_name_id := s_event_name_id s; s_event_type_id := s_event_type_id s;
     s_city := s_city s; s_country := s_country s;
     s_proposed_staffing := s_proposed_staffing s; s_remarks := s_remarks s;
     s_sent_by_counsellor_id := s_sent_by_counsellor_id s;
     s_payment_status := s_payment_status s;
     s_status := confirmed;
     s_event_status := s_event_status s; s_submitted_by := s_submitted_by s;
     s_confirmed_at := Some now;
     s_created_at := s_created_at s;
     s_updated_at := now |}.

(** The transaction [tx] of [finalize]: all three statements, or none when
    an insert fails. *)
Definition finalizeTx (now id : Z) (selected : list counsellor) (db : store)
  : option store :=
  t ← insertAssignments id selected
        (filter (λ sa : link, sa.1 ≠ id) (submission_assignments db));
  Some (set_submissions (set_assignments db t)
          (updateWhereId id (confirm now) (submissions db))
          (submissions_seq db)).

(** [PUT /submissions/:id/finalize].  [id] is [None] when the path
    parameter is not a finite number, [counsellor_ids] is [None] when the
    body holds no array. *)
Definition finalize (now : Z) (username : string) (id : option Z)
           (counsellor_ids : option (list Z)) (db : store)
  : store * response unit :=
  match id with
  | None => (db, Error 400)
  | Some id =>
      match counsellor_ids with
      | None | Some [] => (db, Error 400)
      | Some counsellor_ids =>
          match find_submission db id with
          | None => (db, Error 404)
          | Some sub =>
              if decide (s_event_status sub = COMPLETED
                         ∨ s_event_status sub = CANCELLED)
              then (db, Error 400)
              else
                let selected :=
                  filter (λ c, c_is_active c = true ∧ c_id c ∈ counsellor_ids)
                         (counsellors db) in
                if negb (length selected =? length counsellor_ids)%nat
                then (db, Error 400)
                else
                  match finalizeTx now id selected db with
                  | None => (db, Error 500)
                  | Some db1 =>
                      let db2 :=
                        NotificationEngine.logActivity now "staffing_finalized"
                          username
                          [("submission_id"%string, JNum id);
                           ("counsellor_ids"%string, JNums counsellor_ids);
                           ("counsellor_names"%string,
                            JStrs (map c_full_name selected))] db1 in
                      (fst (NotificationEngine.checkCounsellorOverload now db2),
                       Ok ())
                  end
          end
      end
  end.

(** *** Metadata *)

(** [req.body.sent_by_counsellor_id]. *)
Inductive sent_by_arg :=
  | SentUndefined
  | SentNull               (* null or the empty text *)
  | SentNumber (n : Z)
  | SentNotANumber.

Record meta_body := {
  mb_sent_by_counsellor_id : sent_by_arg;
  mb_payment_status : option string;
  mb_event_status : option string;
  mb_remarks : option string
}.

Definition paymentText (p : payment_status) : string :=
  match p with PAID => "PAID" | UNPAID => "UNPAID" | FREE => "FREE" end.

Definition eventStatusText (e : event_status) : string :=
  match e with
  | ONGOING => "ONGOING" | COMPLETED => "COMPLETED"
  | CANCELLED => "CANCELLED" | POSTPONED => "POSTPONED"
  end.

(** [allowedPay.includes(v)], with the value found. *)
Definition allowedPay (v : string) : option payment_status :=
  List.find (λ p, bool_decide (paymentText p = v)) [PAID; UNPAID; FREE].

(** [allowedStatus.includes(v)], with the value found. *)
Definition allowedStatus (v : string) : option event_status :=
  List.find (λ e, bool_decide (eventStatusText e = v))
            [ONGOING; COMPLETED; CANCELLED; POSTPONED].

Definition setMeta (now : Z) (newSent : option Z) (newPay : payment_status)
           (newStatus : event_status) (newRemarks : string)
           (notApplicable : bool) (s : submission) : submission :=
  {| s_id := s_id s; s_start_date := s_start_date s; s_end_date := s_end_date s;
     s_organizer := s_organizer s; s_organizer_id := s_organizer_id s;
     s_event_name_id := s_event_name_id s; s_event_type_id := s_event_type_id s;
     s_city := s_city s; s_country := s_country s;
     s_proposed_staffing := s_proposed_staffing s;
     s_remarks := Some newRemarks;
     s_sent_by_counsellor_id := newSent;
     s_payment_status := newPay;
     s_status := if notApplicable then not_applicable else s_status s;
     s_event_status := newStatus;
     s_submitted_by := s_submitted_by s;
     s_confirmed_at := s_confirmed_at s;
     s_created_at := s_created_at s;
     s_updated_at := now |}.

(** The foreign key of [submissions.sent_by_counsellor_id]. *)
Definition sent_by_exists (db : store) (newSent : option Z) : Prop :=
  match newSent with
  | Some n => Exists (λ c, c_id c = n) (counsellors db)
  | None => True
  end.

#[global] Instance sent_by_exists_dec db newSent :
  Decision (sent_by_exists db newSent).
Proof. destruct newSent; simpl; apply _. Defined.

(** [PUT /submissions/:id/meta].  The [DELETE] of the assignments and the
    [UPDATE] of the submission are two statements, run one after the
    other outside any transaction; the [UPDATE] fails on its foreign
    key when [newSent] names no counsellor. *)
Definition updateMeta (now : Z) (username : string) (id : option Z)
           (body : meta_body) (db : store) : store * response unit :=
  match id with
  | None => (db, Error 400)
  | Some id =>
      match find_submission db id with
      | None => (db, Error 404)
      | Some row =>
          let newSent :=
            match mb_sent_by_counsellor_id body with
            | SentUndefined => Some (s_sent_by_counsellor_id row)
            | SentNull => Some None
            | SentNumber n => Some (Some n)
            | SentNotANumber => None
            end in
          let newPay :=
            match mb_payment_status body with
            | None => Some (s_payment_status row)
            | Some v => allowedPay (toUpperCase v)
            end in
          let newStatus :=
            match mb_event_status body with
            | None => Some (s_event_status row)
            | Some v => allowedStatus (toUpperCase v)
            end in
          let newRemarks :=
            match mb_remarks body with
            | None => default EmptyString (s_remarks row)
            | Some v => v
            end in
          match newSent, newPay, newStatus with
          | Some newSent, Some newPay, Some newStatus =>
              let cancelled :=
                bool_decide (newStatus = CANCELLED ∨ newStatus = POSTPONED) in
              let db1 :=
                if cancelled
                then set_assignments db
                       (filter (λ sa : link, sa.1 ≠ id) (submission_assignments db))
                else db in
              if decide (sent_by_exists db1 newSent) then
                let db2 :=
                  set_submissions db1
                    (updateWhereId id
                       (setMeta now newSent newPay newStatus newRemarks cancelled)
                       (submissions db1))
                    (submissions_seq db1) in
                let db3 :=
                  match mb_event_status body with
                  | Some v =>
                      if decide (v ≠ eventStatusText (s_event_status row)) then
                        NotificationEngine.logActivity now "event_status_changed"
                          username
                          [("submission_id"%string, JNum id);
                           ("old_status"%string,
                            JStr (eventStatusText (s_event_status row)));
                           ("new_status"%string, JStr (eventStatusText newStatus))]
                          db2
                      else db2
                  | None => db2
                  end in
                (db3, Ok ())
              else (db1, Error 500)
          | _, _, _ => (db, Error 400)
          end
      end
  end.

End Admin.

(** ** [routes/counsellor.js] *)

Module Counsellor.

(** An element of [req.body.events]; a field that is [undefined], [null]
    or (for a date) the empty text is [None]. *)
Record event_body := {
  e_start_date : option date;
  e_end_date : option date;
  e_organizer_id : option Z;
  e_event_name_id : option Z;
  e_event_type_id : option Z;
  e_city : option string;
  e_country : option string;
  e_proposed_staffing : option string;
  e_remarks : option string
}.

(** JavaScript truthiness of a text field ([x || null] keeps it). *)
Definition truthy (x : option string) : option string :=
  match x with
  | Some EmptyString | None => None
  | Some v => Some v
  end.

(** JavaScript truthiness of a numeric field. *)
Definition truthyNum (x : option Z) : option Z :=
  match x with
  | Some 0 | None => None
  | Some v => Some v
  end.

(** [db.prepare("SELECT name FROM t WHERE id = ?").get(id)]. *)
Definition presetName (t : list preset) (id : Z) : option string :=
  p_name <$> List.find (λ p, bool_decide (p_id p = id)) t.

Inductive batch_error :=
  | MissingRequiredFields
  | EndBeforeStart
  | InvalidPresetSelection.

Record batch_response := {
  b_ok : bool;
  b_submitted : nat;
  b_failed : nat;
  b_results : list (nat * Z);          (* index, id *)
  b_errors : list (nat * batch_error)  (* index, error *)
}.

(** The row [INSERT INTO submissions] writes for a validated event; the
    columns left out take their defaults. *)
Definition new_submission (id now : Z) (username : string)
           (start_date end_date : date) (organizerDisplay : string)
           (organizer_id event_name_id event_type_id : Z)
           (city country : string) (proposed_staffing remarks : option string)
  : submission :=
  {| s_id := id; s_start_date := start_date; s_end_date := end_date;
     s_organizer := organizerDisplay; s_organizer_id := Some organizer_id;
     s_event_name_id := Some event_name_id; s_event_type_id := Some event_type_id;
     s_city := city; s_country := country;
     s_proposed_staffing := truthy proposed_staffing;
     s_remarks := truthy remarks;
     s_sent_by_counsellor_id := None; s_payment_status := UNPAID;
     s_status := pending; s_event_status := ONGOING;
     s_submitted_by := username; s_confirmed_at := None;
     s_created_at := now; s_updated_at := now |}.

(** The checks of one event, in the order of the source: the values to
    insert, or the error reported. *)
Definition validateEvent (db : store) (event : event_body)
  : (date * date * string * Z * Z * Z * string * string) + batch_error :=
  match e_start_date event, e_end_date event,
        truthyNum (e_organizer_id event), truthyNum (e_event_name_id event),
        truthyNum (e_event_type_id event),
        truthy (e_city event), truthy (e_country event) with
  | Some start_date, Some end_date, Some organizer_id, Some event_name_id,
    Some event_type_id, Some city, Some country =>
      if start_date >? end_date then inr EndBeforeStart
      else
        match presetName (organizers db) organizer_id,
              presetName (event_names db) event_name_id,
              presetName (event_types db) event_type_id with
        | Some org, Some evtName, Some evtType =>
            inl (start_date, end_date,
                 (org ++ " | " ++ evtName ++ " | " ++ evtType)%string,
                 organizer_id, event_name_id, event_type_id, city, country)
        | _, _, _ => inr InvalidPresetSelection
        end
  | _, _, _, _, _, _, _ => inr MissingRequiredFields
  end.

(** The loop state of the batch handler. *)
Record batch_state := {
  bs_db : store;
  bs_results : list (nat * Z);
  bs_errors : list (nat * batch_error)
}.

(** One iteration of [for (let i = 0; i < events.length; i++)]. *)
Definition batchStep (now : Z) (username : string) (st : batch_state)
           (i : nat) (event : event_body) : batch_state :=
  let db := bs_db st in
  match validateEvent db event with
  | inr err =>
      {| bs_db := db; bs_results := bs_results st;
         bs_errors := bs_errors st ++ [(i, err)] |}
  | inl (start_date, end_date, organizerDisplay, organizer_id, event_name_id,
         event_type_id, city, country) =>
      let submissionId := submissions_seq db + 1 in
      let db1 :=
        set_submissions db
          (submissions db ++
             [new_submission submissionId now username start_date end_date
                organizerDisplay organizer_id event_name_id event_type_id
                city country (e_proposed_staffing event) (e_remarks event)])
          submissionId in
      let db2 :=
        NotificationEngine.logActivity now "submission_created" username
          [("submission_id"%string, JNum submissionId);
           ("city"%string, JStr city); ("country"%string, JStr country);
           ("batch"%string, JBool true)] db1 in
      let db3 := fst (NotificationEngine.detectDuplicates now submissionId db2) in
      {| bs_db := db3; bs_results := bs_results st ++ [(i, submissionId)];
         bs_errors := bs_errors st |}
  end.

Fixpoint batchLoop (now : Z) (username : string) (st : batch_state)
         (i : nat) (events : list event_body) : batch_state :=
  match events with
  | [] => st
  | event :: rest =>
      batchLoop now username (batchStep now username st i event) (S i) rest
  end.

(** [POST /submissions/batch]; [events] is [None] when the body holds no
    array. *)
Definition createBatch (now : Z) (username : string)
           (events : option (list event_body)) (db : store)
  : store * response batch_response :=
  match events with
  | None | Some [] => (db, Error 400)
  | Some events =>
      let st := batchLoop now username
                  {| bs_db := db; bs_results := []; bs_errors := [] |} O events in
      (bs_db st,
       Ok {| b_ok := (length (bs_errors st) =? 0)%nat;
             b_submitted := length (bs_results st);
             b_failed := length (bs_errors st);
             b_results := bs_results st;
             b_errors := bs_errors st |})
  end.

(** The body of [PUT /submissions/:id]. *)
Record update_body := {
  u_start_date : option date;
  u_end_date : option date;
  u_organizer : option string;
  u_city : option string;
  u_country : option string;
  u_proposed_staffing : option string;
  u_remarks : option string;
  u_suggested_ids : list Z
}.

Definition edit (now : Z) (start_date end_date : date)
           (organizer city country : string)
           (proposed_staffing remarks : option string) (s : submission)
  : submission :=
  {| s_id := s_id s; s_start_date := start_date; s_end_date := end_date;
     s_organizer := organizer; s_organizer_id := s_organizer_id s;
     s_event_name_id := s_event_name_id s; s_event_type_id := s_event_type_id s;
     s_city := city; s_country := country;
     s_proposed_staffing := truthy proposed_staffing;
     s_remarks := truthy remarks;
     s_sent_by_counsellor_id := s_sent_by_counsellor_id s;
     s_payment_status := s_payment_status s;
     s_status := pending;
     s_event_status := s_event_status s; s_submitted_by := s_submitted_by s;
     s_confirmed_at := s_confirmed_at s;
     s_created_at := s_created_at s;
     s_updated_at := now |}.

(** [ids.forEach(cid => ins.run(id, cid))] with [INSERT OR IGNORE]: a row
    already there is skipped, a counsellor id without a counsellor fails
    the foreign key and the exception ends the loop (it is caught by the
    handler, the rows inserted so far stay). *)
Fixpoint insertSuggestions (db : store) (id : Z) (ids : list Z) (t : list link)
  : list link :=
  match ids with
  | [] => t
  | cid :: rest =>
      if decide (Exists (λ c, c_id c = cid) (counsellors db)) then
        insertSuggestions db id rest
          (if decide ((id, cid) ∈ t) then t else t ++ [(id, cid)])
      else t
  end.

(** [PUT /submissions/:id], by the counsellor [username]. *)
Definition updateSubmission (now : Z) (username : string) (id : option Z)
           (body : update_body) (db : store) : store * response Z :=
  match id with
  | None => (db, Error 400)
  | Some id =>
      match u_start_date body, u_end_date body, truthy (u_organizer body),
            truthy (u_city body), truthy (u_country body) with
      | Some start_date, Some end_date, Some organizer, Some city, Some country =>
          if start_date >? end_date then (db, Error 400)
          else
            match find_submission db id with
            | None => (db, Error 404)
            | Some sub =>
                if decide (s_submitted_by sub ≠ username) then (db, Error 403)
                else if decide (s_status sub = confirmed
                                ∧ s_start_date sub ≤ date_of now)
                then (db, Error 400)
                else
                  let db1 :=
                    set_submissions db
                      (updateWhereId id
                         (edit now start_date end_date organizer city country
                               (u_proposed_staffing body) (u_remarks body))
                         (submissions db))
                      (submissions_seq db) in
                  let db2 :=
                    set_suggestions db1
                      (insertSuggestions db1 id (u_suggested_ids body)
                         (filter (λ ss : link, ss.1 ≠ id)
                                 (submission_suggestions db1))) in
                  (db2, Ok id)
            end
      | _, _, _, _, _ => (db, Error 400)
      end
  end.

End Counsellor.


(** * Further routes and jobs

    The routes and jobs around the ones above: the guard of
    [routes/auth.js], the other submission routes of [routes/counsellor.js],
    the other staffing routes of [routes/admin.js], the
    reminder job of [services/notificationEngine.js] and the notification
    routes of [routes/notifications.js]. *)

(** Functional updates of the remaining tables. *)
Definition set_counsellors (db : store) (l : list counsellor) : store :=
  {| counsellors := l; organizers := organizers db;
     event_names := event_names db; event_types := event_types db;
     submissions := submissions db; submissions_seq := submissions_seq db;
     submission_assignments := submission_assignments db;
     submission_suggestions := submission_suggestions db;
     notifications := notifications db; notifications_seq := notifications_seq db;
     notification_settings := notification_settings db;
     duplicate_dismissals := duplicate_dismissals db;
     activity_log := activity_log db |}.

Definition set_settings (db : store) (m : gmap string string) : store :=
  {| counsellors := counsellors db; organizers := organizers db;
     event_names := event_names db; event_types := event_types db;
     submissions := submissions db; submissions_seq := submissions_seq db;
     submission_assignments := submission_assignments db;
     submission_suggestions := submission_suggestions db;
     notifications := notifications db; notifications_seq := notifications_seq db;
     notification_settings := m;
     duplicate_dismissals := duplicate_dismissals db;
     activity_log := activity_log db |}.

Definition set_dismissals (db : store) (l : list link) : store :=
  {| counsellors := counsellors db; organizers := organizers db;
     event_names := event_names db; event_types := event_types db;
     submissions := submissions db; submissions_seq := submissions_seq db;
     submission_assignments := submission_assignments db;
     submission_suggestions := submission_suggestions db;
     notifications := notifications db; notifications_seq := notifications_seq db;
     notification_settings := notification_settings db;
     duplicate_dismissals := l;
     activity_log := activity_log db |}.

(** [DELETE FROM submissions WHERE id = ?] under [PRAGMA foreign_keys = ON]:
    the rows of [submission_assignments], [submission_suggestions] and
    [notifications] that reference the submission are deleted with it
    ([ON DELETE CASCADE]); [duplicate_dismissals] has no foreign key. *)
Definition deleteSubmissionRow (id : Z) (db : store) : store :=
  {| counsellors := counsellors db; organizers := organizers db;
     event_names := event_names db; event_types := event_types db;
     submissions := filter (λ s, s_id s ≠ id) (submissions db);
     submissions_seq := submissions_seq db;
     submission_assignments :=
       filter (λ sa : link, sa.1 ≠ id) (submission_assignments db);
     submission_suggestions :=
       filter (λ ss : link, ss.1 ≠ id) (submission_suggestions db);
     notifications :=
       filter (λ n, n_related_submission_id n ≠ Some id) (notifications db);
     notifications_seq := notifications_seq db;
     notification_settings := notification_settings db;
     duplicate_dismissals := duplicate_dismissals db;
     activity_log := activity_log db |}.

(** The text the column [status] of [notifications] holds. *)
Definition statusText (status : notif_status) : string :=
  match status with
  | unread => "unread"
  | read => "read"
  | dismissed => "dismissed"
  | actioned => "actioned"
  end.

(** ** [routes/auth.js] *)

Module Auth.

(** The role a token is signed with. *)
Inductive role := RoleAdmin | RoleCounsellor.

#[global] Instance role_eq_dec : EqDecision role.
Proof. solve_decision. Defined.

Definition roleText (r : role) : string :=
  match r with RoleAdmin => "admin" | RoleCounsellor => "counsellor" end.

(** The payload of a verified token ([req.user]). *)
Record user := { usr_username : string; usr_role : role }.

(** [requireAuth(role)] on [authUser], what [authUser(req)] returned:
    [None] for a missing or invalid token.  [required] is [None] for [requireAuth()].
    The answer is the user the handler runs for, or the status sent. *)
Definition requireAuth (required : option role) (authUser : option user)
  : response user :=
  match authUser with
  | None => Error 401
  | Some u =>
      match required with
      | Some r => if decide (usr_role u ≠ r) then Error 403 else Ok u
      | None => Ok u
      end
  end.

End Auth.

(** ** [services/notificationEngine.js]: event reminders *)

Module Reminders.

Import Num NotificationEngine.

(** [Math.ceil(a / b)] for a positive [b]. *)
Definition ceilDiv (a b : Z) : Z := - ((- a) / b).

(** [daysUntil(dateStr)]: both instants are UTC midnights, in
    milliseconds.  The calendar day of [now] is taken in UTC, as
    [date('now')] takes it: the server clock is in UTC. *)
Definition daysUntil (now : Z) (dateStr : date) : Z :=
  let today := date_of now * 86400 * 1000 in
  let target := dateStr * 86400 * 1000 in
  let diffTime := target - today in
  ceilDiv diffTime (1000 * 60 * 60 * 24).

(** [calculateReminderPriority(daysUntilEvent)]; [None] is [null]. *)
Definition calculateReminderPriority (daysUntilEvent : Z) : option priority :=
  if daysUntilEvent <=? 1 then Some critical
  else if daysUntilEvent <=? 3 then Some high
  else if daysUntilEvent <=? 7 then Some high
  else if daysUntilEvent <=? 14 then Some medium
  else if daysUntilEvent <=? 30 then Some low
  else None.

(** JSON white space. *)
Definition isJsonSpace (c : ascii) : bool :=
  let n := nat_of_ascii c in
  ((n =? 32) || (n =? 9) || (n =? 10) || (n =? 13))%nat.

Fixpoint skipJsonSpaces (s : string) : string :=
  match s with
  | String c r => if isJsonSpace c then skipJsonSpaces r else s
  | EmptyString => s
  end.

(** A JSON integer at the head of the text: an optional minus sign, then
    [0] or a digit 1-9 followed by digits; the value and the rest. *)
Definition jsonInteger (s : string) : option (Z * string) :=
  let '(sign, r) := match s with String "-" r => (-1, r) | _ => (1, s) end in
  let '(v, count, rest) := digitsPrefix r 0 0 in
  match count, r with
  | O, _ => None
  | S (S _), String "0" _ => None
  | _, _ => Some (sign * v, rest)
  end.

(** The elements of a JSON array after its opening bracket; [first] tells
    whether an element or the closing bracket may come next. *)
Fixpoint jsonElements (fuel : nat) (first : bool) (s : string) (acc : list Z)
  : option (list Z) :=
  match fuel with
  | O => None
  | S fuel' =>
      match skipJsonSpaces s with
      | String "]" rest =>
          if first then
            match skipJsonSpaces rest with EmptyString => Some acc | _ => None end
          else None
      | r =>
          match jsonInteger r with
          | None => None
          | Some (v, rest) =>
              match skipJsonSpaces rest with
              | String "," rest' => jsonElements fuel' false rest' (acc ++ [v])
              | String "]" rest' =>
                  match skipJsonSpaces rest' with
                  | EmptyString => Some (acc ++ [v])
                  | _ => None
                  end
              | _ => None
              end
          end
      end
  end.

(** [JSON.parse(text)] for the text of an array of integers.  [None]
    stands for every other text: one [JSON.parse] rejects, or one that
    holds another JSON value, which this model does not cover. *)
Definition parseReminderDays (text : string) : option (list Z) :=
  match skipJsonSpaces text with
  | String "[" rest => jsonElements (S (String.length rest)) true rest []
  | _ => None
  end.

(** [reminderDays.some(d => days <= d && days > (d === 1 ? 0 : d - 1))]. *)
Definition isReminderDay (reminderDays : list Z) (days : Z) : bool :=
  existsb (λ d, (days <=? d) && (days >? (if d =? 1 then 0 else d - 1)))
          reminderDays.

(** The events query: the submissions neither completed nor cancelled
    that start today or within 30 days, each with the number of its
    assignments. *)
Definition reminderEvents (db : store) (today : date) : list (submission * Z) :=
  map (λ s, (s, count (λ sa : link, sa.1 = s_id s) (submission_assignments db)))
      (filter (liveUpcoming today 30) (submissions db)).

(** The arguments of one call of [createNotification] by the reminder
    job: type [event_reminder], target role [admin], no target user; the
    related submission is the event, and the metadata holds the event id,
    the days left and the issues. *)
Record reminder := {
  rm_priority : priority;
  rm_title : string;
  rm_message : string;
  rm_submission_id : Z;
  rm_days_until : Z;
  rm_issues : list string
}.

(** The body of the loop over the events: the call it makes, if any. *)
Definition reminderFor (now : Z) (reminderDays : list Z) (event : submission * Z)
  : option reminder :=
  let '(s, assignment_count) := event in
  let days := daysUntil now (s_start_date s) in
  if negb (isReminderDay reminderDays days) then None
  else
    let issues :=
      (if decide (s_status s = pending) then ["not confirmed"%string] else [])
      ++ (if assignment_count =? 0 then ["no staff assigned"%string] else []) in
    match issues with
    | [] => None
    | _ =>
        match calculateReminderPriority days with
        | None => None
        | Some prio =>
            Some {| rm_priority := prio;
                    rm_title :=
                      ("Event in " ++ showZ days ++ " day"
                       ++ (if (days =? 1)%Z then "" else "s") ++ " needs attention")%string;
                    rm_message :=
                      (dquote ++ s_organizer s ++ dquote ++ " in " ++ s_city s ++ ", "
                       ++ s_country s ++ " (" ++ toISODate (s_start_date s) ++ " to "
                       ++ toISODate (s_end_date s) ++ ") is "
                       ++ join " and " issues ++ ".")%string;
                    rm_submission_id := s_id s;
                    rm_days_until := days;
                    rm_issues := issues |}
        end
    end.

(** [checkEventReminders()]: the calls of [createNotification] the job
    makes, in order, and the number it returns, which counts the calls.
    The effect of each call on the store is that of [createNotification].
    The result is [None] when the reminder days are not the text of an
    array of integers. *)
Definition checkEventReminders (now : Z) (db : store) : option (list reminder * Z) :=
  if negb (isSettingEnabled db "event_reminder_enabled") then Some ([], 0)
  else
    reminderDays ← parseReminderDays
                     (settingOr db "event_reminder_days" "[30, 14, 7, 3, 1]");
    let calls := omap (reminderFor now reminderDays) (reminderEvents db (date_of now)) in
    Some (calls, Z.of_nat (length calls)).

End Reminders.

(** ** [routes/counsellor.js]: the other submission routes *)

Module Submissions.

Import NotificationEngine Counsellor Auth.

(** The body of [POST /submissions]: the fields of an event and
    [suggested_ids], here the ids of the array that are finite numbers (none
    when the field is no array). *)
Record create_body := {
  cb_event : event_body;
  cb_suggested_ids : list Z
}.

(** [POST /submissions]. *)
Definition createSubmission (now : Z) (who : option user) (body : create_body)
           (db : store) : store * response Z :=
  match requireAuth (Some RoleCounsellor) who with
  | Error code => (db, Error code)
  | Ok user =>
      match validateEvent db (cb_event body) with
      | inr _ => (db, Error 400)
      | inl (start_date, end_date, organizerDisplay, organizer_id, event_name_id,
             event_type_id, city, country) =>
          let submissionId := submissions_seq db + 1 in
          let db1 :=
            set_submissions db
              (submissions db ++
                 [new_submission submissionId now (usr_username user) start_date
                    end_date organizerDisplay organizer_id event_name_id event_type_id
                    city country (e_proposed_staffing (cb_event body))
                    (e_remarks (cb_event body))])
              submissionId in
          let db2 :=
            set_suggestions db1
              (insertSuggestions db1 submissionId (cb_suggested_ids body)
                 (filter (λ ss : link, ss.1 ≠ submissionId)
                         (submission_suggestions db1))) in
          let db3 :=
            logActivity now "submission_created" (usr_username user)
              [("submission_id"%string, JNum submissionId);
               ("city"%string, JStr city); ("country"%string, JStr country);
               ("start_date"%string, JStr (toISODate start_date));
               ("end_date"%string, JStr (toISODate end_date))] db2 in
          let db4 := fst (detectDuplicates now submissionId db3) in
          (db4, Ok submissionId)
      end
  end.

Definition setRemarks (now : Z) (remarks : string) (s : submission) : submission :=
  {| s_id := s_id s; s_start_date := s_start_date s; s_end_date := s_end_date s;
     s_organizer := s_organizer s; s_organizer_id := s_organizer_id s;
     s_event_name_id := s_event_name_id s; s_event_type_id := s_event_type_id s;
     s_city := s_city s; s_country := s_country s;
     s_proposed_staffing := s_proposed_staffing s;
     s_remarks := Some remarks;
     s_sent_by_counsellor_id := s_sent_by_counsellor_id s;
     s_payment_status := s_payment_status s;
     s_status := s_status s;
     s_event_status := s_event_status s; s_submitted_by := s_submitted_by s;
     s_confirmed_at := s_confirmed_at s;
     s_created_at := s_created_at s;
     s_updated_at := now |}.

(** [PUT /submissions/:id/remarks]; [remarks] is the text of the body,
    [None] when it is missing. *)
Definition updateRemarks (now : Z) (who : option user) (id : option Z)
           (remarks : option string) (db : store) : store * response unit :=
  match requireAuth (Some RoleCounsellor) who with
  | Error code => (db, Error code)
  | Ok user =>
      match id with
      | None => (db, Error 400)
      | Some id =>
          match find_submission db id with
          | None => (db, Error 404)
          | Some sub =>
              if decide (s_submitted_by sub ≠ usr_username user) then (db, Error 403)
              else
                (set_submissions db
                   (updateWhereId id (setRemarks now (default EmptyString (truthy remarks)))
                                  (submissions db))
                   (submissions_seq db),
                 Ok ())
          end
      end
  end.

(** [DELETE /submissions/:id], for any logged-in user. *)
Definition deleteSubmission (now : Z) (who : option user) (id : option Z)
           (db : store) : store * response unit :=
  match requireAuth None who with
  | Error code => (db, Error code)
  | Ok user =>
      match id with
      | None => (db, Error 400)
      | Some id =>
          match find_submission db id with
          | None => (db, Error 404)
          | Some row =>
              if decide (usr_role user = RoleCounsellor
                         ∧ s_submitted_by row ≠ usr_username user)
              then (db, Error 403)
              else
                let db1 :=
                  set_assignments db
                    (filter (λ sa : link, sa.1 ≠ id) (submission_assignments db)) in
                let db2 :=
                  set_suggestions db1
                    (filter (λ ss : link, ss.1 ≠ id) (submission_suggestions db1)) in
                let db3 := deleteSubmissionRow id db2 in
                (logActivity now "submission_deleted" (usr_username user)
                   [("submission_id"%string, JNum id);
                    ("deleted_by_role"%string, JStr (roleText (usr_role user)))] db3,
                 Ok ())
          end
      end
  end.

End Submissions.

(** ** [routes/counsellor.js]: availability for counsellors *)

Module StaffAvailability.

Import Admin Auth.

(** A row of the two listings: available or not, and the conflicts. *)
Record staff_row := {
  sr_id : Z;
  sr_username : string;
  sr_full_name : string;
  sr_available : bool;
  sr_conflicts : list conflict
}.

(** The body of [counsellors.map(c => ...)] in both listings. *)
Definition staffRow (db : store) (start end_ : date) (excludeId : option Z)
           (c : counsellor) : staff_row :=
  let conflicts := conflictsQuery db (c_id c) start end_ excludeId in
  {| sr_id := c_id c; sr_username := c_username c; sr_full_name := c_full_name c;
     sr_available := (length conflicts =? 0)%nat;
     sr_conflicts := conflicts |}.

(** [GET /staff-availability]. *)
Definition staffAvailability (who : option user) (start end_ : option date)
           (db : store) : response (list staff_row) :=
  match requireAuth (Some RoleCounsellor) who with
  | Error code => Error code
  | Ok _ =>
      match start, end_ with
      | Some start, Some end_ =>
          Ok (map (staffRow db start end_ None) (activeCounsellors db))
      | _, _ => Error 400
      end
  end.

(** [GET /counsellors/availability-public], for admins and counsellors. *)
Definition availabilityPublic (who : option user) (start end_ : option date)
           (exclude_submission_id : option Z) (db : store)
  : response (list staff_row) :=
  match who with
  | None => Error 401
  | Some user =>
      if decide (usr_role user ≠ RoleAdmin ∧ usr_role user ≠ RoleCounsellor)
      then Error 403
      else
        match start, end_ with
        | Some start, Some end_ =>
            Ok (map (staffRow db start end_ exclude_submission_id)
                    (activeCounsellors db))
        | _, _ => Error 400
        end
  end.

End StaffAvailability.

(** ** [routes/admin.js]: reschedule, counsellor removal *)

Module Staffing.

Import Auth.

(** A date field of the body of [PUT /submissions/:id/reschedule]: missing
    (or another falsy value), a text that does not match
    [/^\d{4}-\d{2}-\d{2}$/], or the text of a calendar day.  A text that
    matches the pattern without naming a calendar day is not covered. *)
Inductive date_arg :=
  | DateMissing
  | DateMalformed
  | DateText (d : date).

Record reschedule_body := {
  rs_start_date : date_arg;
  rs_end_date : date_arg
}.

Definition rescheduled (now : Z) (start_date end_date : date) (s : submission)
  : submission :=
  {| s_id := s_id s; s_start_date := start_date; s_end_date := end_date;
     s_organizer := s_organizer s; s_organizer_id := s_organizer_id s;
     s_event_name_id := s_event_name_id s; s_event_type_id := s_event_type_id s;
     s_city := s_city s; s_country := s_country s;
     s_proposed_staffing := s_proposed_staffing s; s_remarks := s_remarks s;
     s_sent_by_counsellor_id := s_sent_by_counsellor_id s;
     s_payment_status := s_payment_status s;
     s_status := pending;
     s_event_status := ONGOING; s_submitted_by := s_submitted_by s;
     s_confirmed_at := s_confirmed_at s;
     s_created_at := s_created_at s;
     s_updated_at := now |}.

(** [PUT /submissions/:id/reschedule]. *)
Definition reschedule (now : Z) (who : option user) (id : option Z)
           (body : reschedule_body) (db : store) : store * response unit :=
  match requireAuth (Some RoleAdmin) who with
  | Error code => (db, Error code)
  | Ok _ =>
      match id with
      | None => (db, Error 400)
      | Some id =>
          match rs_start_date body, rs_end_date body with
          | DateText start_date, DateText end_date =>
              if start_date >? end_date then (db, Error 400)
              else
                match find_submission db id with
                | None => (db, Error 404)
                | Some _ =>
                    (set_submissions db
                       (updateWhereId id (rescheduled now start_date end_date)
                                      (submissions db))
                       (submissions_seq db),
                     Ok ())
                end
          | _, _ => (db, Error 400)
          end
      end
  end.

Definition unlinkSender (s : submission) : submission :=
  {| s_id := s_id s; s_start_date := s_start_date s; s_end_date := s_end_date s;
     s_organizer := s_organizer s; s_organizer_id := s_organizer_id s;
     s_event_name_id := s_event_name_id s; s_event_type_id := s_event_type_id s;
     s_city := s_city s; s_country := s_country s;
     s_proposed_staffing := s_proposed_staffing s; s_remarks := s_remarks s;
     s_sent_by_counsellor_id := None;
     s_payment_status := s_payment_status s;
     s_status := s_status s;
     s_event_status := s_event_status s; s_submitted_by := s_submitted_by s;
     s_confirmed_at := s_confirmed_at s;
     s_created_at := s_created_at s;
     s_updated_at := s_updated_at s |}.

(** [DELETE /counsellors/:id]: the assignments and suggestions of the
    counsellor go, the submissions sent by them are unlinked, then the
    account is deleted.  (The table [country_counsellor_suggestions], which
    the last statement cascades to, is not part of the store here.) *)
Definition deleteCounsellor (who : option user) (id : option Z) (db : store)
  : store * response unit :=
  match requireAuth (Some RoleAdmin) who with
  | Error code => (db, Error code)
  | Ok _ =>
      match id with
      | None => (db, Error 400)
      | Some id =>
          match List.find (λ c, bool_decide (c_id c = id)) (counsellors db) with
          | None => (db, Error 404)
          | Some info =>
              if decide (c_username info = "admin"%string) then (db, Error 403)
              else
                let db1 :=
                  set_assignments db
                    (filter (λ sa : link, sa.2 ≠ id) (submission_assignments db)) in
                let db2 :=
                  set_suggestions db1
                    (filter (λ ss : link, ss.2 ≠ id) (submission_suggestions db1)) in
                let db3 :=
                  set_submissions db2
                    (map (λ s, if decide (s_sent_by_counsellor_id s = Some id)
                               then unlinkSender s else s)
                         (submissions db2))
                    (submissions_seq db2) in
                (set_counsellors db3 (filter (λ c, c_id c ≠ id) (counsellors db3)),
                 Ok ())
          end
      end
  end.

End Staffing.


(** ** [routes/notifications.js] *)

Module Inbox.

Import Auth.

(** The store with the column [read_at] of [notifications], kept beside
    the rows by notification id. *)
Record inbox := {
  ib_db : store;
  ib_read_at : gmap Z Z
}.

(** [target_role = ? OR target_role = 'all' OR target_user = ?] for the
    role and name of the user. *)
Definition visible (u : user) (n : notification) : Prop :=
  n_target_role n = roleText (usr_role u)
  ∨ n_target_role n = "all"%string
  ∨ n_target_user n = Some (usr_username u).

#[global] Instance visible_dec u n : Decision (visible u n).
Proof. unfold visible. apply _. Defined.

Definition setStatus (status : notif_status) (n : notification) : notification :=
  {| n_id := n_id n; n_type := n_type n; n_priority := n_priority n;
     n_title := n_title n; n_message := n_message n; n_metadata := n_metadata n;
     n_target_role := n_target_role n; n_target_user := n_target_user n;
     n_status := status;
     n_related_submission_id := n_related_submission_id n;
     n_created_at := n_created_at n |}.

(** [UPDATE notifications SET status = ?, read_at = datetime('now')
    WHERE P]. *)
Definition markWhere (now : Z) (status : notif_status) (P : notification → Prop)
           `{∀ n, Decision (P n)} (ib : inbox) : inbox :=
  {| ib_db :=
       set_notifications (ib_db ib)
         (map (λ n, if decide (P n) then setStatus status n else n)
              (notifications (ib_db ib)))
         (notifications_seq (ib_db ib));
     ib_read_at :=
       foldr (λ n m, if decide (P n) then <[n_id n := now]> m else m)
             (ib_read_at ib) (notifications (ib_db ib)) |}.

(** [DELETE FROM notifications WHERE P]. *)
Definition deleteWhere (P : notification → Prop) `{∀ n, Decision (P n)}
           (ib : inbox) : inbox :=
  {| ib_db :=
       set_notifications (ib_db ib)
         (filter (λ n, ¬ P n) (notifications (ib_db ib)))
         (notifications_seq (ib_db ib));
     ib_read_at :=
       foldr (λ n m, if decide (P n) then delete (n_id n) m else m)
             (ib_read_at ib) (notifications (ib_db ib)) |}.

(** The check the routes on one notification start with: the notification
    of that id, when it is addressed to the user.  [id] is [None] when the
    path parameter is not the text of an integer. *)
Definition ownNotification (u : user) (id : option Z) (ib : inbox)
  : option notification :=
  id ← id;
  List.find (λ n, bool_decide (n_id n = id ∧ visible u n))
            (notifications (ib_db ib)).

(** [PUT /notifications/:id/read] and [PUT /notifications/:id/dismiss]:
    the two routes differ in the status they set. *)
Definition markOne (status : notif_status) (now : Z) (who : option user)
           (id : option Z) (ib : inbox) : inbox * response unit :=
  match requireAuth None who with
  | Error code => (ib, Error code)
  | Ok user =>
      match ownNotification user id ib with
      | None => (ib, Error 404)
      | Some n => (markWhere now status (λ m, n_id m = n_id n) ib, Ok ())
      end
  end.

Definition markRead := markOne read.
Definition dismissNotification := markOne dismissed.

(** [DELETE /notifications/:id]. *)
Definition deleteNotification (who : option user) (id : option Z) (ib : inbox)
  : inbox * response unit :=
  match requireAuth None who with
  | Error code => (ib, Error code)
  | Ok user =>
      match ownNotification user id ib with
      | None => (ib, Error 404)
      | Some n => (deleteWhere (λ m, n_id m = n_id n) ib, Ok ())
      end
  end.

(** [POST /notifications/mark-all-read]. *)
Definition markAllRead (now : Z) (who : option user) (ib : inbox)
  : inbox * response unit :=
  match requireAuth None who with
  | Error code => (ib, Error code)
  | Ok user =>
      (markWhere now read (λ n, visible user n ∧ n_status n = unread) ib, Ok ())
  end.

(** The handler registered for [DELETE /notifications/clear-read]; the
    answer is the number of rows deleted. *)
Definition clearReadHandler (who : option user) (ib : inbox) : inbox * response Z :=
  match requireAuth None who with
  | Error code => (ib, Error code)
  | Ok user =>
      let P := λ n, visible user n ∧ (n_status n = read ∨ n_status n = dismissed) in
      (deleteWhere P ib, Ok (NotificationEngine.count P (notifications (ib_db ib))))
  end.

(** *** The [DELETE] routes of the router

    A request is served by the first route registered for its method whose
    path matches: the handler answers and does not pass the request on.  A
    path is the list of its segments below [/api]; a literal segment is
    matched without regard to case and a parameter matches any segment. *)
Inductive segment :=
  | Lit (text : string)
  | Par.

Inductive delete_route := DeleteById | DeleteClearRead.

(** [router.delete] in the order of the file: [/notifications/:id] comes
    before [/notifications/clear-read]. *)
Definition deleteRoutes : list (list segment * delete_route) :=
  [ ([Lit "notifications"; Par], DeleteById);
    ([Lit "notifications"; Lit "clear-read"], DeleteClearRead) ].

(** The parameters a path gives a pattern it matches. *)
Fixpoint matchPath (pattern : list segment) (path : list string)
  : option (list string) :=
  match pattern, path with
  | [], [] => Some []
  | Lit text :: pattern', seg :: path' =>
      if bool_decide (toLowerCase seg = toLowerCase text)
      then matchPath pattern' path' else None
  | Par :: pattern', seg :: path' =>
      if bool_decide (seg = EmptyString) then None
      else cons seg <$> matchPath pattern' path'
  | _, _ => None
  end.

(** The first route that matches, with its parameters. *)
Fixpoint dispatch {A} (routes : list (list segment * A)) (path : list string)
  : option (A * list string) :=
  match routes with
  | [] => None
  | (pattern, route) :: routes' =>
      match matchPath pattern path with
      | Some params => Some (route, params)
      | None => dispatch routes' path
      end
  end.

(** The exponent part of a numeric literal and the text after it: [e] or
    [E], a sign, and at least one digit; exponent 0 when the text does not
    start with [e]. *)
Definition exponentOf (s : string) : option (Z * string) :=
  match s with
  | String "e" r | String "E" r =>
      let '(sign, r') := Num.signPrefix r in
      let '(v, count, rest) := Num.digitsPrefix r' 0 0 in
      match count with O => None | _ => Some (sign * v, rest) end
  | _ => Some (0, s)
  end.

(** The integer a text parameter stands for in [WHERE id = ?].  The column
    is an INTEGER: a text that is a numeric literal (spaces around it
    allowed) is compared as that number, and equals an id when the number is
    that integer; any other text is compared as a text and equals no id.
    The value of a literal is exact here; SQLite reads a literal with a
    fraction or an exponent as the nearest double. *)
Definition idOfText (s : string) : option Z :=
  let '(sign, r) := Num.signPrefix (Num.skipSpaces s) in
  let '(v, count, r1) := Num.digitsPrefix r 0 0 in
  let '(v', count', r2) :=
    match r1 with
    | String "." frac => Num.digitsPrefix frac v 0
    | _ => (v, O, r1)
    end in
  match (count + count')%nat with
  | O => None
  | _ =>
      match exponentOf r2 with
      | Some (e, r3) =>
          let d := Num.scaled (sign * v') count' e in
          let unit := 10 ^ Z.of_nat (Num.decimals d) in
          if bool_decide (Num.skipSpaces r3 = EmptyString)
             && (Num.mantissa d mod unit =? 0)
          then Some (Num.mantissa d / unit) else None
      | None => None
      end
  end.

(** A [DELETE] request for [path].  The body of the answer is the number of
    deleted rows when the answer carries one. *)
Definition deleteRequest (who : option user) (path : list string) (ib : inbox)
  : inbox * response (option Z) :=
  match dispatch deleteRoutes path with
  | Some (DeleteById, [id]) =>
      match deleteNotification who (idOfText id) ib with
      | (ib', Ok _) => (ib', Ok None)
      | (ib', Error code) => (ib', Error code)
      end
  | Some (DeleteClearRead, _) =>
      match clearReadHandler who ib with
      | (ib', Ok deleted) => (ib', Ok (Some deleted))
      | (ib', Error code) => (ib', Error code)
      end
  | _ => (ib, Error 404)
  end.

(** [DELETE /notifications/clear-read], the request the page sends to clear
    the read notifications. *)
Definition clearRead (who : option user) (ib : inbox) : inbox * response (option Z) :=
  deleteRequest who ["notifications"; "clear-read"]%string ib.

(** [String(value)] for a value of the settings object.  A number is an
    integer a double holds exactly and smaller than 10^21 in size, which
    [String] writes with all its digits; other numbers are outside the
    values of [json]. *)
Definition jsonString (v : json) : string :=
  match v with
  | JNull => "null"
  | JBool true => "true"
  | JBool false => "false"
  | JNum n => Num.showZ n
  | JStr s => s
  | JNums l => join "," (map Num.showZ l)
  | JStrs l => join "," l
  end.

(** [UPDATE notification_settings SET setting_value = ? WHERE setting_key
    = ?]: a key that is not in the table matches no row. *)
Definition updateSetting (m : gmap string string) (entry : string * json)
  : gmap string string :=
  match m !! entry.1 with
  | Some _ => <[entry.1 := jsonString entry.2]> m
  | None => m
  end.

(** [PUT /notifications/settings]; [settings] is [None] when the body
    holds no object, else the entries of the object in order. *)
Definition putSettings (who : option user) (settings : option (list (string * json)))
           (db : store) : store * response unit :=
  match requireAuth (Some RoleAdmin) who with
  | Error code => (db, Error code)
  | Ok _ =>
      match settings with
      | None => (db, Error 400)
      | Some entries =>
          (set_settings db (foldl updateSetting (notification_settings db) entries),
           Ok ())
      end
  end.

(** [SELECT metadata FROM notifications WHERE id = ? AND type =
    'duplicate_detected']. *)
Definition duplicateNotification (id : option Z) (ib : inbox) : option notification :=
  id ← id;
  List.find (λ n, bool_decide (n_id n = id ∧ n_type n = duplicate_detected))
            (notifications (ib_db ib)).

(** [POST /duplicates/:id/dismiss].  [INSERT OR IGNORE] skips a pair that
    is already recorded in that order.  A notification whose metadata does
    not hold the two submission ids makes the handler throw before it
    writes. *)
Definition dismissDuplicate (now : Z) (who : option user) (id : option Z)
           (ib : inbox) : inbox * response unit :=
  match requireAuth (Some RoleAdmin) who with
  | Error code => (ib, Error code)
  | Ok user =>
      match duplicateNotification id ib with
      | None => (ib, Error 404)
      | Some n =>
          match n_metadata n with
          | Some (MetaDuplicate new_submission_id existing_submission_id _ _) =>
              let pair := (new_submission_id, existing_submission_id) in
              let db := ib_db ib in
              let db1 :=
                if decide (pair ∈ duplicate_dismissals db) then db
                else set_dismissals db (duplicate_dismissals db ++ [pair]) in
              (markWhere now dismissed (λ m, n_id m = n_id n)
                         {| ib_db := db1; ib_read_at := ib_read_at ib |},
               Ok ())
          | _ => (ib, Error 500)
          end
      end
  end.

(** [POST /duplicates/:id/merge]; [keepSubmissionId] is the number of the
    body, [None] when the body has none. *)
Definition mergeDuplicates (now : Z) (who : option user) (id : option Z)
           (keepSubmissionId : option Z) (ib : inbox) : inbox * response Z :=
  match requireAuth (Some RoleAdmin) who with
  | Error code => (ib, Error code)
  | Ok user =>
      match duplicateNotification id ib with
      | None => (ib, Error 404)
      | Some n =>
          match n_metadata n with
          | Some (MetaDuplicate new_submission_id existing_submission_id _ _) =>
              let deleteId :=
                if decide (keepSubmissionId = Some existing_submission_id)
                then new_submission_id else existing_submission_id in
              let ib1 :=
                {| ib_db := deleteSubmissionRow deleteId (ib_db ib);
                   ib_read_at := ib_read_at ib |} in
              let ib2 := markWhere now actioned (λ m, n_id m = n_id n) ib1 in
              let details :=
                match keepSubmissionId with
                | Some k => [("kept"%string, JNum k); ("deleted"%string, JNum deleteId)]
                | None => [("deleted"%string, JNum deleteId)]
                end in
              ({| ib_db := NotificationEngine.logActivity now "submission_merged"
                             (usr_username user) details (ib_db ib2);
                  ib_read_at := ib_read_at ib2 |},
               Ok deleteId)
          | _ => (ib, Error 500)
          end
      end
  end.

End Inbox.
(** * Specification side

    The notions the properties below are stated with, in the words of the
    specification, and the sample data the properties are instantiated on. *)

Import Num Admin NotificationEngine Counsellor.

(** ** Availability *)

(** [d] is a busy day of counsellor [cid] for the window [qStart .. qEnd]:
    a requested day that lies in a confirmed submission the counsellor is
    assigned to, whose dates overlap the window, other than the excluded
    one. *)
Definition busyDay (db : store) (cid : Z) (qStart qEnd : date)
           (excludeId : option Z) (d : date) : Prop :=
  qStart ≤ d ≤ qEnd
  ∧ ∃ s, s ∈ submissions db ∧ assigned db (s_id s) cid
         ∧ s_status s = confirmed
         ∧ excludeId ≠ Some (s_id s)
         ∧ ¬ (s_end_date s < qStart ∨ qEnd < s_start_date s)
         ∧ s_start_date s ≤ d ≤ s_end_date s.

(** [d] lies in one of the runs (first, last) of a range list. *)
Definition covered (runs : list (date * date)) (d : date) : Prop :=
  ∃ run, run ∈ runs ∧ run.1 ≤ d ≤ run.2.

(** The runs are maximal runs in ascending order: each is first <= last
    and the next one starts at least two days after the previous one ends. *)
Fixpoint separated (runs : list (date * date)) : Prop :=
  match runs with
  | [] => True
  | run :: rest =>
      run.1 ≤ run.2
      ∧ match rest with
        | [] => True
        | next :: _ => run.2 + 1 < next.1
        end
      ∧ separated rest
  end.

(** A zone without clock change: local time is at one offset from UTC
    throughout, as it is for a process in UTC. *)
Definition steady (tz : zone) : Prop :=
  ∃ offset, ∀ t, tza_utc tz t = offset ∧ tza_local tz t = offset.

(** The busy set the handler computes for a counsellor id. *)
Definition busySetFor (tz : zone) (db : store) (cid : Z) (qs qe : date)
           (ex : option Z) : gset date :=
  busySetOf tz (list_to_set (getDatesInRange tz qs qe))
            (conflictsQuery db cid qs qe ex).

(** The store without the submissions that are not confirmed. *)
Definition confirmedOnly (db : store) : store :=
  set_submissions db (filter (λ s, s_status s = confirmed) (submissions db))
                  (submissions_seq db).

(** ** Frames *)

(** Two stores that differ at most in their notifications. *)
Definition same_but_notifications (db db' : store) : Prop :=
  counsellors db' = counsellors db
  ∧ organizers db' = organizers db
  ∧ event_names db' = event_names db
  ∧ event_types db' = event_types db
  ∧ submissions db' = submissions db
  ∧ submissions_seq db' = submissions_seq db
  ∧ submission_assignments db' = submission_assignments db
  ∧ submission_suggestions db' = submission_suggestions db
  ∧ notification_settings db' = notification_settings db
  ∧ duplicate_dismissals db' = duplicate_dismissals db
  ∧ activity_log db' = activity_log db.

(** Two stores with the same preset tables. *)
Definition same_presets (db db' : store) : Prop :=
  organizers db' = organizers db ∧ event_names db' = event_names db
  ∧ event_types db' = event_types db.

(** ** Staffing state machine *)

(** The event status a metadata update asks for: the text of the body in
    upper case, when it is one of the four allowed. *)
Definition requestedStatus (body : meta_body) : option event_status :=
  v ← mb_event_status body; allowedStatus (toUpperCase v).

(** ** Detection jobs *)

(** A submission counted in the workload of a counsellor: confirmed,
    neither completed nor cancelled, starting today or within 30 days. *)
Definition countedFor (db : store) (today : date) (c : counsellor)
           (s : submission) : Prop :=
  s ∈ submissions db ∧ assigned db (s_id s) (c_id c)
  ∧ s_status s = confirmed
  ∧ s_event_status s ≠ COMPLETED ∧ s_event_status s ≠ CANCELLED
  ∧ today ≤ s_start_date s ≤ today + 30.

(** The notification [raiseOverload] asks [createNotification] for. *)
Definition overloadNotification (id now : Z) (threshold : option Z)
           (row : overload_row) : notification :=
  new_notification id now staffing_warning
    (overloadPriority threshold (o_event_count row))
    "Counsellor workload alert" (overloadMessage row)
    (Some (MetaOverload (o_id row) (o_event_count row)))
    "admin" None None.

(** The weekly-report notifications of a store. *)
Definition weeklyReports (db : store) : list notification :=
  filter (λ n, n_type n = weekly_report) (notifications db).

(** Weekly-report generation run once at each of the instants [nows]. *)
Definition runWeekly (force : bool) (db : store) (nows : list Z) : store :=
  foldl (λ db now, fst (generateWeeklyReport now force db)) db nows.

(** A duplicate notification about the pair: new submission [x], existing
    submission [y]. *)
Definition aboutPair (x y : Z) (n : notification) : Prop :=
  ∃ score factors, n_metadata n = Some (MetaDuplicate x y score factors).

(** A candidate of the duplicate check of [newSub]: another submission,
    not cancelled, in the same country or with overlapping dates. *)
Definition rival (newSub s : submission) : Prop :=
  s_id s ≠ s_id newSub
  ∧ s_event_status s ≠ CANCELLED
  ∧ (s_country s = s_country newSub
     ∨ (s_start_date s ≤ s_end_date newSub ∧ s_start_date newSub ≤ s_end_date s)).

#[global] Instance rival_dec newSub s : Decision (rival newSub s).
Proof. unfold rival. apply _. Defined.

(** A candidate of the check of [newSub] that is as recent as [s1] or more
    recent. *)
Definition ahead (newSub s1 s : submission) : Prop :=
  rival newSub s ∧ s_created_at s1 ≤ s_created_at s.

#[global] Instance ahead_dec newSub s1 s : Decision (ahead newSub s1 s).
Proof. unfold ahead. apply _. Defined.

(** The submission S1 of the scenario. *)
Definition isS1 (s : submission) : Prop :=
  s_organizer_id s = Some 5 ∧ s_country s = "FR"%string ∧ s_city s = "Paris"%string
  ∧ s_start_date s = fromYMD 2026 1 10 ∧ s_end_date s = fromYMD 2026 1 12.

(** The submission S2 of the scenario. *)
Definition isS2 (s : submission) : Prop :=
  s_organizer_id s = Some 5 ∧ s_country s = "FR"%string ∧ s_city s = "Paris"%string
  ∧ s_start_date s = fromYMD 2026 1 11 ∧ s_end_date s = fromYMD 2026 1 15.

(** ** Batch creation *)

(** A text field that is present: neither missing nor empty. *)
Definition presentText (x : option string) : Prop :=
  ∃ v, x = Some v ∧ v ≠ EmptyString.

(** A preset id that is present: neither missing nor zero. *)
Definition presentId (x : option Z) : Prop := ∃ v, x = Some v ∧ v ≠ 0.

(** Every required field of the event is there. *)
Definition complete (e : event_body) : Prop :=
  is_Some (e_start_date e) ∧ is_Some (e_end_date e)
  ∧ presentId (e_organizer_id e) ∧ presentId (e_event_name_id e)
  ∧ presentId (e_event_type_id e)
  ∧ presentText (e_city e) ∧ presentText (e_country e).

(** The event does not end before it starts. *)
Definition ordered (e : event_body) : Prop :=
  ∀ a b, e_start_date e = Some a → e_end_date e = Some b → a ≤ b.

(** The id names a row of the preset table. *)
Definition knownPreset (t : list preset) (x : option Z) : Prop :=
  ∃ v p, x = Some v ∧ p ∈ t ∧ p_id p = v.

(** Organizer, event name and event type of the event are known presets. *)
Definition knownPresets (db : store) (e : event_body) : Prop :=
  knownPreset (organizers db) (e_organizer_id e)
  ∧ knownPreset (event_names db) (e_event_name_id e)
  ∧ knownPreset (event_types db) (e_event_type_id e).

(** An event that passes validation. *)
Definition validEvent (db : store) (e : event_body) : Prop :=
  complete e ∧ ordered e ∧ knownPresets db e.

(** Why an event is rejected, by the error reported. *)
Definition rejection (db : store) (e : event_body) (err : batch_error) : Prop :=
  match err with
  | MissingRequiredFields => ¬ complete e
  | EndBeforeStart => complete e ∧ ¬ ordered e
  | InvalidPresetSelection => complete e ∧ ordered e ∧ ¬ knownPresets db e
  end.

(** The submission a counsellor's event is stored as. *)
Definition createdFrom (username : string) (e : event_body) (s : submission) : Prop :=
  s_status s = pending ∧ s_event_status s = ONGOING
  ∧ s_submitted_by s = username
  ∧ e_start_date e = Some (s_start_date s) ∧ e_end_date e = Some (s_end_date s)
  ∧ e_city e = Some (s_city s) ∧ e_country e = Some (s_country s)
  ∧ e_organizer_id e = s_organizer_id s
  ∧ e_event_name_id e = s_event_name_id s
  ∧ e_event_type_id e = s_event_type_id s.

(** ** Sample data *)

(** Three active counsellors. *)
Definition counsellorA : counsellor :=
  {| c_id := 1; c_username := "alice"; c_full_name := "Alice Martin";
     c_is_active := true |}.
Definition counsellorB : counsellor :=
  {| c_id := 2; c_username := "bob"; c_full_name := "Bob Durand";
     c_is_active := true |}.
Definition counsellorC : counsellor :=
  {| c_id := 3; c_username := "carol"; c_full_name := "Carol Petit";
     c_is_active := true |}.

(** A submission as a counsellor creates it. *)
Definition sampleSubmission (id : Z) (start_date end_date : date)
           (organizer_id : Z) (city country : string) (created_at : Z)
  : submission :=
  {| s_id := id; s_start_date := start_date; s_end_date := end_date;
     s_organizer := "Campus France | Study Fair | Fair";
     s_organizer_id := Some organizer_id;
     s_event_name_id := Some 1; s_event_type_id := Some 1;
     s_city := city; s_country := country;
     s_proposed_staffing := None; s_remarks := None;
     s_sent_by_counsellor_id := None; s_payment_status := UNPAID;
     s_status := pending; s_event_status := ONGOING;
     s_submitted_by := "alice"; s_confirmed_at := None;
     s_created_at := created_at; s_updated_at := created_at |}.

(** The settings [schema.sql] inserts. *)
Definition defaultSettings : gmap string string :=
  list_to_map
    [("event_reminder_enabled", "true"); ("event_reminder_days", "[30, 14, 7, 3, 1]");
     ("duplicate_detection_enabled", "true"); ("duplicate_threshold", "0.7");
     ("staffing_warning_enabled", "true"); ("counsellor_overload_threshold", "5");
     ("anomaly_detection_enabled", "true"); ("weekly_report_enabled", "true");
     ("weekly_report_day", "1")]%string.

(** The two submissions of the duplicate scenario. *)
Definition S1 : submission :=
  sampleSubmission 1 (fromYMD 2026 1 10) (fromYMD 2026 1 12) 5 "Paris" "FR" 1767000000.
Definition S2 : submission :=
  sampleSubmission 2 (fromYMD 2026 1 11) (fromYMD 2026 1 15) 5 "Paris" "FR" 1767086400.

(** The three counsellors, the two submissions, the default settings. *)
Definition sampleStore : store :=
  {| counsellors := [counsellorA; counsellorB; counsellorC];
     organizers := [{| p_id := 5; p_name := "Campus France" |}];
     event_names := [{| p_id := 1; p_name := "Study Fair" |}];
     event_types := [{| p_id := 1; p_name := "Fair" |}];
     submissions := [S1; S2]; submissions_seq := 2;
     submission_assignments := []; submission_suggestions := [];
     notifications := []; notifications_seq := 0;
     notification_settings := defaultSettings;
     duplicate_dismissals := []; activity_log := [] |}.

(** 2026-01-02 08:00:00 UTC. *)
Definition sampleNow : Z := fromYMD 2026 1 2 * 86400 + 8 * 3600.

(** The zone Europe/Paris during 2026: one hour ahead of UTC, two hours
    from 2026-03-29 01:00 UTC to 2026-10-25 01:00 UTC.  The local times
    between 02:00 and 03:00 of 2026-03-29 do not exist and those of
    2026-10-25 occur twice; both are read with the offset before the
    change. *)
Definition summerStart : Z := (fromYMD 2026 3 29 * 86400 + 3600) * 1000.
Definition summerEnd : Z := (fromYMD 2026 10 25 * 86400 + 3600) * 1000.

Definition paris2026 : zone :=
  {| tza_utc := λ t,
       if (summerStart <=? t) && (t <? summerEnd) then 7200000 else 3600000;
     tza_local := λ t,
       if (summerStart + 7200000 <=? t) && (t <? summerEnd + 7200000)
       then 7200000 else 3600000;
     tza_slow := λ t, ltac:(cbv beta; repeat case_match; lia) |}.

(** The window from 2026-03-28 to 2026-03-31; the clocks of Europe/Paris
    go forward within it. *)
Definition marchStart : date := fromYMD 2026 3 28.
Definition marchEnd : date := fromYMD 2026 3 31.

(** A store for the last days of March 2026: counsellor 1 is confirmed on
    an event from 2026-03-28 to 2026-03-31, counsellor 2 on an event on
    2026-03-28, counsellor 3 on none. *)
Definition marchStore : store :=
  {| counsellors := [counsellorA; counsellorB; counsellorC];
     organizers := [{| p_id := 5; p_name := "Campus France" |}];
     event_names := [{| p_id := 1; p_name := "Study Fair" |}];
     event_types := [{| p_id := 1; p_name := "Fair" |}];
     submissions :=
       [Admin.confirm 1767000000
          (sampleSubmission 1 (fromYMD 2026 3 28) (fromYMD 2026 3 31) 5 "Lyon" "FR"
                            1767000000);
        Admin.confirm 1767000000
          (sampleSubmission 2 (fromYMD 2026 3 28) (fromYMD 2026 3 28) 5 "Nice" "FR"
                            1767000000)];
     submissions_seq := 2;
     submission_assignments := [(1, 1); (2, 2)]; submission_suggestions := [];
     notifications := []; notifications_seq := 0;
     notification_settings := defaultSettings;
     duplicate_dismissals := []; activity_log := [] |}.

(** The sample store after [S1] was finalized with counsellors 1 and 2. *)
Definition staffedStore : store :=
  fst (finalize sampleNow "admin" (Some 1) (Some [1; 2]) sampleStore).

(** Cancel the event and attribute it to a counsellor that does not exist. *)
Definition cancelWithUnknownSender : meta_body :=
  {| mb_sent_by_counsellor_id := SentNumber 999;
     mb_payment_status := None;
     mb_event_status := Some "CANCELLED"%string;
     mb_remarks := None |}.

(** An edit that moves the event of [S1] by one week. *)
Definition sampleEdit : update_body :=
  {| u_start_date := Some (fromYMD 2026 1 17);
     u_end_date := Some (fromYMD 2026 1 19);
     u_organizer := Some "Campus France | Study Fair | Fair"%string;
     u_city := Some "Paris"%string; u_country := Some "FR"%string;
     u_proposed_staffing := None; u_remarks := Some "moved"%string;
     u_suggested_ids := [3] |}.

(** Seven confirmed events of counsellor 1 in the coming days. *)
Definition busyStore : store :=
  {| counsellors := [counsellorA; counsellorB];
     organizers := []; event_names := []; event_types := [];
     submissions :=
       map (λ i, Admin.confirm 1767000000
                   (sampleSubmission i (fromYMD 2026 1 (10 + i)) (fromYMD 2026 1 (10 + i))
                                     5 "Lyon" "FR" 1767000000))
           [1; 2; 3; 4; 5; 6; 7];
     submissions_seq := 7;
     submission_assignments := map (λ i, (i, 1)) [1; 2; 3; 4; 5; 6; 7];
     submission_suggestions := [];
     notifications := []; notifications_seq := 0;
     notification_settings := defaultSettings;
     duplicate_dismissals := []; activity_log := [] |}.

(** The same store with one setting changed. *)
Definition busyStoreWith (key value : string) : store :=
  set_settings busyStore (<[key := value]> (notification_settings busyStore)).

(** The sample store with weekly reports switched off. *)
Definition quietStore : store :=
  {| counsellors := counsellors sampleStore;
     organizers := organizers sampleStore;
     event_names := event_names sampleStore;
     event_types := event_types sampleStore;
     submissions := submissions sampleStore;
     submissions_seq := submissions_seq sampleStore;
     submission_assignments := []; submission_suggestions := [];
     notifications := []; notifications_seq := 0;
     notification_settings := <["weekly_report_enabled"%string := "false"%string]> defaultSettings;
     duplicate_dismissals := []; activity_log := [] |}.

(** The sample store after an admin cancelled S1. *)
Definition cancelBody : meta_body :=
  {| mb_sent_by_counsellor_id := SentUndefined;
     mb_payment_status := None;
     mb_event_status := Some "cancelled"%string;
     mb_remarks := None |}.

Definition cancelledScenario : store :=
  fst (updateMeta sampleNow "admin" (Some 1) cancelBody sampleStore).

(** A store where fifty events in France, in May 2026, were created after
    S1 and before the submission of the dates of S2, which is the last one
    created. *)
Definition lateS2 (id : Z) : submission :=
  sampleSubmission id (fromYMD 2026 1 11) (fromYMD 2026 1 15) 5 "Paris" "FR" 1767086400.

Definition crowdedScenario : store :=
  set_submissions sampleStore
    ([S1]
     ++ map (λ i, sampleSubmission (1 + i) (fromYMD 2026 5 1) (fromYMD 2026 5 2) 6
                                   "Lyon" "FR" (1767000000 + i))
            (seqZ 1 50)
     ++ [lateS2 52])
    52.

(** A store where the submission of the dates of S2 was sent twice: the
    second copy is the last one created. *)
Definition tripleScenario : store :=
  set_submissions sampleStore
    [S1;
     sampleSubmission 2 (fromYMD 2026 1 11) (fromYMD 2026 1 15) 5 "Paris" "FR"
                      1767050000;
     lateS2 3]
    3.

(** The sample store with duplicate detection switched off. *)
Definition silentScenario : store :=
  set_settings sampleStore
    (<["duplicate_detection_enabled"%string := "false"%string]>
       (notification_settings sampleStore)).

(** The sample store after an admin dismissed the pair (2, 1). *)
Definition dismissedStore : store :=
  {| counsellors := counsellors sampleStore;
     organizers := organizers sampleStore;
     event_names := event_names sampleStore;
     event_types := event_types sampleStore;
     submissions := submissions sampleStore;
     submissions_seq := submissions_seq sampleStore;
     submission_assignments := []; submission_suggestions := [];
     notifications := []; notifications_seq := 0;
     notification_settings := defaultSettings;
     duplicate_dismissals := [(2, 1)]; activity_log := [] |}.

(** A valid event, an event that ends before it starts, an event with an
    unknown organizer and a second valid event. *)
Definition sampleEvents : list event_body :=
  [ {| e_start_date := Some (fromYMD 2026 3 1); e_end_date := Some (fromYMD 2026 3 3);
       e_organizer_id := Some 5; e_event_name_id := Some 1; e_event_type_id := Some 1;
       e_city := Some "Lyon"%string; e_country := Some "FR"%string;
       e_proposed_staffing := None; e_remarks := None |};
    {| e_start_date := Some (fromYMD 2026 3 9); e_end_date := Some (fromYMD 2026 3 8);
       e_organizer_id := Some 5; e_event_name_id := Some 1; e_event_type_id := Some 1;
       e_city := Some "Nice"%string; e_country := Some "FR"%string;
       e_proposed_staffing := None; e_remarks := None |};
    {| e_start_date := Some (fromYMD 2026 4 1); e_end_date := Some (fromYMD 2026 4 2);
       e_organizer_id := Some 6; e_event_name_id := Some 1; e_event_type_id := Some 1;
       e_city := Some "Rome"%string; e_country := Some "IT"%string;
       e_proposed_staffing := None; e_remarks := None |};
    {| e_start_date := Some (fromYMD 2026 5 1); e_end_date := Some (fromYMD 2026 5 1);
       e_organizer_id := Some 5; e_event_name_id := Some 1; e_event_type_id := Some 1;
       e_city := Some "Turin"%string; e_country := Some "IT"%string;
       e_proposed_staffing := Some "two"%string; e_remarks := None |} ].


(** ** Further notions of the specification side *)

Import Auth Reminders Submissions StaffAvailability Staffing Inbox.

(** The edit distance by its recurrence, both texts read from their first
    character. *)
Fixpoint editDistance (s : string) : string → nat :=
  fix go (t : string) : nat :=
    match s, t with
    | EmptyString, _ => String.length t
    | _, EmptyString => String.length s
    | String a s', String b t' =>
        if Ascii.eqb a b then editDistance s' t'
        else S (Nat.min (editDistance s' t) (Nat.min (go t') (editDistance s' t')))
    end.

(** The entries [dp[i][j+1..n]] of a row of the table of
    [levenshteinDistance]: [R] is the prefix of [str1] the row stands for and
    [acc] the prefix of [str2] already passed, both read backwards. *)
Fixpoint tableRow (R acc rem : string) : list nat :=
  match rem with
  | EmptyString => []
  | String c rem' => editDistance R (String c acc) :: tableRow R (String c acc) rem'
  end.

(** An event the reminder job has to report at the instant [now]: neither
    completed nor cancelled, starting in a number of days that is one of the
    reminder days and lies between 0 and 30, and pending or without
    staff. *)
Definition dueReminder (db : store) (now : Z) (reminderDays : list Z)
           (s : submission) : Prop :=
  s ∈ submissions db
  ∧ s_event_status s ≠ COMPLETED ∧ s_event_status s ≠ CANCELLED
  ∧ s_start_date s - date_of now ∈ reminderDays
  ∧ 0 ≤ s_start_date s - date_of now ≤ 30
  ∧ (s_status s = pending ∨ ∀ c, ¬ assigned db (s_id s) c).

(** The counsellor and admin accounts of the sample data. *)
Definition alice : user := {| usr_username := "alice"; usr_role := RoleCounsellor |}.
Definition bob : user := {| usr_username := "bob"; usr_role := RoleCounsellor |}.
Definition root : user := {| usr_username := "admin"; usr_role := RoleAdmin |}.

(** 2026-01-03 06:00:00 UTC, seven days before [S1] starts. *)
Definition reminderNow : Z := fromYMD 2026 1 3 * 86400 + 6 * 3600.

(** Postpone the event, and the new dates it is rescheduled to. *)
Definition postponeBody : meta_body :=
  {| mb_sent_by_counsellor_id := SentUndefined;
     mb_payment_status := None;
     mb_event_status := Some "postponed"%string;
     mb_remarks := None |}.

Definition rescheduleBody : reschedule_body :=
  {| rs_start_date := DateText (fromYMD 2026 2 10);
     rs_end_date := DateText (fromYMD 2026 2 12) |}.

(** ** The routes and jobs as one system *)

(** A request to one of the routes, or a run of one of the jobs. *)
Inductive request :=
  | CreateSubmission (who : option user) (body : create_body)
  | CreateBatch (username : string) (events : option (list event_body))
  | UpdateSubmission (username : string) (id : option Z) (body : update_body)
  | UpdateRemarks (who : option user) (id : option Z) (remarks : option string)
  | DeleteSubmission (who : option user) (id : option Z)
  | Finalize (username : string) (id : option Z) (counsellor_ids : option (list Z))
  | UpdateMeta (username : string) (id : option Z) (body : meta_body)
  | Reschedule (who : option user) (id : option Z) (body : reschedule_body)
  | DeleteCounsellor (who : option user) (id : option Z)
  | MarkRead (who : option user) (id : option Z)
  | DismissNotification (who : option user) (id : option Z)
  | DeleteNotification (who : option user) (id : option Z)
  | MarkAllRead (who : option user)
  | ClearRead (who : option user)
  | PutSettings (who : option user) (settings : option (list (string * json)))
  | DismissDuplicate (who : option user) (id : option Z)
  | MergeDuplicates (who : option user) (id : option Z) (keepSubmissionId : option Z)
  | RunOverloadCheck
  | RunWeeklyReport (force : bool).

(** A handler of the store, run on the store of an inbox. *)
Definition onStore {A} (handler : store → store * A) (ib : inbox) : inbox :=
  {| ib_db := fst (handler (ib_db ib)); ib_read_at := ib_read_at ib |}.

(** The state after the request was served at the instant [now]. *)
Definition serve (now : Z) (req : request) (ib : inbox) : inbox :=
  match req with
  | CreateSubmission who body => onStore (createSubmission now who body) ib
  | CreateBatch username events => onStore (createBatch now username events) ib
  | UpdateSubmission username id body =>
      onStore (updateSubmission now username id body) ib
  | UpdateRemarks who id remarks => onStore (updateRemarks now who id remarks) ib
  | DeleteSubmission who id => onStore (deleteSubmission now who id) ib
  | Finalize username id counsellor_ids =>
      onStore (finalize now username id counsellor_ids) ib
  | UpdateMeta username id body => onStore (updateMeta now username id body) ib
  | Reschedule who id body => onStore (reschedule now who id body) ib
  | DeleteCounsellor who id => onStore (deleteCounsellor who id) ib
  | MarkRead who id => fst (markRead now who id ib)
  | DismissNotification who id => fst (dismissNotification now who id ib)
  | DeleteNotification who id => fst (deleteNotification who id ib)
  | MarkAllRead who => fst (markAllRead now who ib)
  | ClearRead who => fst (clearRead who ib)
  | PutSettings who settings => onStore (putSettings who settings) ib
  | DismissDuplicate who id => fst (dismissDuplicate now who id ib)
  | MergeDuplicates who id keepSubmissionId =>
      fst (mergeDuplicates now who id keepSubmissionId ib)
  | RunOverloadCheck => onStore (checkCounsellorOverload now) ib
  | RunWeeklyReport force => onStore (generateWeeklyReport now force) ib
  end.

(** The state after a sequence of requests, each served at its instant. *)
Definition serveAll (requests : list (Z * request)) (ib : inbox) : inbox :=
  foldl (λ ib r, serve r.1 r.2 ib) ib requests.

(** No submission ends before it starts. *)
Definition datesOrdered (db : store) : Prop :=
  ∀ s, s ∈ submissions db → s_start_date s ≤ s_end_date s.

(** A submission that is not applicable (cancelled or postponed) has no
    staff. *)
Definition cancelledUnstaffed (db : store) : Prop :=
  ∀ s, s ∈ submissions db → s_status s = not_applicable →
       ∀ c, ¬ assigned db (s_id s) c.

(** A confirmed submission carries the time of its confirmation. *)
Definition confirmedStamped (db : store) : Prop :=
  ∀ s, s ∈ submissions db → s_status s = confirmed → is_Some (s_confirmed_at s).

(** How the submissions of [db'] come from those of [db] when one request
    was served: a row was written pending with ordered dates, or confirmed
    with its stamp, or made not applicable without staff, or kept with its
    dates, status and stamp and with no assignment gained. *)
Definition tracks (db db' : store) : Prop :=
  ∀ s', s' ∈ submissions db' →
    (s_start_date s' ≤ s_end_date s' ∧ s_status s' = pending)
    ∨ (∃ s, s ∈ submissions db
            ∧ s_start_date s' = s_start_date s ∧ s_end_date s' = s_end_date s
            ∧ ((s_status s' = confirmed ∧ is_Some (s_confirmed_at s'))
               ∨ (s_status s' = not_applicable ∧ ∀ c, ¬ assigned db' (s_id s') c)
               ∨ (s_id s' = s_id s ∧ s_status s' = s_status s
                  ∧ s_confirmed_at s' = s_confirmed_at s
                  ∧ ∀ c, assigned db' (s_id s') c → assigned db (s_id s') c))).

(** The store as the schema creates it, and its inbox. *)
Definition emptyStore : store :=
  {| counsellors := [counsellorA; counsellorB; counsellorC];
     organizers := [{| p_id := 5; p_name := "Campus France" |}];
     event_names := [{| p_id := 1; p_name := "Study Fair" |}];
     event_types := [{| p_id := 1; p_name := "Fair" |}];
     submissions := []; submissions_seq := 0;
     submission_assignments := []; submission_suggestions := [];
     notifications := []; notifications_seq := 0;
     notification_settings := defaultSettings;
     duplicate_dismissals := []; activity_log := [] |}.

Definition inboxOf (db : store) : inbox := {| ib_db := db; ib_read_at := ∅ |}.

(** A day of requests: alice submits an event, the admin staffs it,
    postpones it, reschedules it and staffs it again, then removes the
    account of counsellor 2 and runs the jobs. *)
Definition sampleDay : list (Z * request) :=
  [ (sampleNow,
     CreateSubmission (Some alice)
       {| cb_event :=
            {| e_start_date := Some (fromYMD 2026 3 1);
               e_end_date := Some (fromYMD 2026 3 3);
               e_organizer_id := Some 5; e_event_name_id := Some 1;
               e_event_type_id := Some 1;
               e_city := Some "Lyon"%string; e_country := Some "FR"%string;
               e_proposed_staffing := None; e_remarks := None |};
          cb_suggested_ids := [2] |});
    (sampleNow + 60, Finalize "admin" (Some 1) (Some [1; 2]));
    (sampleNow + 120, UpdateMeta "admin" (Some 1) postponeBody);
    (sampleNow + 180, Reschedule (Some root) (Some 1) rescheduleBody);
    (sampleNow + 240, Finalize "admin" (Some 1) (Some [2; 3]));
    (sampleNow + 300, DeleteCounsellor (Some root) (Some 2));
    (sampleNow + 360, RunOverloadCheck);
    (sampleNow + 420, RunWeeklyReport false) ].

(** ** The routes of the notifications *)

(** The requests of the routes a signed-in user has on their own
    notifications, made with the token [who]. *)
Definition personalRequest (who : option user) (req : request) : Prop :=
  match req with
  | MarkRead w _ | DismissNotification w _ | DeleteNotification w _
  | MarkAllRead w | ClearRead w => w = who
  | _ => False
  end.

(** The value a settings object gives a key, if it has the key; when the
    entries repeat a key, the last one. *)
Definition lastEntry (entries : list (string * json)) (key : string) : option json :=
  snd <$> last (filter (λ e, e.1 = key) entries).

(** The sample store after the duplicate check of [S2] flagged [S1], with a
    second notification addressed to everyone. *)
Definition flaggedInbox : inbox :=
  inboxOf
    (fst (createNotification (sampleNow + 60) staffing_warning low "Maintenance"
            "The system is down on Sunday." None "all" None None
            (fst (detectDuplicates sampleNow 2 sampleStore)))).
(** * Date ranges and availability *)

Section DateRanges.

Context (tz : zone).

(** The fuel of [getDatesInRange] is enough: with more fuel the loop lists
    the same days, so it has reached its exit test. *)
Lemma datesLoop_fuel (fuel more : nat) (cur end_ : Z) :
  (Z.to_nat ((end_ - cur) / 43200000 + 1) ≤ fuel)%nat →
  datesLoop tz (fuel + more) cur end_ = datesLoop tz fuel cur end_.
Proof.
  revert cur. induction fuel as [|fuel IH]; intros cur Hfuel.
  - assert (end_ < cur) as Hlt.
    { destruct (Z.lt_ge_cases end_ cur) as [|Hge]; [done|].
      pose proof (Z.div_pos (end_ - cur) 43200000). lia. }
    destruct more as [|more]; [done|]. simpl.
    by destruct (Z.leb_spec cur end_); [lia|].
  - simpl. destruct (Z.leb_spec cur end_) as [Hle|]; [|done].
    f_equal. apply IH.
    pose proof (tza_slow tz cur) as Hslow.
    unfold setNextDate, utcTime, localTime, msPerDay in *.
    set (next := cur + tza_utc tz cur + 86400000) in *.
    assert (cur + 43200000 ≤ next - tza_local tz next) as Hnext by lia.
    assert ((end_ - (next - tza_local tz next)) / 43200000
            ≤ (end_ - cur - 43200000) / 43200000) as Hdiv
      by (apply Z.div_le_mono; lia).
    replace (end_ - cur - 43200000) with (end_ - cur + (-1) * 43200000) in Hdiv by lia.
    rewrite Z.div_add in Hdiv by lia.
    pose proof (Z.div_pos (end_ - cur) 43200000). lia.
Qed.

Lemma getDatesInRange_fuel (more : nat) (startStr endStr : date) :
  datesLoop tz (Z.to_nat (2 * (endStr - startStr) + 1) + more)
            (midnight startStr) (midnight endStr)
  = getDatesInRange tz startStr endStr.
Proof.
  apply datesLoop_fuel. unfold midnight, msPerDay.
  replace (endStr * 86400000 - startStr * 86400000)
    with ((endStr - startStr) * 2 * 43200000) by lia.
  rewrite Z.div_mul by lia. lia.
Qed.

(** *** A zone without clock change *)

Context (Hsteady : steady tz).

Lemma setNextDate_steady t : setNextDate tz t = t + msPerDay.
Proof.
  destruct Hsteady as (offset & Hoff). unfold setNextDate, utcTime, localTime.
  destruct (Hoff t) as [-> _]. destruct (Hoff (t + offset + msPerDay)) as [_ ->]. lia.
Qed.

Lemma isoDay_midnight d : isoDay (midnight d) = d.
Proof. unfold isoDay, midnight, msPerDay. by rewrite Z.div_mul. Qed.

Lemma expectedNext_steady prev : expectedNext tz prev = prev + 1.
Proof.
  unfold expectedNext. rewrite setNextDate_steady.
  replace (midnight prev + msPerDay) with (midnight (prev + 1))
    by (unfold midnight; lia).
  apply isoDay_midnight.
Qed.

Lemma datesLoop_steady fuel cur e :
  (Z.to_nat (e - cur + 1) ≤ fuel)%nat →
  datesLoop tz fuel (midnight cur) (midnight e) = seqZ cur (e - cur + 1).
Proof.
  revert cur. induction fuel as [|fuel IH]; intros cur Hfuel; simpl.
  - by rewrite seqZ_nil by lia.
  - destruct (Z.leb_spec (midnight cur) (midnight e)) as [Hle|Hgt].
    + assert (cur ≤ e) by (unfold midnight, msPerDay in Hle; lia).
      rewrite seqZ_cons by lia. rewrite isoDay_midnight, setNextDate_steady.
      replace (midnight cur + msPerDay) with (midnight (cur + 1))
        by (unfold midnight; lia).
      rewrite IH by lia. do 2 f_equal; lia.
    + assert (e < cur) by (unfold midnight, msPerDay in Hgt; lia).
      by rewrite seqZ_nil by lia.
Qed.

(** With no clock change, [getDatesInRange] lists the days of the
    calendar from the start to the end. *)
Lemma getDatesInRange_steady s e : getDatesInRange tz s e = seqZ s (e - s + 1).
Proof. unfold getDatesInRange. apply datesLoop_steady. lia. Qed.

Lemma elem_of_getDatesInRange s e d : d ∈ getDatesInRange tz s e ↔ s ≤ d ≤ e.
Proof. rewrite getDatesInRange_steady, elem_of_seqZ. lia. Qed.

Lemma length_getDatesInRange s e :
  length (getDatesInRange tz s e) = Z.to_nat (e - s + 1).
Proof. by rewrite getDatesInRange_steady, length_seqZ. Qed.

Lemma sorted_seqZ m n : StronglySorted Z.lt (seqZ m n).
Proof.
  destruct (Z.le_gt_cases n 0) as [Hn|Hn]; [rewrite seqZ_nil by done; constructor|].
  rewrite <- (Z2Nat.id n) by lia. generalize (Z.to_nat n). clear. intros k.
  revert m. induction k as [|k IH]; intros m; [constructor|].
  rewrite seqZ_cons by lia. constructor.
  - replace (Z.pred (Z.of_nat (S k))) with (Z.of_nat k) by lia. apply IH.
  - apply Forall_forall. intros d Hd%elem_of_seqZ. lia.
Qed.

Lemma sorted_getDatesInRange s e : StronglySorted Z.lt (getDatesInRange tz s e).
Proof. rewrite getDatesInRange_steady. apply sorted_seqZ. Qed.

Lemma StronglySorted_lt_NoDup (l : list Z) : StronglySorted Z.lt l → NoDup l.
Proof.
  induction 1 as [|x l _ IH Hx]; constructor; [|done].
  intros Hin. rewrite Forall_forall in Hx. specialize (Hx _ Hin). lia.
Qed.

Lemma NoDup_getDatesInRange s e : NoDup (getDatesInRange tz s e).
Proof. apply StronglySorted_lt_NoDup, sorted_getDatesInRange. Qed.

(** *** The runs of [formatDateRanges] *)

Lemma rangesLoop_acc start prev rest acc :
  rangesLoop tz start prev rest acc = acc ++ rangesLoop tz start prev rest [].
Proof.
  revert start prev acc. induction rest as [|curr rest IH]; intros; simpl.
  - done.
  - case_bool_decide.
    + rewrite (IH _ _ (acc ++ _)), (IH _ _ [_]). by rewrite <- app_assoc.
    + apply IH.
Qed.

Lemma rangesLoop_cons start prev curr rest :
  rangesLoop tz start prev (curr :: rest) [] =
    if bool_decide (curr ≠ prev + 1)
    then (start, prev) :: rangesLoop tz curr curr rest []
    else rangesLoop tz start curr rest [].
Proof.
  simpl. rewrite expectedNext_steady.
  case_bool_decide; [|done]. by rewrite rangesLoop_acc.
Qed.

Lemma rangesLoop_spec start prev rest :
  start ≤ prev → StronglySorted Z.lt (prev :: rest) →
  let runs := rangesLoop tz start prev rest [] in
  separated runs
  ∧ (∃ last tl, runs = (start, last) :: tl)
  ∧ ∀ d, covered runs d ↔ start ≤ d ≤ prev ∨ d ∈ rest.
Proof.
  revert start prev. induction rest as [|curr rest IH]; intros start prev Hsp Hsorted.
  - simpl. split; [done|]. split; [eauto|].
    intros d. unfold covered. setoid_rewrite list_elem_of_singleton.
    rewrite elem_of_nil. split.
    + intros (run & -> & ?). by left.
    + intros [?|[]]. by eexists.
  - rewrite rangesLoop_cons.
    inversion Hsorted as [|? ? Hrest Hprev]; subst.
    apply Forall_cons in Hprev as [Hpc Hprev].
    case_bool_decide as Hgap.
    + destruct (IH curr curr) as (Hsep & (last & tl & Heq) & Hcov); [lia|done|].
      split; [|split].
      * simpl. split; [done|]. split; [|done]. rewrite Heq. simpl. lia.
      * eauto.
      * intros d. unfold covered in *. setoid_rewrite elem_of_cons.
        split.
        -- intros (run & [->|Hrun] & Hd); [by left|].
           destruct (proj1 (Hcov d)) as [?|?]; [by eexists| |].
           ++ right. left. simpl in *. lia.
           ++ right. by right.
        -- intros [?|[->|Hd]].
           ++ exists (start, prev). split; [by left|done].
           ++ destruct (proj2 (Hcov curr)) as (run & ? & ?); [left; lia|].
              exists run. split; [by right|done].
           ++ destruct (proj2 (Hcov d)) as (run & ? & ?); [by right|].
              exists run. split; [by right|done].
    + assert (curr = prev + 1) as -> by (destruct (decide (curr = prev + 1)); [done|by destruct Hgap]).
      destruct (IH start (prev + 1)) as (Hsep & Hhd & Hcov); [lia|done|].
      split; [done|]. split; [done|].
      intros d. rewrite Hcov, elem_of_cons. split.
      * intros [?|?]; [|right; by right].
        destruct (decide (d = prev + 1)); [right; by left|left; lia].
      * intros [?|[->|?]]; [left; lia|left; lia|by right].
Qed.

Lemma sortedUnique_sorted l : StronglySorted Z.lt (sortedUnique l).
Proof.
  unfold sortedUnique.
  assert (Hs : StronglySorted Z.le (merge_sort Z.le (remove_dups l)))
    by apply (StronglySorted_merge_sort _).
  assert (Hn : NoDup (merge_sort Z.le (remove_dups l))).
  { rewrite merge_sort_Permutation. apply NoDup_remove_dups. }
  induction Hs as [|x k Hs IH Hx]; [constructor|].
  apply NoDup_cons in Hn as [Hx' Hn]. constructor; [by apply IH|].
  apply Forall_forall. intros y Hy. rewrite Forall_forall in Hx.
  specialize (Hx _ Hy). assert (x ≠ y) by (by intros ->). lia.
Qed.

Lemma elem_of_sortedUnique l d : d ∈ sortedUnique l ↔ d ∈ l.
Proof.
  unfold sortedUnique. by rewrite merge_sort_Permutation, elem_of_remove_dups.
Qed.

Lemma dateRuns_spec l :
  separated (dateRuns tz l) ∧ ∀ d, covered (dateRuns tz l) d ↔ d ∈ l.
Proof.
  unfold dateRuns.
  pose proof (sortedUnique_sorted l) as Hs.
  pose proof (elem_of_sortedUnique l) as He.
  destruct (sortedUnique l) as [|first rest].
  - split; [done|]. intros d. rewrite <- He, elem_of_nil.
    split; [|done]. intros (run & Hrun & _). by apply elem_of_nil in Hrun.
  - destruct (rangesLoop_spec first first rest) as (Hsep & _ & Hcov); [lia|done|].
    split; [done|]. intros d. rewrite Hcov, <- He, elem_of_cons.
    split; (intros [?|?]; [left; lia|by right]).
Qed.

End DateRanges.

Section Availability.

Context (tz : zone) (Hsteady : steady tz).

Lemma overlapCondition_spec a b qs qe :
  overlapCondition a b qs qe = true ↔ ¬ (b < qs ∨ qe < a).
Proof.
  unfold overlapCondition.
  destruct (Z.ltb_spec b qs), (Z.gtb_spec a qe); simpl; split; (done || lia).
Qed.

Lemma elem_of_conflictsQuery db cid qs qe ex conf :
  conf ∈ conflictsQuery db cid qs qe ex ↔
  ∃ s, s ∈ submissions db ∧ assigned db (s_id s) cid
       ∧ s_status s = confirmed
       ∧ ¬ (s_end_date s < qs ∨ qe < s_start_date s)
       ∧ ¬ excludes ex (s_id s)
       ∧ conf = conflict_of s.
Proof.
  unfold conflictsQuery, assigned. rewrite list_elem_of_bind. split.
  - intros (s & Hin & Hs). apply list_elem_of_bind in Hin as ([sid cid'] & Hin & Hsa).
    case_decide as Hc; [|by apply elem_of_nil in Hin].
    apply list_elem_of_singleton in Hin as ->. simpl in Hc.
    destruct Hc as (Hid & Hcid & Hst & Hov%overlapCondition_spec & Hex).
    subst sid cid'. exists s. done.
  - intros (s & Hs & Hsa & Hst & Hov & Hex & ->).
    exists s. split; [|done].
    apply list_elem_of_bind. exists (s_id s, cid). split; [|done].
    rewrite decide_True; [by apply list_elem_of_singleton|].
    simpl. by rewrite overlapCondition_spec.
Qed.

Lemma elem_of_busy_days (R : gset date) (ds : list date) (acc : gset date) d :
  d ∈ foldl (λ busySet d', if decide (d' ∈ R) then {[d']} ∪ busySet else busySet)
            acc ds
  ↔ d ∈ acc ∨ (d ∈ R ∧ d ∈ ds).
Proof.
  revert acc. induction ds as [|d' ds IH]; intros acc; simpl.
  - rewrite elem_of_nil. tauto.
  - rewrite IH, elem_of_cons. case_decide; set_solver.
Qed.

Lemma elem_of_busySet_acc (R : gset date) confs (acc : gset date) d :
  d ∈ foldl (λ busySet conf,
               foldl (λ busySet d',
                        if decide (d' ∈ R) then {[d']} ∪ busySet else busySet)
                     busySet (getDatesInRange tz (cf_start_date conf) (cf_end_date conf)))
            acc confs
  ↔ d ∈ acc ∨ (d ∈ R ∧ ∃ conf, conf ∈ confs
                                ∧ cf_start_date conf ≤ d ≤ cf_end_date conf).
Proof.
  revert acc. induction confs as [|conf confs IH]; intros acc; simpl.
  - split; [by left|]. intros [?|(_ & conf & Hc & _)]; [done|].
    by apply elem_of_nil in Hc.
  - rewrite IH, elem_of_busy_days, (elem_of_getDatesInRange tz Hsteady). split.
    + intros [[?|[? ?]]|(? & conf' & ? & ?)]; [by left| |].
      * right. split; [done|]. exists conf. split; [by left|done].
      * right. split; [done|]. exists conf'. split; [by right|done].
    + intros [?|(? & conf' & [->|?]%elem_of_cons & ?)].
      * left. by left.
      * left. right. done.
      * right. split; [done|]. by exists conf'.
Qed.

Lemma elem_of_busySetOf (R : gset date) confs d :
  d ∈ busySetOf tz R confs
  ↔ d ∈ R ∧ ∃ conf, conf ∈ confs ∧ cf_start_date conf ≤ d ≤ cf_end_date conf.
Proof.
  unfold busySetOf. rewrite elem_of_busySet_acc. set_solver.
Qed.

Lemma excludes_spec (db : store) ex s :
  (∀ s, s ∈ submissions db → s_id s ≠ 0) → s ∈ submissions db →
  excludes ex (s_id s) ↔ ex = Some (s_id s).
Proof.
  intros Hid Hs. destruct ex as [e|]; simpl; [|done].
  split; [by intros [_ ->]|]. intros [= ->]. split; [by apply Hid|done].
Qed.

Lemma elem_of_busySetFor db cid qs qe ex d :
  (∀ s, s ∈ submissions db → s_id s ≠ 0) →
  d ∈ busySetFor tz db cid qs qe ex ↔ busyDay db cid qs qe ex d.
Proof.
  intros Hid. unfold busySetFor, busyDay.
  rewrite elem_of_busySetOf, elem_of_list_to_set, (elem_of_getDatesInRange tz Hsteady).
  split.
  - intros (Hd & conf & (s & Hs & Ha & Hst & Hov & Hex & ->)%elem_of_conflictsQuery & Hin).
    split; [done|]. exists s. rewrite (excludes_spec db) in Hex by done.
    simpl in Hin. split_and!; try done; lia.
  - intros (Hd & s & Hs & Ha & Hst & Hex & Hov & Hin).
    split; [done|]. exists (conflict_of s). split; [|done].
    apply elem_of_conflictsQuery. exists s.
    rewrite (excludes_spec db) by done. split_and!; done.
Qed.

Lemma busySetFor_subseteq db cid qs qe ex :
  busySetFor tz db cid qs qe ex ⊆ list_to_set (getDatesInRange tz qs qe).
Proof. intros d. unfold busySetFor. rewrite elem_of_busySetOf. tauto. Qed.

Lemma r_status_availabilityOf db qs qe ex c :
  r_status (availabilityOf tz db qs qe ex c) =
    let busyCount := size (busySetFor tz db (c_id c) qs qe ex) in
    if (busyCount =? 0)%nat then available
    else if (length (getDatesInRange tz qs qe) <=? busyCount)%nat then busy
    else partially_available.
Proof. done. Qed.

Lemma r_available_ranges_availabilityOf db qs qe ex c :
  r_status (availabilityOf tz db qs qe ex c) = partially_available →
  r_available_ranges (availabilityOf tz db qs qe ex c) =
    formatDateRanges tz (filter (λ d, d ∉ busySetFor tz db (c_id c) qs qe ex)
                             (getDatesInRange tz qs qe)).
Proof.
  unfold availabilityOf. simpl. fold (busySetFor tz db (c_id c) qs qe ex).
  by intros ->.
Qed.

Lemma elem_of_activeCounsellors db c :
  c ∈ activeCounsellors db ↔ c ∈ counsellors db ∧ c_is_active c = true.
Proof.
  unfold activeCounsellors.
  rewrite merge_sort_Permutation, list_elem_of_filter. tauto.
Qed.

Lemma classification (B : gset date) (total : nat) :
  (0 < total)%nat →
  let status := if (size B =? 0)%nat then available
                else if (total <=? size B)%nat then busy
                else partially_available in
  (status = available ↔ B = ∅)
  ∧ (status = busy ↔ (total ≤ size B)%nat)
  ∧ (status = partially_available ↔ B ≠ ∅ ∧ (size B < total)%nat).
Proof.
  intros Htotal. simpl.
  assert (size B = 0%nat ↔ B = ∅) as Hempty.
  { rewrite size_empty_iff. by unfold_leibniz. }
  destruct (Nat.eqb_spec (size B) 0) as [H0|H0].
  - split_and!; split; try done; try lia.
    + by intros _; apply Hempty.
    + intros [Hne _]. by apply Hempty in H0.
  - destruct (Nat.leb_spec total (size B)).
    + split_and!; split; try done; try lia.
      intros H'. by apply Hempty in H'.
    + split_and!; split; try done; try lia.
      * intros H'. by apply Hempty in H'.
      * intros _. split; [|done]. by rewrite <- Hempty.
Qed.

End Availability.

Section AvailabilityTheorems.

Context (tz : zone) (Hsteady : steady tz).

Lemma bind_filter {A B} (P : A → Prop) `{∀ x, Decision (P x)}
      (f : A → list B) (l : list A) :
  (∀ x, ¬ P x → f x = []) → filter P l ≫= f = l ≫= f.
Proof.
  intros Hf. induction l as [|x l IH]; [done|].
  rewrite filter_cons. destruct (decide (P x)) as [HP|HP].
  - by rewrite !bind_cons, IH.
  - by rewrite bind_cons, (Hf x HP), IH.
Qed.

Lemma conflictsQuery_confirmedOnly db cid qs qe ex :
  conflictsQuery (confirmedOnly db) cid qs qe ex = conflictsQuery db cid qs qe ex.
Proof.
  unfold conflictsQuery. simpl. apply bind_filter. intros s Hs.
  induction (submission_assignments db) as [|sa l IH]; [done|].
  rewrite bind_cons, IH, decide_False; [done|tauto].
Qed.

Lemma availabilityOf_confirmedOnly db qs qe ex c :
  availabilityOf tz (confirmedOnly db) qs qe ex c = availabilityOf tz db qs qe ex c.
Proof. unfold availabilityOf. by rewrite conflictsQuery_confirmedOnly. Qed.

Lemma getAvailability_confirmedOnly db start end_ ex :
  getAvailability tz (confirmedOnly db) start end_ ex = getAvailability tz db start end_ ex.
Proof.
  unfold getAvailability. destruct start, end_; try done.
  f_equal. apply map_ext, availabilityOf_confirmedOnly.
Qed.

(** The classification in a zone without clock change.  For an active
    counsellor and a requested range with qStart <= qEnd, the availability
    query answers a row for the counsellor.  With [B] the set of busy days
    (the requested days that lie in a confirmed submission the counsellor is
    assigned to and that overlaps the window, the excluded submission
    apart), the row is [available] exactly when [B] is empty, [busy] exactly
    when [B] has at least as many days as were requested, and
    [partially_available] otherwise.  Pending and not-applicable submissions
    contribute nothing: the answer is the same on the store without them.
    Row ids are not zero, as AUTOINCREMENT gives them. *)
Lemma availability_classification db qStart qEnd excludeId c :
  qStart ≤ qEnd →
  c ∈ counsellors db → c_is_active c = true →
  (∀ s, s ∈ submissions db → s_id s ≠ 0) →
  ∃ rows (B : gset date),
    getAvailability tz db (Some qStart) (Some qEnd) excludeId = Ok rows
    ∧ getAvailability tz (confirmedOnly db) (Some qStart) (Some qEnd) excludeId = Ok rows
    ∧ (∃ r, r ∈ rows ∧ r_id r = c_id c)
    ∧ (∀ d, d ∈ B ↔ busyDay db (c_id c) qStart qEnd excludeId d)
    ∧ ∀ r, r ∈ rows → r_id r = c_id c →
        (r_status r = available ↔ B = ∅)
        ∧ (r_status r = busy ↔ qEnd - qStart + 1 ≤ Z.of_nat (size B))
        ∧ (r_status r = partially_available
           ↔ B ≠ ∅ ∧ Z.of_nat (size B) < qEnd - qStart + 1).
Proof.
  intros Hq Hc Hact Hid.
  eexists _, (busySetFor tz db (c_id c) qStart qEnd excludeId).
  split; [reflexivity|]. split; [apply getAvailability_confirmedOnly|].
  split.
  { exists (availabilityOf tz db qStart qEnd excludeId c). split; [|done].
    apply list_elem_of_fmap. exists c. split; [done|].
    by apply elem_of_activeCounsellors. }
  split; [intros d; by apply elem_of_busySetFor|].
  intros r (c' & -> & _)%list_elem_of_fmap Hr.
  rewrite r_status_availabilityOf. simpl in Hr. rewrite Hr.
  pose proof (classification (busySetFor tz db (c_id c) qStart qEnd excludeId)
                             (length (getDatesInRange tz qStart qEnd))) as Hcl.
  rewrite (length_getDatesInRange tz Hsteady) in *. simpl in *.
  destruct Hcl as (H1 & H2 & H3); [lia|].
  rewrite H1, H2, H3. split; [done|]. split; [lia|].
  split; (intros [? ?]; split; [done|lia]).
Qed.

Lemma formatDateRanges_runs l :
  formatDateRanges tz l = join ", " (map renderRange (dateRuns tz l)).
Proof. by destruct l. Qed.

(** The free ranges in a zone without clock change.  For a counsellor
    the query classifies [partially_available], the text [available_ranges]
    is the rendering (a single date, or [first -> last], joined by commas)
    of runs that are maximal and in ascending order; the days of these runs
    are exactly the requested days that are not busy, so that together with
    the busy days they make up exactly the requested window. *)
Lemma partial_ranges_cover db qStart qEnd excludeId c rows r (B : gset date) :
  (∀ s, s ∈ submissions db → s_id s ≠ 0) →
  getAvailability tz db (Some qStart) (Some qEnd) excludeId = Ok rows →
  r ∈ rows → r_id r = c_id c →
  r_status r = partially_available →
  (∀ d, d ∈ B ↔ busyDay db (c_id c) qStart qEnd excludeId d) →
  ∃ runs,
    r_available_ranges r = join ", " (map renderRange runs)
    ∧ separated runs
    ∧ (∀ d, covered runs d ↔ qStart ≤ d ≤ qEnd ∧ d ∉ B)
    ∧ (∀ d, covered runs d ∨ d ∈ B ↔ qStart ≤ d ≤ qEnd).
Proof.
  intros Hid [= <-] (c' & -> & _)%list_elem_of_fmap Hr Hst HB.
  simpl in Hr.
  set (free := filter (λ d, d ∉ busySetFor tz db (c_id c') qStart qEnd excludeId)
                      (getDatesInRange tz qStart qEnd)).
  exists (dateRuns tz free).
  destruct (dateRuns_spec tz Hsteady free) as [Hsep Hcov].
  assert (∀ d, covered (dateRuns tz free) d ↔ qStart ≤ d ≤ qEnd ∧ d ∉ B) as Hfree.
  { intros d. rewrite Hcov. unfold free.
    rewrite list_elem_of_filter, (elem_of_getDatesInRange tz Hsteady), HB, <- Hr.
    rewrite elem_of_busySetFor by done. tauto. }
  split; [|split; [done|split; [done|]]].
  - rewrite r_available_ranges_availabilityOf by done.
    apply formatDateRanges_runs.
  - intros d. rewrite Hfree. split.
    + intros [[? _]|Hd]; [done|]. apply HB in Hd. apply Hd.
    + intros Hd. destruct (decide (d ∈ B)); [by right|by left].
Qed.

End AvailabilityTheorems.

Section ClockChange.

Lemma steady_utc : steady utc.
Proof. by exists 0. Qed.

Lemma marchStore_busyDay cid d :
  busyDay marchStore cid marchStart marchEnd None d
  ↔ marchStart ≤ d ≤ marchEnd ∧ (cid = 1 ∨ (cid = 2 ∧ d = marchStart)).
Proof.
  unfold busyDay, assigned.
  change (submissions marchStore)
    with [Admin.confirm 1767000000
            (sampleSubmission 1 marchStart marchEnd 5 "Lyon" "FR" 1767000000);
          Admin.confirm 1767000000
            (sampleSubmission 2 marchStart marchStart 5 "Nice" "FR" 1767000000)].
  change (submission_assignments marchStore) with [(1, 1); (2, 2)].
  split.
  - intros (Hd & s & Hs & Ha & _ & _ & _ & Hin). split; [done|].
    apply elem_of_cons in Hs as [->|Hs].
    + apply elem_of_cons in Ha as [Ha|Ha]; [left; by inversion Ha|].
      apply elem_of_cons in Ha as [Ha|Ha]; [by inversion Ha|by apply elem_of_nil in Ha].
    + apply elem_of_cons in Hs as [->|Hs]; [|by apply elem_of_nil in Hs].
      apply elem_of_cons in Ha as [Ha|Ha]; [by inversion Ha|].
      apply elem_of_cons in Ha as [Ha|Ha]; [|by apply elem_of_nil in Ha].
      right. split; [by inversion Ha|]. simpl in Hin. lia.
  - assert (marchStart ≤ marchEnd) by (by vm_compute).
    intros (Hd & [->|[-> ->]]).
    + split; [done|]. eexists. split; [by left|].
      split; [by left|]. split_and!; try done; simpl; lia.
    + split; [done|]. eexists. split; [right; by left|].
      split; [right; by left|]. split_and!; try done; simpl; lia.
Qed.

(** Claim C1.  The classification fails where the clock of the process
    changes within the window.  Under Europe/Paris, for the window from
    2026-03-28 to 2026-03-31, [getDatesInRange] lists 2026-03-29 twice and
    leaves 2026-03-31 out; counsellor 1, who is busy on each of the four
    requested days, has three different busy days against four requested
    ones and is classified [partially_available], with no free range, where
    the claim says [busy].  In UTC the same request answers [busy]. *)
Theorem availability_clock_change :
  (∀ d, marchStart ≤ d ≤ marchEnd → busyDay marchStore 1 marchStart marchEnd None d)
  ∧ getDatesInRange paris2026 marchStart marchEnd
    = [marchStart; marchStart + 1; marchStart + 1; marchStart + 2]
  ∧ (∃ rows,
       getAvailability paris2026 marchStore (Some marchStart) (Some marchEnd) None
       = Ok rows
       ∧ map (λ r, (r_id r, r_status r, r_available_ranges r)) rows
         = [(1, partially_available, EmptyString);
            (2, partially_available, "2026-03-29, 2026-03-30"%string);
            (3, available, EmptyString)])
  ∧ (∃ rows,
       getAvailability utc marchStore (Some marchStart) (Some marchEnd) None = Ok rows
       ∧ map (λ r, (r_id r, r_status r, r_available_ranges r)) rows
         = [(1, busy, EmptyString);
            (2, partially_available, "2026-03-29 -> 2026-03-31"%string);
            (3, available, EmptyString)]).
Proof.
  split; [|split; [|split]].
  - intros d Hd. apply marchStore_busyDay. split; [done|by left].
  - vm_compute. reflexivity.
  - eexists. split; [reflexivity|]. vm_compute. reflexivity.
  - eexists. split; [reflexivity|]. vm_compute. reflexivity.
Qed.

(** Claim C2.  The free ranges fail where the clock of the process changes
    within the window.  Under Europe/Paris, for the window from 2026-03-28
    to 2026-03-31, counsellor 2 is busy on 2026-03-28 only and classified
    [partially_available]; the ranges reported are the two days 2026-03-29
    and 2026-03-30, not joined into a run, and 2026-03-31, which is
    requested and not busy, is in none of them: the ranges and the busy days
    do not make up the window. *)
Theorem ranges_clock_change :
  ∃ rows r,
    getAvailability paris2026 marchStore (Some marchStart) (Some marchEnd) None = Ok rows
    ∧ r ∈ rows ∧ r_id r = 2
    ∧ r_status r = partially_available
    ∧ (∀ d, busyDay marchStore 2 marchStart marchEnd None d ↔ d = marchStart)
    ∧ r_available_ranges r = "2026-03-29, 2026-03-30"%string
    ∧ r_available_ranges r
      = join ", " (map renderRange [(marchStart + 1, marchStart + 1);
                                    (marchStart + 2, marchStart + 2)])
    ∧ ¬ covered [(marchStart + 1, marchStart + 1); (marchStart + 2, marchStart + 2)]
                marchEnd
    ∧ ¬ busyDay marchStore 2 marchStart marchEnd None marchEnd.
Proof.
  eexists _, (availabilityOf paris2026 marchStore marchStart marchEnd None counsellorB).
  split; [reflexivity|]. split.
  { apply list_elem_of_fmap. exists counsellorB. split; [done|].
    vm_compute. right. by left. }
  split; [done|]. split; [vm_compute; reflexivity|]. split.
  { intros d. rewrite marchStore_busyDay. unfold marchStart, marchEnd.
    split; [intros (_ & [?|[_ ?]]); done|]. intros ->. split; [|by right].
    vm_compute. split; discriminate. }
  split; [vm_compute; reflexivity|]. split; [vm_compute; reflexivity|]. split.
  - intros (run & Hrun & H1 & H2). revert H1 H2.
    apply elem_of_cons in Hrun as [->|Hrun];
      [|apply elem_of_cons in Hrun as [->|Hrun]; [|by apply elem_of_nil in Hrun]];
      vm_compute; intros H1 H2; by (destruct H1 || destruct H2).
  - rewrite marchStore_busyDay. intros (_ & [?|[_ ?]]); done.
Qed.

End ClockChange.

(** * Staffing state machine *)

Section Frames.

Lemma same_but_notifications_refl db : same_but_notifications db db.
Proof. by repeat split. Qed.

Lemma same_but_notifications_trans db1 db2 db3 :
  same_but_notifications db1 db2 → same_but_notifications db2 db3 →
  same_but_notifications db1 db3.
Proof.
  unfold same_but_notifications. intros H1 H2.
  destruct_and!. split_and!; congruence.
Qed.

Lemma set_notifications_frame db l seq :
  same_but_notifications db (set_notifications db l seq).
Proof. by repeat split. Qed.

Lemma createNotification_frame now type prio title message meta role user rel db :
  same_but_notifications db
    (fst (createNotification now type prio title message meta role user rel db)).
Proof.
  unfold createNotification.
  repeat (case_decide || case_match); simpl;
    try apply same_but_notifications_refl; by repeat split.
Qed.

Lemma foldl_frame {A} (f : store → A → store) (l : list A) db :
  (∀ db x, same_but_notifications db (f db x)) →
  same_but_notifications db (foldl f db l).
Proof.
  intros Hf. revert db. induction l as [|x l IH]; intros db; simpl.
  - apply same_but_notifications_refl.
  - eapply same_but_notifications_trans; [apply Hf|apply IH].
Qed.

Lemma checkCounsellorOverload_frame now db :
  same_but_notifications db (fst (checkCounsellorOverload now db)).
Proof.
  unfold checkCounsellorOverload.
  destruct (negb _); simpl; [apply same_but_notifications_refl|].
  apply foldl_frame. intros. apply createNotification_frame.
Qed.

End Frames.

Section Finalize.

Lemma insertAssignments_spec id selected t t' :
  insertAssignments id selected t = Some t' →
  t' = t ++ map (λ c, (id, c_id c)) selected
  ∧ NoDup (map (λ c, (id, c_id c)) selected)
  ∧ ∀ row, row ∈ map (λ c, (id, c_id c)) selected → row ∉ t.
Proof.
  revert t. induction selected as [|c sel IH]; intros t; simpl.
  - intros [= <-]. rewrite app_nil_r. split; [done|]. split; [constructor|].
    intros row Hrow. by apply elem_of_nil in Hrow.
  - unfold insertAssignment. case_decide as Hin; [done|]. simpl.
    intros (-> & Hnd & Hfresh)%IH. split; [by rewrite <- app_assoc|]. split.
    + constructor; [|done]. intros Hc. apply (Hfresh _ Hc).
      apply elem_of_app. right. by left.
    + intros row [->|Hrow]%elem_of_cons; [done|].
      intros Ht. apply (Hfresh _ Hrow). apply elem_of_app. by left.
Qed.

Lemma selected_complete (ids : list Z) (selected : list counsellor) :
  (∀ c, c ∈ selected → c_id c ∈ ids) →
  NoDup (map c_id selected) →
  length selected = length ids →
  ∀ cid, cid ∈ ids ↔ cid ∈ map c_id selected.
Proof.
  intros Hsub Hnd Hlen.
  assert (map c_id selected ⊆+ ids) as Hm.
  { apply NoDup_submseteq; [done|].
    intros cid (c & -> & Hc)%list_elem_of_fmap. by apply Hsub. }
  apply submseteq_length_Permutation in Hm; [|rewrite length_map; lia].
  intros cid. by rewrite Hm.
Qed.

Lemma find_submission_Some db sid s :
  find_submission db sid = Some s → s ∈ submissions db ∧ s_id s = sid.
Proof.
  unfold find_submission. intros [Hin Hs%bool_decide_eq_true]%find_some.
  split; [by apply list_elem_of_In|done].
Qed.

Lemma find_submission_is_Some db sid :
  is_Some (find_submission db sid) ↔ ∃ s, s ∈ submissions db ∧ s_id s = sid.
Proof.
  split.
  - intros [s Hs%find_submission_Some]. by exists s.
  - intros (s & Hin & Hs). unfold find_submission.
    destruct (List.find _ _) eqn:Hf; [done|].
    apply list_elem_of_In in Hin.
    pose proof (find_none _ _ Hf _ Hin) as Hn. simpl in Hn.
    by rewrite bool_decide_eq_false in Hn.
Qed.

(** What a successful [finalize] has done. *)
Lemma finalize_Ok now username id counsellor_ids db db' :
  finalize now username (Some id) (Some counsellor_ids) db = (db', Ok ()) →
  (∀ c, assigned db' id c ↔ c ∈ counsellor_ids)
  ∧ (∀ sid c, sid ≠ id → assigned db' sid c ↔ assigned db sid c)
  ∧ submissions db' = updateWhereId id (confirm now) (submissions db)
  ∧ is_Some (find_submission db id).
Proof.
  unfold finalize.
  destruct counsellor_ids as [|cid0 ids0]; [done|].
  set (ids := cid0 :: ids0).
  destruct (find_submission db id) as [sub|] eqn:Hsub; [|done].
  case_decide; [done|].
  set (selected := filter _ (counsellors db)).
  destruct (Nat.eqb_spec (length selected) (length ids)) as [Hlen|]; [|done].
  simpl. unfold finalizeTx.
  destruct (insertAssignments id selected _) as [t|] eqn:Hins; [|done].
  simpl. intros [= <-].
  apply insertAssignments_spec in Hins as (-> & Hnd & _).
  set (db1 := set_submissions _ _ _).
  set (db2 := logActivity _ _ _ _ db1).
  destruct (checkCounsellorOverload_frame now db2)
    as (_ & _ & _ & _ & Hs & _ & Ha & _).
  unfold assigned. rewrite Ha, Hs. simpl.
  assert (∀ cid, cid ∈ ids ↔ cid ∈ map c_id selected) as Hids.
  { apply selected_complete; [| |done].
    - intros c [[_ ?] _]%list_elem_of_filter. done.
    - rewrite <- (map_map c_id (pair id)) in Hnd.
      by apply (NoDup_fmap_1 (pair id)) in Hnd. }
  split_and!; [| |done|done].
  - intros c. rewrite elem_of_app, list_elem_of_filter, Hids. simpl.
    rewrite !list_elem_of_fmap. split.
    + intros [[? _]|(c' & [= ->] & ?)]; [done|]. by exists c'.
    + intros (c' & -> & ?). right. by exists c'.
  - intros sid c Hne. rewrite elem_of_app, list_elem_of_filter. simpl.
    rewrite list_elem_of_fmap. split.
    + intros [[_ ?]|(c' & [= -> ->] & ?)]; done.
    + intros ?. by left.
Qed.

(** A [finalize] that answers an error has changed nothing. *)
Lemma finalize_Error now username id counsellor_ids db db' code :
  finalize now username id counsellor_ids db = (db', Error code) → db' = db.
Proof.
  unfold finalize.
  repeat (case_match || case_decide); simpl; by intros [= <-].
Qed.

Lemma updateWhereId_elem id f l s' :
  s' ∈ updateWhereId id f l →
  ∃ s, s ∈ l ∧ s' = if decide (s_id s = id) then f s else s.
Proof.
  unfold updateWhereId. intros (s & -> & Hs)%list_elem_of_fmap. by exists s.
Qed.

End Finalize.

Section FinalizeTheorems.

Lemma updateWhereId_is_Some db db' id f :
  (∀ s, s_id (f s) = s_id s) →
  submissions db' = updateWhereId id f (submissions db) →
  is_Some (find_submission db id) → is_Some (find_submission db' id).
Proof.
  intros Hf Hs. rewrite !find_submission_is_Some. intros (s & Hin & Hid).
  exists (f s). rewrite Hs, Hf. split; [|done].
  unfold updateWhereId. apply list_elem_of_fmap. exists s.
  by rewrite decide_True.
Qed.

Lemma finalize_confirms now username id counsellor_ids db db' :
  finalize now username (Some id) (Some counsellor_ids) db = (db', Ok ()) →
  ∀ s, s ∈ submissions db' → s_id s = id →
       s_status s = confirmed ∧ s_confirmed_at s = Some now.
Proof.
  intros (_ & _ & Hs & _)%finalize_Ok s. rewrite Hs.
  intros (s0 & _ & ->)%updateWhereId_elem. by case_decide.
Qed.

(** Claim C3.  When a submission is finalized with the counsellors [idsAB]
    and then finalized again with [idsC], both calls succeeding, its
    assignment set is exactly [idsAB] after the first call and exactly
    [idsC] after the second: the set is replaced, never merged.  The
    submission is then [confirmed] with [confirmed_at] the instant of the
    second call, the assignments of the other submissions are as before, and
    a finalize that answers an error leaves the whole store as it was (the
    three statements run in one transaction). *)
Theorem refinalize_replaces now1 now2 user1 user2 id idsAB idsC db db1 db2 :
  finalize now1 user1 (Some id) (Some idsAB) db = (db1, Ok ()) →
  finalize now2 user2 (Some id) (Some idsC) db1 = (db2, Ok ()) →
  (∀ c, assigned db1 id c ↔ c ∈ idsAB)
  ∧ (∀ c, assigned db2 id c ↔ c ∈ idsC)
  ∧ (∃ s, find_submission db2 id = Some s
          ∧ s_status s = confirmed ∧ s_confirmed_at s = Some now2)
  ∧ (∀ s, s ∈ submissions db2 → s_id s = id →
          s_status s = confirmed ∧ s_confirmed_at s = Some now2)
  ∧ (∀ sid c, sid ≠ id → assigned db2 sid c ↔ assigned db sid c)
  ∧ (∀ now user ids db' code,
       finalize now user (Some id) ids db2 = (db', Error code) → db' = db2).
Proof.
  intros H1 H2.
  pose proof (finalize_confirms _ _ _ _ _ _ H2) as Hconf.
  destruct (finalize_Ok _ _ _ _ _ _ H1) as (HAB & Hother1 & _ & _).
  destruct (finalize_Ok _ _ _ _ _ _ H2) as (HC & Hother2 & Hs2 & Hsome).
  split_and!; try done.
  - assert (is_Some (find_submission db2 id)) as [s Hs].
    { by apply (updateWhereId_is_Some db1 db2 id (confirm now2)). }
    exists s. split; [done|].
    apply find_submission_Some in Hs as [? ?]. by apply Hconf.
  - intros sid c Hne. by rewrite Hother2, Hother1.
  - intros. by eapply finalize_Error.
Qed.

Lemma answer_eq {A B} (p : A * B) (b : B) : snd p = b → p = (fst p, b).
Proof. destruct p. simpl. by intros ->. Qed.

Lemma refinalize_replaces_witness :
  let db1 := fst (finalize sampleNow "admin" (Some 2) (Some [1; 2]) sampleStore) in
  let db2 := fst (finalize (sampleNow + 60) "admin" (Some 2) (Some [3]) db1) in
  finalize sampleNow "admin" (Some 2) (Some [1; 2]) sampleStore = (db1, Ok ())
  ∧ finalize (sampleNow + 60) "admin" (Some 2) (Some [3]) db1 = (db2, Ok ())
  ∧ (∀ c, assigned db2 2 c ↔ c ∈ [3]).
Proof.
  intros db1 db2.
  assert (finalize sampleNow "admin" (Some 2) (Some [1; 2]) sampleStore = (db1, Ok ()))
    as H1 by (apply answer_eq; vm_compute; reflexivity).
  assert (finalize (sampleNow + 60) "admin" (Some 2) (Some [3]) db1 = (db2, Ok ()))
    as H2 by (apply answer_eq; vm_compute; reflexivity).
  split; [exact H1|]. split; [exact H2|].
  exact (proj1 (proj2 (refinalize_replaces _ _ _ _ _ _ _ _ _ _ H1 H2))).
Defined.

End FinalizeTheorems.

(** * Metadata update *)

Section Metadata.

Lemma updateMeta_Ok now username id body db db' :
  updateMeta now username (Some id) body db = (db', Ok ()) →
  ∃ row newSent newPay newStatus newRemarks,
    find_submission db id = Some row
    ∧ newStatus = default (s_event_status row) (requestedStatus body)
    ∧ (is_Some (mb_event_status body) → is_Some (requestedStatus body))
    ∧ let cancelled := bool_decide (newStatus = CANCELLED ∨ newStatus = POSTPONED) in
      submissions db' =
        updateWhereId id (setMeta now newSent newPay newStatus newRemarks cancelled)
                      (submissions db)
      ∧ submission_assignments db' =
          if cancelled
          then filter (λ sa : link, sa.1 ≠ id) (submission_assignments db)
          else submission_assignments db.
Proof.
  unfold updateMeta, requestedStatus.
  destruct body as [sent pay ev rem]; simpl.
  destruct (find_submission db id) as [row|]; [|done].
  intros H.
  destruct sent, pay as [p|], ev as [v|]; simpl in *; try (by simplify_eq);
    repeat (case_match; simplify_eq/=; try done);
    eexists _, _, _, _, _; (split; [done|]); (split; [done|]);
    (split; [by eauto|]); simpl;
    match goal with H : bool_decide _ = _ |- _ => by rewrite H end.
Qed.

(** A successful metadata update that leaves the event cancelled or
    postponed empties the assignment set and makes the submission not
    applicable. *)
Lemma updateMeta_cancels now username id body db db' :
  updateMeta now username (Some id) body db = (db', Ok ()) →
  requestedStatus body = Some CANCELLED ∨ requestedStatus body = Some POSTPONED →
  (∀ c, ¬ assigned db' id c)
  ∧ (∀ s, s ∈ submissions db' → s_id s = id →
          s_status s = not_applicable
          ∧ (s_event_status s = CANCELLED ∨ s_event_status s = POSTPONED)).
Proof.
  intros (row & newSent & newPay & newStatus & newRemarks & Hrow & -> & _ & Hs & Ha)
         %updateMeta_Ok Hreq.
  assert (default (s_event_status row) (requestedStatus body) = CANCELLED
          ∨ default (s_event_status row) (requestedStatus body) = POSTPONED) as Hc.
  { destruct Hreq as [-> | ->]; simpl; tauto. }
  rewrite bool_decide_eq_true_2 in Hs, Ha by done.
  split.
  - intros c. unfold assigned. rewrite Ha, list_elem_of_filter. simpl. tauto.
  - intros s. rewrite Hs. intros (s0 & _ & ->)%updateWhereId_elem Hid.
    case_decide as Hs0; simpl; [done|]. by destruct Hs0.
Qed.

(** Claim C4, at the failing input.  On the sample store where [S1] is
    confirmed and staffed with counsellors 1 and 2, the metadata update
    that cancels the event and names the unknown counsellor 999 as sender
    answers 500 after it deleted the assignments: the assignment set is
    empty while the submission is still [confirmed] and [ONGOING].  The
    [DELETE] and the [UPDATE] are not one atomic write. *)
Lemma updateMeta_not_atomic :
  let result := updateMeta sampleNow "admin" (Some 1) cancelWithUnknownSender
                           staffedStore in
  (assigned staffedStore 1 1 ∧ assigned staffedStore 1 2)
  ∧ snd result = Error 500
  ∧ submission_assignments (fst result) = []
  ∧ (s_status <$> find_submission (fst result) 1) = Some confirmed
  ∧ (s_event_status <$> find_submission (fst result) 1) = Some ONGOING.
Proof. vm_compute. repeat split; apply list_elem_of_In; simpl; tauto. Qed.

End Metadata.

(** * Counsellor edit *)

Section Edit.

(** Claim C5.  A well-formed content edit of a confirmed submission by the
    counsellor who submitted it is rejected exactly when today is on or after
    the start date, and then nothing is changed; when today is before the
    start date the edit succeeds, the submission is [pending] with the new
    dates, and the assignment table is as before. *)
Theorem edit_confirmed now username id body db sub
        start_date end_date organizer city country :
  u_start_date body = Some start_date →
  u_end_date body = Some end_date →
  start_date ≤ end_date →
  truthy (u_organizer body) = Some organizer →
  truthy (u_city body) = Some city →
  truthy (u_country body) = Some country →
  find_submission db id = Some sub →
  s_submitted_by sub = username →
  s_status sub = confirmed →
  let result := updateSubmission now username (Some id) body db in
  ((∃ code, snd result = Error code) ↔ s_start_date sub ≤ date_of now)
  ∧ (s_start_date sub ≤ date_of now → result = (db, Error 400))
  ∧ (date_of now < s_start_date sub →
     snd result = Ok id
     ∧ submission_assignments (fst result) = submission_assignments db
     ∧ (∃ s', find_submission (fst result) id = Some s' ∧ s_status s' = pending)
     ∧ ∀ s', s' ∈ submissions (fst result) → s_id s' = id →
             s_status s' = pending
             ∧ s_start_date s' = start_date ∧ s_end_date s' = end_date).
Proof.
  intros Hs He Hle Ho Hci Hco Hsub Hby Hst. unfold updateSubmission.
  rewrite Hs, He, Ho, Hci, Hco, Hsub.
  destruct (Z.gtb_spec start_date end_date) as [?|_]; [lia|].
  rewrite decide_False by (by intros ?).
  destruct (decide (s_start_date sub ≤ date_of now)) as [Hstarted|Hfuture].
  - rewrite decide_True by done. simpl. split; [|split]; [|done|lia].
    split; [done|]. intros _. by eexists.
  - rewrite decide_False by tauto. simpl. split; [|split]; [|done|].
    + split; [by intros [? ?]|done].
    + intros _. split; [done|]. split; [done|].
      assert (∀ s', s' ∈ updateWhereId id
                      (edit now start_date end_date organizer city country
                            (u_proposed_staffing body) (u_remarks body))
                      (submissions db) → s_id s' = id →
                    s_status s' = pending
                    ∧ s_start_date s' = start_date ∧ s_end_date s' = end_date)
        as Hall.
      { intros s' (s0 & _ & ->)%updateWhereId_elem. by case_decide. }
      split; [|done].
      set (db1 := set_submissions _ _ _).
      set (db2 := set_suggestions db1 _).
      assert (is_Some (find_submission db2 id)) as [s' Hs'].
      { apply (updateWhereId_is_Some db db2 id
                 (edit now start_date end_date organizer city country
                       (u_proposed_staffing body) (u_remarks body)));
          [done|done|by rewrite Hsub]. }
      exists s'. split; [done|].
      apply find_submission_Some in Hs' as [Hin Hid].
      by apply Hall.
Qed.

Lemma edit_confirmed_witness :
  let db := fst (finalize sampleNow "admin" (Some 1) (Some [1; 2]) sampleStore) in
  let result := updateSubmission (sampleNow + 3600) "alice" (Some 1) sampleEdit db in
  snd result = Ok 1
  ∧ submission_assignments (fst result) = submission_assignments db
  ∧ (s_status <$> find_submission db 1) = Some confirmed
  ∧ (s_status <$> find_submission (fst result) 1) = Some pending.
Proof.
  intros db result.
  destruct (edit_confirmed (sampleNow + 3600) "alice" 1 sampleEdit db
              (Admin.confirm sampleNow S1)
              (fromYMD 2026 1 17) (fromYMD 2026 1 19)
              "Campus France | Study Fair | Fair" "Paris" "FR")
    as (_ & _ & Hok); try (vm_compute; reflexivity).
  { vm_compute. discriminate. }
  destruct Hok as (Hres & Hasg & (s' & Hfind & Hpending) & _).
  { vm_compute. reflexivity. }
  split; [exact Hres|]. split; [exact Hasg|].
  split; [vm_compute; reflexivity|].
  fold result in Hfind. rewrite Hfind. simpl. by rewrite Hpending.
Defined.

End Edit.

(** * Notification store and detection jobs *)

Section Notifications.

Lemma find_Some_elem {A} (f : A → bool) (l : list A) x :
  List.find f l = Some x → x ∈ l ∧ f x = true.
Proof. intros [? ?]%find_some. split; [by apply list_elem_of_In|done]. Qed.

Lemma find_None_elem {A} (f : A → bool) (l : list A) :
  List.find f l = None → ∀ x, x ∈ l → f x = false.
Proof. intros Hf x Hx%list_elem_of_In. by apply (find_none _ _ Hf). Qed.

(** [createNotification] for a type other than the weekly report: it finds
    a similar notification and leaves the store as it is, or it appends the
    new row. *)
Lemma createNotification_cases now type prio title message meta role user rel db :
  type ≠ weekly_report → related_exists db rel →
  let result := createNotification now type prio title message meta role user rel db in
  (∃ existing, existing ∈ notifications db
               ∧ similar now type title rel existing
               ∧ result = (db, Some (n_id existing)))
  ∨ ((∀ n, n ∈ notifications db → ¬ similar now type title rel n)
     ∧ notifications (fst result) =
         notifications db ++
           [new_notification (notifications_seq db + 1) now type prio title message
                             meta role user rel]).
Proof.
  intros Htype Hrel. unfold createNotification. rewrite decide_False by done.
  destruct (List.find _ _) as [existing|] eqn:Hfind; simpl.
  - apply find_Some_elem in Hfind as [Hin Hsim%bool_decide_eq_true].
    left. by exists existing.
  - right. split.
    + intros n Hn. by apply (find_None_elem _ _ Hfind), bool_decide_eq_false in Hn.
    + by rewrite decide_True.
Qed.

(** [createNotification] for a weekly report: every weekly report of the
    store is deleted, then the new one is appended. *)
Lemma createNotification_weekly now prio title message meta role user db :
  notifications
    (fst (createNotification now weekly_report prio title message meta role user None db))
  = filter (λ n, n_type n ≠ weekly_report) (notifications db)
    ++ [new_notification (notifications_seq db + 1) now weekly_report prio title
                         message meta role user None].
Proof. unfold createNotification. rewrite decide_True by done. done. Qed.

End Notifications.

Section Overload.

Lemma elem_of_overloadRows db today c s :
  s ∈ overloadRows db today c ↔ countedFor db today c s.
Proof.
  unfold overloadRows, countedFor, assigned. rewrite list_elem_of_bind. split.
  - intros (s' & Hin & Hs). apply list_elem_of_bind in Hin as ([sid cid] & Hin & Hsa).
    case_decide as Hc; [|by apply elem_of_nil in Hin].
    apply list_elem_of_singleton in Hin as ->. simpl in Hc.
    destruct Hc as (Hcid & Hid & ?). subst sid cid. split_and!; tauto.
  - intros (Hs & Ha & ?). exists s. split; [|done].
    apply list_elem_of_bind. exists (s_id s, c_id c). split; [|done].
    rewrite decide_True; [by apply list_elem_of_singleton|]. simpl. tauto.
Qed.

Lemma eventCount_size (rows : list submission) (W : gset Z) :
  (∀ i, i ∈ W ↔ ∃ s, s ∈ rows ∧ s_id s = i) →
  eventCount rows = Z.of_nat (size W).
Proof.
  intros HW. unfold eventCount. f_equal.
  rewrite <- (size_list_to_set (C := gset Z)) by apply NoDup_remove_dups.
  f_equal. apply set_eq. intros i.
  rewrite elem_of_list_to_set, elem_of_remove_dups, HW, list_elem_of_fmap.
  naive_solver.
Qed.

Lemma eventCount_pos (rows : list submission) : rows ≠ [] ↔ 1 ≤ eventCount rows.
Proof.
  unfold eventCount. destruct rows as [|s rows]; simpl; [split; [done|lia]|].
  split; [|done]. intros _. case_decide; simpl; [|lia].
  assert (s_id s ∈ remove_dups (map s_id rows)) as Hin by (by apply elem_of_remove_dups).
  destruct (remove_dups _); [by apply elem_of_nil in Hin|simpl; lia].
Qed.

Lemma overloadedQuery_sound db today t row :
  row ∈ overloadedQuery db today (Some t) →
  ∃ c, c ∈ counsellors db ∧ c_is_active c = true
       ∧ 1 ≤ eventCount (overloadRows db today c)
       ∧ t ≤ eventCount (overloadRows db today c)
       ∧ o_id row = c_id c
       ∧ o_event_count row = eventCount (overloadRows db today c).
Proof.
  unfold overloadedQuery. rewrite list_elem_of_bind.
  setoid_rewrite list_elem_of_filter.
  intros (c & Hrow & Hact & Hc). exists c.
  pose proof (eventCount_pos (overloadRows db today c)) as Hpos.
  destruct (overloadRows db today c) as [|s rows] eqn:Hrows;
    [by apply elem_of_nil in Hrow|].
  destruct (Z.leb_spec t (eventCount (s :: rows))); [|by apply elem_of_nil in Hrow].
  apply list_elem_of_singleton in Hrow as ->. simpl.
  split_and!; try done. by apply Hpos.
Qed.

Lemma overloadedQuery_complete db today t c :
  c ∈ counsellors db → c_is_active c = true →
  1 ≤ eventCount (overloadRows db today c) →
  t ≤ eventCount (overloadRows db today c) →
  ∃ row, row ∈ overloadedQuery db today (Some t) ∧ o_id row = c_id c.
Proof.
  intros Hc Hact Hpos%eventCount_pos Ht. unfold overloadedQuery.
  setoid_rewrite list_elem_of_bind. setoid_rewrite list_elem_of_filter.
  destruct (overloadRows db today c) as [|s rows] eqn:Hrows; [done|].
  eexists. split.
  - exists c. split; [|done]. rewrite Hrows.
    destruct (Z.leb_spec t (eventCount (s :: rows))); [|lia].
    by apply list_elem_of_singleton.
  - done.
Qed.

Lemma overloadRows_same_id db today c c' :
  c_id c' = c_id c → overloadRows db today c' = overloadRows db today c.
Proof. unfold overloadRows. by intros ->. Qed.

Lemma overloadPriority_spec t n :
  (overloadPriority (Some t) n = high ↔ t + 2 ≤ n)
  ∧ (overloadPriority (Some t) n = medium ↔ n < t + 2).
Proof.
  unfold overloadPriority. destruct (Z.leb_spec (t + 2) n); split; split; (done || lia).
Qed.

Lemma raiseOverload_cases now threshold db row :
  (∃ existing, existing ∈ notifications db
               ∧ similar now staffing_warning "Counsellor workload alert" None existing
               ∧ raiseOverload now threshold db row = db)
  ∨ ((∀ n, n ∈ notifications db →
           ¬ similar now staffing_warning "Counsellor workload alert" None n)
     ∧ notifications (raiseOverload now threshold db row) =
         notifications db
         ++ [overloadNotification (notifications_seq db + 1) now threshold row]).
Proof.
  unfold raiseOverload.
  destruct (createNotification_cases now staffing_warning
              (overloadPriority threshold (o_event_count row))
              "Counsellor workload alert" (overloadMessage row)
              (Some (MetaOverload (o_id row) (o_event_count row)))
              "admin" None None db) as [(existing & ? & ? & Heq)|[? ?]]; [done|done| |].
  - left. exists existing. by rewrite Heq.
  - by right.
Qed.

Lemma raiseOverload_keeps now threshold db row n :
  n ∈ notifications db → n ∈ notifications (raiseOverload now threshold db row).
Proof.
  intros Hn. destruct (raiseOverload_cases now threshold db row)
    as [(_ & _ & _ & ->)|[_ ->]]; [done|].
  apply elem_of_app. by left.
Qed.

Lemma raiseOverloads_keep now threshold rows db n :
  n ∈ notifications db → n ∈ notifications (foldl (raiseOverload now threshold) db rows).
Proof.
  revert db. induction rows as [|row rows IH]; intros db Hn; [done|].
  simpl. by apply IH, raiseOverload_keeps.
Qed.

Lemma raiseOverloads_sound now threshold rows db n :
  n ∈ notifications (foldl (raiseOverload now threshold) db rows) →
  n ∈ notifications db
  ∨ ∃ row id, row ∈ rows ∧ n = overloadNotification id now threshold row.
Proof.
  revert db. induction rows as [|row rows IH]; intros db Hn; [by left|].
  simpl in Hn. apply IH in Hn as [Hn|(row' & id & Hrow & ->)].
  - destruct (raiseOverload_cases now threshold db row)
      as [(_ & _ & _ & Heq)|[_ Heq]]; rewrite Heq in Hn; [by left|].
    apply elem_of_app in Hn as [Hn|Hn%list_elem_of_singleton]; [by left|].
    right. exists row, (notifications_seq db + 1). split; [by left|done].
  - right. exists row', id. split; [by right|done].
Qed.

(** Claim C6, amended.  With staffing warnings enabled and the threshold
    [t], the overload check reports an active counsellor as overloaded, and
    requests a notification for them, exactly when the number of their
    distinct counted submissions (confirmed, neither completed nor cancelled,
    starting today or within 30 days) is at least 1 and at least [t]; the
    check returns the number of counsellors reported.  The notification
    requested carries the count, and its priority is [high] exactly when the
    count is at least [t + 2], and [medium] otherwise.  Every notification
    the run adds to the store is one it requested for a reported counsellor,
    and the one requested first is in the store after the run when no unread
    workload alert of the last hour was there before. *)
Theorem overload_alerts now db t c (W : gset Z) :
  isSettingEnabled db "staffing_warning_enabled" = true →
  parseInt (settingOr db "counsellor_overload_threshold" "5") = Some t →
  c ∈ counsellors db → c_is_active c = true →
  (∀ i, i ∈ W ↔ ∃ s, countedFor db (date_of now) c s ∧ s_id s = i) →
  let event_count := Z.of_nat (size W) in
  let overloaded := overloadedQuery db (date_of now) (Some t) in
  let after := fst (checkCounsellorOverload now db) in
  snd (checkCounsellorOverload now db) = Z.of_nat (length overloaded)
  ∧ ((∃ row, row ∈ overloaded ∧ o_id row = c_id c)
     ↔ 1 ≤ event_count ∧ t ≤ event_count)
  ∧ (∀ row, row ∈ overloaded → o_id row = c_id c →
       o_event_count row = event_count
       ∧ ∀ id, n_metadata (overloadNotification id now (Some t) row)
               = Some (MetaOverload (c_id c) event_count)
               ∧ (n_priority (overloadNotification id now (Some t) row) = high
                  ↔ t + 2 ≤ event_count)
               ∧ (n_priority (overloadNotification id now (Some t) row) = medium
                  ↔ event_count < t + 2))
  ∧ (∀ n, n ∈ notifications after → n ∉ notifications db →
       ∃ row id, row ∈ overloaded ∧ n = overloadNotification id now (Some t) row)
  ∧ (∀ row rest, overloaded = row :: rest →
       (∀ n, n ∈ notifications db →
             ¬ similar now staffing_warning "Counsellor workload alert" None n) →
       overloadNotification (notifications_seq db + 1) now (Some t) row
       ∈ notifications after).
Proof.
  intros Hen Ht Hc Hact HW. simpl.
  assert (eventCount (overloadRows db (date_of now) c) = Z.of_nat (size W)) as Hcount.
  { apply eventCount_size. intros i. rewrite HW.
    by setoid_rewrite elem_of_overloadRows. }
  assert (checkCounsellorOverload now db
          = (foldl (raiseOverload now (Some t)) db
                   (overloadedQuery db (date_of now) (Some t)),
             Z.of_nat (length (overloadedQuery db (date_of now) (Some t))))) as ->
    by (unfold checkCounsellorOverload; by rewrite Hen, Ht).
  cbn [fst snd]. split_and!.
  - done.
  - rewrite <- Hcount. split.
    + intros (row & (c' & _ & _ & Hpos & Hge & Hid & _)%overloadedQuery_sound & Hrow).
      rewrite Hrow in Hid. by rewrite <- (overloadRows_same_id _ _ c c').
    + intros [? ?]. by apply overloadedQuery_complete.
  - intros row (c' & _ & _ & _ & _ & Hid & Hn)%overloadedQuery_sound Hrow.
    rewrite Hrow in Hid. rewrite (overloadRows_same_id _ _ c c'), Hcount in Hn by done.
    split; [done|]. intros id. simpl. rewrite Hn, Hrow.
    split; [done|]. apply overloadPriority_spec.
  - intros n Hn Hnew. by apply raiseOverloads_sound in Hn as [?|?].
  - intros row rest -> Hnone. simpl. apply raiseOverloads_keep.
    destruct (raiseOverload_cases now (Some t) db row)
      as [(existing & Hex & Hsim & _)|[_ ->]]; [by destruct (Hnone existing)|].
    apply elem_of_app. right. by left.
Qed.

Lemma overload_alerts_witness :
  isSettingEnabled busyStore "staffing_warning_enabled" = true
  ∧ parseInt (settingOr busyStore "counsellor_overload_threshold" "5") = Some 5
  ∧ ((∃ row, row ∈ overloadedQuery busyStore (date_of sampleNow) (Some 5)
             ∧ o_id row = c_id counsellorA)
     ↔ 1 ≤ Z.of_nat (size (list_to_set [1; 2; 3; 4; 5; 6; 7] : gset Z))
       ∧ 5 ≤ Z.of_nat (size (list_to_set [1; 2; 3; 4; 5; 6; 7] : gset Z))).
Proof.
  split; [vm_compute; reflexivity|]. split; [vm_compute; reflexivity|].
  refine (proj1 (proj2 (overload_alerts sampleNow busyStore 5 counsellorA
                          (list_to_set [1; 2; 3; 4; 5; 6; 7]) _ _ _ _ _)));
    try (vm_compute; reflexivity).
  - apply list_elem_of_In. simpl. tauto.
  - intros i. rewrite elem_of_list_to_set. split.
    + intros Hi. exists (Admin.confirm 1767000000
                    (sampleSubmission i (fromYMD 2026 1 (10 + i)) (fromYMD 2026 1 (10 + i))
                                      5 "Lyon" "FR" 1767000000)).
      split; [|done]. apply elem_of_overloadRows.
      repeat (apply elem_of_cons in Hi as [->|Hi];
              [vm_compute; apply list_elem_of_In; simpl; tauto|]).
      by apply elem_of_nil in Hi.
    + intros (s & Hs%elem_of_overloadRows & <-). revert Hs. vm_compute.
      intros Hs%list_elem_of_In. simpl in Hs.
      repeat (destruct Hs as [<-|Hs]; [apply list_elem_of_In; simpl; tauto|]). done.
Defined.

(** Claim C6 as stated fails.  With the default threshold 5, a counsellor
    with exactly 7 counted events is reported with priority [high], although
    7 does not exceed 5 + 2.  With staffing warnings switched off the check
    reports nobody and stores nothing, although the same counsellor has 7
    counted events against the threshold 5.  With the threshold 0, an active
    counsellor with no counted event is not reported, although 0 meets the
    threshold. *)
Lemma overload_as_stated_fails :
  (∃ notif,
     notifications (fst (checkCounsellorOverload sampleNow busyStore)) = [notif]
     ∧ parseInt (settingOr busyStore "counsellor_overload_threshold" "5") = Some 5
     ∧ n_metadata notif = Some (MetaOverload 1 7)
     ∧ ¬ (n_priority notif = high ↔ 5 + 2 < 7))
  ∧ (let db := busyStoreWith "staffing_warning_enabled" "false" in
     parseInt (settingOr db "counsellor_overload_threshold" "5") = Some 5
     ∧ eventCount (overloadRows db (date_of sampleNow) counsellorA) = 7
     ∧ checkCounsellorOverload sampleNow db = (db, 0))
  ∧ (let db := busyStoreWith "counsellor_overload_threshold" "0" in
     isSettingEnabled db "staffing_warning_enabled" = true
     ∧ parseInt (settingOr db "counsellor_overload_threshold" "5") = Some 0
     ∧ counsellorB ∈ counsellors db ∧ c_is_active counsellorB = true
     ∧ eventCount (overloadRows db (date_of sampleNow) counsellorB) = 0
     ∧ map o_id (overloadedQuery db (date_of sampleNow) (Some 0)) = [1]
     ∧ map n_metadata (notifications (fst (checkCounsellorOverload sampleNow db)))
       = [Some (MetaOverload 1 7)]).
Proof.
  split; [|split].
  - eexists. split; [vm_compute; reflexivity|]. split; [vm_compute; reflexivity|].
    split; [reflexivity|]. simpl. intros [H _]. specialize (H eq_refl). lia.
  - cbv zeta. split_and!; vm_compute; reflexivity.
  - cbv zeta. split_and!; try (vm_compute; reflexivity).
    vm_compute. right. by left.
Qed.

End Overload.

Section WeeklyReport.

Lemma generateWeeklyReport_frame now force db :
  same_but_notifications db (fst (generateWeeklyReport now force db)).
Proof.
  unfold generateWeeklyReport.
  destruct (negb force && negb _); [apply same_but_notifications_refl|].
  cbv zeta. cbn [fst]. apply createNotification_frame.
Qed.

Lemma isSettingEnabled_frame db db' key :
  same_but_notifications db db' → isSettingEnabled db' key = isSettingEnabled db key.
Proof.
  intros (_ & _ & _ & _ & _ & _ & _ & _ & Hs & _).
  unfold isSettingEnabled, getSetting. by rewrite Hs.
Qed.

Lemma weeklyReports_after_run now force db :
  force = true ∨ isSettingEnabled db "weekly_report_enabled" = true →
  ∃ report,
    notifications (fst (generateWeeklyReport now force db))
    = filter (λ n, n_type n ≠ weekly_report) (notifications db) ++ [report]
    ∧ n_type report = weekly_report
    ∧ weeklyReports (fst (generateWeeklyReport now force db)) = [report].
Proof.
  intros Hrun. unfold generateWeeklyReport.
  assert (negb force && negb (isSettingEnabled db "weekly_report_enabled") = false)
    as -> by (destruct Hrun as [-> | ->]; [done|by rewrite andb_false_r]).
  cbv zeta. cbn [fst]. unfold weeklyReports. rewrite createNotification_weekly.
  set (report := new_notification _ _ _ _ _ _ _ _ _ _).
  exists report. split; [done|]. split; [done|].
  rewrite filter_app, filter_cons, filter_nil, decide_True by done.
  replace (filter (λ n, n_type n = weekly_report)
                  (filter (λ n, n_type n ≠ weekly_report) (notifications db)))
    with (@nil notification); [done|].
  symmetry. apply elem_of_nil_inv. intros n.
  rewrite !list_elem_of_filter. tauto.
Qed.

(** Claim C7, amended.  When weekly reports are enabled, or the run is
    forced, running the generation one or more times in succession leaves
    exactly one weekly-report notification in the store: every creation of a
    weekly report deletes all weekly reports of the store and then appends
    the new one. *)
Theorem weekly_report_single force db nows :
  force = true ∨ isSettingEnabled db "weekly_report_enabled" = true →
  nows ≠ [] →
  length (weeklyReports (runWeekly force db nows)) = 1%nat
  ∧ ∀ now prio title message meta role user db0,
      notifications
        (fst (createNotification now weekly_report prio title message meta role user
                                 None db0))
      = filter (λ n, n_type n ≠ weekly_report) (notifications db0)
        ++ [new_notification (notifications_seq db0 + 1) now weekly_report prio title
                             message meta role user None].
Proof.
  intros Hrun Hnows. split; [|intros; apply createNotification_weekly].
  revert db Hrun. induction nows as [|now rest IH]; [done|]. intros db Hrun.
  unfold runWeekly. simpl. fold (runWeekly force (fst (generateWeeklyReport now force db)) rest).
  destruct rest as [|now' rest].
  - simpl. destruct (weeklyReports_after_run now force db Hrun) as (r & _ & _ & ->). done.
  - apply IH; [done|]. destruct Hrun as [?|Hen]; [by left|right].
    by rewrite (isSettingEnabled_frame db) by apply generateWeeklyReport_frame.
Qed.

Lemma weekly_report_single_witness :
  isSettingEnabled sampleStore "weekly_report_enabled" = true
  ∧ length (weeklyReports (runWeekly false sampleStore [sampleNow; sampleNow + 5])) = 1%nat.
Proof.
  split; [vm_compute; reflexivity|].
  refine (proj1 (weekly_report_single false sampleStore [sampleNow; sampleNow + 5] _ _)).
  - right. vm_compute. reflexivity.
  - discriminate.
Defined.

(** Claim C7 as stated fails.  On a store where weekly reports are switched
    off, two scheduled runs in succession leave no weekly report. *)
Lemma weekly_report_disabled :
  isSettingEnabled quietStore "weekly_report_enabled" = false
  ∧ length (weeklyReports (runWeekly false quietStore [sampleNow; sampleNow + 5])) = 0%nat.
Proof. split; vm_compute; reflexivity. Qed.

End WeeklyReport.

(** * Duplicate detection *)

Section Duplicates.

Lemma createNotification_elem now type prio title message meta role user rel db n :
  n ∈ notifications
        (fst (createNotification now type prio title message meta role user rel db)) →
  n ∈ notifications db
  ∨ n = new_notification (notifications_seq db + 1) now type prio title message meta
                         role user rel.
Proof.
  unfold createNotification.
  repeat (case_decide || case_match); simpl;
    rewrite ?elem_of_app, ?list_elem_of_filter, ?list_elem_of_singleton; tauto.
Qed.

Lemma createNotification_keeps now type prio title message meta role user rel db n :
  type ≠ weekly_report → n ∈ notifications db →
  n ∈ notifications
        (fst (createNotification now type prio title message meta role user rel db)).
Proof.
  intros Htype Hn. unfold createNotification. rewrite decide_False by done.
  repeat (case_decide || case_match); simpl; rewrite ?elem_of_app; tauto.
Qed.

Lemma checkCandidate_frame now threshold x newSub acc candidate :
  same_but_notifications (fst acc)
    (fst (checkCandidate now threshold x newSub acc candidate)).
Proof.
  unfold checkCandidate. destruct acc as [db dups].
  case_decide; [apply same_but_notifications_refl|].
  destruct (calculateSimilarity _ _) as [score factors].
  destruct (from_option _ _ _); [|apply same_but_notifications_refl].
  apply createNotification_frame.
Qed.

Lemma dismissed_frame db db' x y :
  same_but_notifications db db' → dismissed db' x y ↔ dismissed db x y.
Proof.
  intros (_ & _ & _ & _ & _ & _ & _ & _ & _ & Hd & _). unfold dismissed. by rewrite Hd.
Qed.

(** A pass never flags a pair that is dismissed. *)
Lemma checkCandidates_dismissed now threshold x y newSub db candidates acc :
  dismissed db x y →
  same_but_notifications db (fst acc) →
  (∀ dup, dup ∈ snd acc → existingSubmissionId dup ≠ y) →
  (∀ n, n ∈ notifications (fst acc) → aboutPair x y n ∨ aboutPair y x n →
        n ∈ notifications db) →
  let result := foldl (checkCandidate now threshold x newSub) acc candidates in
  same_but_notifications db (fst result)
  ∧ (∀ dup, dup ∈ snd result → existingSubmissionId dup ≠ y)
  ∧ (∀ n, n ∈ notifications (fst result) → aboutPair x y n ∨ aboutPair y x n →
          n ∈ notifications db).
Proof.
  intros Hdis. revert acc.
  induction candidates as [|candidate rest IH]; intros acc Hframe Hdups Hnotifs; [done|].
  simpl. apply IH.
  - eapply same_but_notifications_trans; [done|apply checkCandidate_frame].
  - unfold checkCandidate. destruct acc as [db0 dups].
    case_decide as Hd; [done|].
    destruct (calculateSimilarity _ _) as [score factors].
    destruct (from_option _ _ _); [|done]. simpl.
    intros dup [?| ->%list_elem_of_singleton]%elem_of_app; [by apply Hdups|].
    simpl. intros Hy. apply Hd. rewrite Hy. by apply (dismissed_frame db).
  - unfold checkCandidate. destruct acc as [db0 dups].
    case_decide as Hd; [done|].
    destruct (calculateSimilarity _ _) as [score factors].
    destruct (from_option _ _ _); [|done]. simpl.
    intros n [?| ->]%createNotification_elem; [by apply Hnotifs|].
    assert (s_id candidate ≠ y) as Hne.
    { intros Hy. apply Hd. rewrite Hy. by apply (dismissed_frame db). }
    intros [(score' & factors' & Heq)|(score' & factors' & Heq)];
      simpl in Heq; exfalso; apply Hne; congruence.
Qed.

Lemma detectDuplicates_frame now x db :
  same_but_notifications db (fst (detectDuplicates now x db)).
Proof.
  unfold detectDuplicates.
  destruct (negb _); [apply same_but_notifications_refl|].
  destruct (find_submission db x); [|apply same_but_notifications_refl].
  generalize (candidatesQuery db x s). intros l.
  assert (same_but_notifications db (fst (db, @nil duplicate))) as H
    by apply same_but_notifications_refl.
  revert H. generalize (db, @nil duplicate). induction l as [|c l IH]; intros acc H; [done|].
  simpl. apply IH. eapply same_but_notifications_trans; [done|apply checkCandidate_frame].
Qed.

(** Claim C8.  When the pair (a, b) is recorded in the dismissals, a
    duplicate-detection pass over either submission of the pair, [x], returns
    no flag for the other one, [y], and adds no notification about the pair,
    in either order of the two ids; the dismissals are as before, so this
    holds for every later pass. *)
Theorem dismissed_pair_not_flagged now a b db x y :
  (a, b) ∈ duplicate_dismissals db →
  (x = a ∧ y = b) ∨ (x = b ∧ y = a) →
  let result := detectDuplicates now x db in
  (∀ dup, dup ∈ snd result → existingSubmissionId dup ≠ y)
  ∧ (∀ n, n ∈ notifications (fst result) → aboutPair a b n ∨ aboutPair b a n →
          n ∈ notifications db)
  ∧ duplicate_dismissals (fst result) = duplicate_dismissals db.
Proof.
  intros Hab Hxy. simpl.
  assert (dismissed db x y) as Hdis.
  { unfold dismissed. destruct Hxy as [[-> ->]|[-> ->]]; tauto. }
  assert (∀ n, aboutPair a b n ∨ aboutPair b a n → aboutPair x y n ∨ aboutPair y x n)
    as Hpair by (destruct Hxy as [[-> ->]|[-> ->]]; tauto).
  split; [|split].
  3: { by destruct (detectDuplicates_frame now x db)
         as (_ & _ & _ & _ & _ & _ & _ & _ & _ & ? & _). }
  2: intros n Hn Hab'%Hpair; revert n Hn Hab'.
  all: unfold detectDuplicates;
    destruct (negb _); [simpl; intros ? Hin; by (done || apply elem_of_nil in Hin)|];
    destruct (find_submission db x) as [newSub|];
      [|simpl; intros ? Hin; by (done || apply elem_of_nil in Hin)];
    destruct (checkCandidates_dismissed now
                (parseFloat (settingOr db "duplicate_threshold" "0.7")) x y newSub db
                (candidatesQuery db x newSub) (db, [])) as (_ & Hd & Hn);
    try done; try apply same_but_notifications_refl.
  all: simpl; intros ? Hin; by apply elem_of_nil in Hin.
Qed.

End Duplicates.

Section Scenario.

Lemma similarity_scenario s1 s2 :
  isS1 s1 → isS2 s2 →
  ∃ score factors,
    calculateSimilarity s2 s1 = (score, factors) ∧ (score = 90 ∨ score = 100).
Proof.
  intros (Ho1 & Hc1 & Hci1 & Hs1 & He1) (Ho2 & Hc2 & Hci2 & Hs2 & He2).
  unfold calculateSimilarity.
  rewrite Ho1, Ho2, Hc1, Hc2, Hci1, Hci2, Hs1, Hs2, He1, He2.
  destruct (truthyId (s_event_name_id s2) && truthyId (s_event_name_id s1)
            && bool_decide (s_event_name_id s2 = s_event_name_id s1));
    vm_compute; eauto.
Qed.

(** Notifications and flags only accumulate during a pass. *)
Lemma checkCandidates_keep now threshold x newSub candidates acc :
  let result := foldl (checkCandidate now threshold x newSub) acc candidates in
  (∀ dup, dup ∈ snd acc → dup ∈ snd result)
  ∧ (∀ n, n ∈ notifications (fst acc) → n ∈ notifications (fst result)).
Proof.
  revert acc. induction candidates as [|candidate rest IH]; intros acc; [done|].
  simpl. destruct (IH (checkCandidate now threshold x newSub acc candidate)) as [IHd IHn].
  split.
  - intros dup Hdup. apply IHd. unfold checkCandidate. destruct acc as [db0 dups].
    case_decide; [done|]. destruct (calculateSimilarity _ _).
    destruct (from_option _ _ _); [|done]. simpl. apply elem_of_app. by left.
  - intros n Hn. apply IHn. unfold checkCandidate. destruct acc as [db0 dups].
    case_decide; [done|]. destruct (calculateSimilarity _ _).
    destruct (from_option _ _ _); [|done]. simpl.
    by apply createNotification_keeps.
Qed.

(** A candidate that is not dismissed and scores at least the threshold is
    flagged, and the store then holds an unread duplicate notification about
    the new submission, created within the hour. *)
Lemma checkCandidates_flag now t x newSub db s1 score factors candidates acc :
  find_submission db x = Some newSub →
  ¬ dismissed db x (s_id s1) →
  calculateSimilarity newSub s1 = (score, factors) →
  hundredths_ge score t = true →
  s1 ∈ candidates →
  same_but_notifications db (fst acc) →
  let result := foldl (checkCandidate now (Some t) x newSub) acc candidates in
  {| existingSubmissionId := s_id s1; dup_score := score; dup_factors := factors |}
    ∈ snd result
  ∧ ∃ n, n ∈ notifications (fst result)
         ∧ similar now duplicate_detected "Possible duplicate event detected" (Some x) n.
Proof.
  intros Hnew Hnd Hscore Hge. revert acc.
  induction candidates as [|candidate rest IH]; intros acc Hin Hframe;
    [by apply elem_of_nil in Hin|].
  simpl. apply elem_of_cons in Hin as [<-|Hin].
  - destruct (checkCandidates_keep now (Some t) x newSub rest
                (checkCandidate now (Some t) x newSub acc s1)) as [Hkd Hkn].
    unfold checkCandidate in *. destruct acc as [db0 dups]. simpl in Hframe.
    rewrite decide_False in * by (by rewrite (dismissed_frame db)).
    rewrite Hscore in *. simpl in *. rewrite Hge in *. simpl in *.
    split; [apply Hkd, elem_of_app; right; by apply list_elem_of_singleton|].
    destruct (createNotification_cases now duplicate_detected
                (if 90 <=? score then high else medium)
                "Possible duplicate event detected" (duplicateMessage newSub s1 score)
                (Some (MetaDuplicate x (s_id s1) score factors)) "admin" None (Some x) db0)
      as [(existing & Hex & Hsim & Heq)|[_ Hnew']]; [done| | |].
    + simpl. destruct Hframe as (_ & _ & _ & _ & Hs & _).
      unfold find_submission in *. rewrite Hs. by rewrite Hnew.
    + exists existing. split; [|done]. apply Hkn. by rewrite Heq.
    + eexists. split; [apply Hkn; rewrite Hnew'; apply elem_of_app; right;
                       by apply list_elem_of_singleton|].
      unfold similar. simpl. split_and!; try done. lia.
  - apply IH; [done|].
    eapply same_but_notifications_trans; [done|apply checkCandidate_frame].
Qed.

#[local] Instance newer_trans : Transitive newer.
Proof. unfold newer. intros a b c ? ?. lia. Qed.

#[local] Instance newer_total : Total newer.
Proof. unfold newer. intros a b. lia. Qed.

Lemma filter_all {A} (P : A → Prop) `{∀ x, Decision (P x)} (l : list A) :
  (∀ x, x ∈ l → P x) → filter P l = l.
Proof.
  induction l as [|x l IH]; intros Hall; [done|].
  rewrite filter_cons, decide_True by (apply Hall; by left).
  f_equal. apply IH. intros y Hy. apply Hall. by right.
Qed.

(** A candidate is examined by the pass whenever at most 50 candidates are
    as recent as it is or more recent: however the query orders the rows
    created at the same time, it is among the first 50. *)
Lemma candidate_among_newest db s1 s2 :
  s1 ∈ submissions db → rival s2 s1 →
  (length (filter (ahead s2 s1) (submissions db)) ≤ 50)%nat →
  s1 ∈ candidatesQuery db (s_id s2) s2.
Proof.
  intros Hin Hrival Hfew. unfold candidatesQuery.
  change (filter _ (submissions db)) with (filter (rival s2) (submissions db)).
  set (sorted := merge_sort newer (filter (rival s2) (submissions db))).
  assert (s1 ∈ sorted) as Hs1
    by (unfold sorted; rewrite merge_sort_Permutation; by apply list_elem_of_filter).
  assert (StronglySorted newer sorted) as Hsorted
    by apply (StronglySorted_merge_sort _).
  apply list_elem_of_split in Hs1 as (l1 & l2 & Heq).
  rewrite Heq in Hsorted. apply StronglySorted_app in Hsorted as (Hbefore & _ & _).
  set (Q := ahead s2 s1).
  assert (∀ x, x ∈ l1 ++ [s1] → Q x) as HQ.
  { intros x Hx. assert (x ∈ sorted) as Hxs.
    { rewrite Heq. apply elem_of_app in Hx as [?|Hx%list_elem_of_singleton];
        apply elem_of_app; [by left|right; subst x; by left]. }
    split.
    - unfold sorted in Hxs. rewrite merge_sort_Permutation in Hxs.
      by apply list_elem_of_filter in Hxs as [? _].
    - apply elem_of_app in Hx as [Hx|Hx%list_elem_of_singleton]; [|by subst x].
      apply (Hbefore x s1 Hx). by left. }
  assert (length (filter Q sorted) = length (filter Q (submissions db))) as Hlen.
  { unfold sorted. rewrite merge_sort_Permutation, list_filter_filter.
    f_equal. apply list_filter_iff. unfold Q, ahead. tauto. }
  assert (length l1 + 1 ≤ length (filter Q sorted))%nat as Hpos.
  { rewrite Heq, (assoc_L (++) l1 [s1] l2 : l1 ++ s1 :: l2 = (l1 ++ [s1]) ++ l2).
    rewrite filter_app, length_app, (filter_all Q (l1 ++ [s1])) by done.
    rewrite length_app. simpl. lia. }
  apply elem_of_take. exists (length l1). split; [|unfold Q in *; lia].
  rewrite Heq. apply list_lookup_middle. done.
Qed.

(** A candidate is examined first when every other candidate was created
    before it. *)
Lemma candidate_first db s1 s2 :
  s1 ∈ submissions db → rival s2 s1 →
  (∀ s, s ∈ submissions db → rival s2 s → s = s1 ∨ s_created_at s < s_created_at s1) →
  ∃ rest, candidatesQuery db (s_id s2) s2 = s1 :: rest.
Proof.
  intros Hin Hrival Hfirst. unfold candidatesQuery.
  change (filter _ (submissions db)) with (filter (rival s2) (submissions db)).
  set (sorted := merge_sort newer (filter (rival s2) (submissions db))).
  assert (s1 ∈ sorted) as Hs1
    by (unfold sorted; rewrite merge_sort_Permutation; by apply list_elem_of_filter).
  assert (StronglySorted newer sorted) as Hsorted
    by apply (StronglySorted_merge_sort _).
  assert (∀ x, x ∈ sorted → x = s1 ∨ s_created_at x < s_created_at s1) as Hall.
  { intros x Hx. unfold sorted in Hx. rewrite merge_sort_Permutation in Hx.
    apply list_elem_of_filter in Hx as [? ?]. by apply Hfirst. }
  clearbody sorted. destruct sorted as [|x l]; [by apply elem_of_nil in Hs1|].
  exists (take 49 l). simpl. f_equal.
  destruct (Hall x) as [Hx|Hlt]; [by left|done|].
  apply elem_of_cons in Hs1 as [Hs1|Hs1]; [done|].
  apply StronglySorted_inv in Hsorted as [_ Hx]. rewrite Forall_forall in Hx.
  specialize (Hx _ Hs1). unfold newer in Hx. lia.
Qed.

(** Claim C9, amended.  For submissions S1 and S2 of the scenario, with
    duplicate detection enabled and the default threshold 0.7, the pair not
    dismissed, S1 not cancelled, and at most 50 candidates of S2 (other
    submissions, not cancelled, in the same country or with overlapping
    dates) as recent as S1 or more recent: the score is at least 0.75 and
    reaches the threshold, the pass over S2 flags S1 with that score, and
    the store then holds an unread duplicate notification about S2 created
    within the hour.  When every other candidate of S2 was created before S1
    and the store held no such notification, the notification the pass
    stores is the one about the pair, with priority [high]. *)
Theorem scenario_flagged now db s1 s2 :
  isS1 s1 → isS2 s2 →
  isSettingEnabled db "duplicate_detection_enabled" = true →
  settingOr db "duplicate_threshold" "0.7" = "0.7"%string →
  find_submission db (s_id s2) = Some s2 →
  s1 ∈ submissions db → s_id s1 ≠ s_id s2 → s_event_status s1 ≠ CANCELLED →
  (length (filter (ahead s2 s1) (submissions db)) ≤ 50)%nat →
  ¬ dismissed db (s_id s2) (s_id s1) →
  ∃ score factors,
    calculateSimilarity s2 s1 = (score, factors)
    ∧ 75 ≤ score
    ∧ hundredths_ge score (Finite {| mantissa := 7; decimals := 1 |}) = true
    ∧ let result := detectDuplicates now (s_id s2) db in
      {| existingSubmissionId := s_id s1; dup_score := score; dup_factors := factors |}
        ∈ snd result
      ∧ (∃ n, n ∈ notifications (fst result)
              ∧ similar now duplicate_detected "Possible duplicate event detected"
                        (Some (s_id s2)) n)
      ∧ ((∀ s, s ∈ submissions db → rival s2 s →
               s = s1 ∨ s_created_at s < s_created_at s1) →
         (∀ n, n ∈ notifications db →
               ¬ similar now duplicate_detected "Possible duplicate event detected"
                         (Some (s_id s2)) n) →
         new_notification (notifications_seq db + 1) now duplicate_detected high
           "Possible duplicate event detected" (duplicateMessage s2 s1 score)
           (Some (MetaDuplicate (s_id s2) (s_id s1) score factors))
           "admin" None (Some (s_id s2))
         ∈ notifications (fst result)).
Proof.
  intros H1 H2 Hen Hth Hnew Hin Hid Hlive Hfew Hnd.
  assert (rival s2 s1) as Hrival.
  { split; [done|]. split; [done|]. left.
    destruct H1 as (_ & -> & _), H2 as (_ & -> & _). done. }
  pose proof (candidate_among_newest db s1 s2 Hin Hrival Hfew) as Hcand.
  destruct (similarity_scenario s1 s2 H1 H2) as (score & factors & Hscore & Hval).
  exists score, factors. split; [done|].
  assert (hundredths_ge score (Finite {| mantissa := 7; decimals := 1 |}) = true) as Hge
    by (destruct Hval as [-> | ->]; reflexivity).
  split; [lia|]. split; [done|].
  unfold detectDuplicates. rewrite Hen, Hth, Hnew. simpl negb. cbv iota.
  change (parseFloat "0.7") with (Some (Finite {| mantissa := 7; decimals := 1 |})).
  destruct (checkCandidates_flag now (Finite {| mantissa := 7; decimals := 1 |})
              (s_id s2) s2 db s1 score factors (candidatesQuery db (s_id s2) s2) (db, []))
    as [Hflag Hnotif]; try done.
  split; [done|]. split; [done|].
  intros Hfirst Hfresh.
  destruct (candidate_first db s1 s2 Hin Hrival Hfirst) as (rest & ->).
  cbn [foldl].
  apply (checkCandidates_keep now (Some (Finite {| mantissa := 7; decimals := 1 |}))
           (s_id s2) s2 rest).
  unfold checkCandidate.
  rewrite decide_False by done. rewrite Hscore. cbn [from_option].
  rewrite Hge.
  assert ((if 90 <=? score then high else medium) = high) as ->
    by (destruct Hval as [-> | ->]; reflexivity).
  destruct (createNotification_cases now duplicate_detected high
              "Possible duplicate event detected" (duplicateMessage s2 s1 score)
              (Some (MetaDuplicate (s_id s2) (s_id s1) score factors))
              "admin" None (Some (s_id s2)) db)
    as [(existing & Hex & Hsim & _)|[_ Heq]]; [done| | |].
  - simpl. by rewrite Hnew.
  - by apply Hfresh in Hsim.
  - cbn [fst]. rewrite Heq. apply elem_of_app. right. by left.
Qed.

End Scenario.

Section DuplicateWitnesses.

Lemma dismissed_pair_not_flagged_witness :
  (2, 1) ∈ duplicate_dismissals dismissedStore
  ∧ (∀ dup, dup ∈ snd (detectDuplicates sampleNow 1 dismissedStore) →
            existingSubmissionId dup ≠ 2)
  ∧ (∀ dup, dup ∈ snd (detectDuplicates sampleNow 2 dismissedStore) →
            existingSubmissionId dup ≠ 1).
Proof.
  assert ((2, 1) ∈ duplicate_dismissals dismissedStore) as Hin
    by (apply list_elem_of_In; simpl; tauto).
  split; [exact Hin|]. split.
  - exact (proj1 (dismissed_pair_not_flagged sampleNow 2 1 dismissedStore 1 2 Hin
                    (or_intror (conj eq_refl eq_refl)))).
  - exact (proj1 (dismissed_pair_not_flagged sampleNow 2 1 dismissedStore 2 1 Hin
                    (or_introl (conj eq_refl eq_refl)))).
Defined.

Lemma scenario_flagged_witness :
  isS1 S1 ∧ isS2 S2
  ∧ ∃ score factors,
      calculateSimilarity S2 S1 = (score, factors)
      ∧ 75 ≤ score
      ∧ hundredths_ge score (Finite {| mantissa := 7; decimals := 1 |}) = true
      ∧ {| existingSubmissionId := s_id S1; dup_score := score; dup_factors := factors |}
          ∈ snd (detectDuplicates sampleNow (s_id S2) sampleStore)
      ∧ ∃ n, n ∈ notifications (fst (detectDuplicates sampleNow (s_id S2) sampleStore))
             ∧ similar sampleNow duplicate_detected "Possible duplicate event detected"
                       (Some (s_id S2)) n.
Proof.
  assert (isS1 S1) as H1 by (vm_compute; done).
  assert (isS2 S2) as H2 by (vm_compute; done).
  split; [exact H1|]. split; [exact H2|].
  destruct (scenario_flagged sampleNow sampleStore S1 S2 H1 H2)
    as (score & factors & Hscore & H75 & Hge & Hflag & Hnotif & _).
  - vm_compute. reflexivity.
  - vm_compute. reflexivity.
  - vm_compute. reflexivity.
  - vm_compute. by left.
  - vm_compute. discriminate.
  - vm_compute. discriminate.
  - vm_compute. lia.
  - unfold dismissed. simpl. intros [H|H]; by apply elem_of_nil in H.
  - exists score, factors. repeat (split; [assumption|]). exact Hnotif.
Defined.

(** Claim C9 as stated fails.  Each store holds S1 and a submission S2 as
    the scenario has them, the pair not dismissed.  After an admin cancelled
    S1, the pass on S2 flags nothing and stores nothing.  With fifty events
    in France created between S1 and S2, S1 is not among the 50 candidates
    the pass examines, and again nothing is flagged.  With duplicate
    detection switched off the pass does nothing.  When S2 was sent twice,
    the pass on the second copy flags the first copy and S1, but the only
    notification it stores is about the two copies: the notification about
    the pair is suppressed. *)
Lemma scenario_as_stated_fails :
  (∃ s1, find_submission cancelledScenario 1 = Some s1 ∧ isS1 s1
         ∧ find_submission cancelledScenario 2 = Some S2 ∧ isS2 S2
         ∧ ¬ dismissed cancelledScenario 2 1
         ∧ detectDuplicates sampleNow 2 cancelledScenario = (cancelledScenario, []))
  ∧ (find_submission crowdedScenario 1 = Some S1 ∧ isS1 S1
     ∧ find_submission crowdedScenario 52 = Some (lateS2 52) ∧ isS2 (lateS2 52)
     ∧ ¬ dismissed crowdedScenario 52 1
     ∧ isSettingEnabled crowdedScenario "duplicate_detection_enabled" = true
     ∧ detectDuplicates sampleNow 52 crowdedScenario = (crowdedScenario, []))
  ∧ (find_submission silentScenario 1 = Some S1
     ∧ find_submission silentScenario 2 = Some S2
     ∧ ¬ dismissed silentScenario 2 1
     ∧ detectDuplicates sampleNow 2 silentScenario = (silentScenario, []))
  ∧ (find_submission tripleScenario 1 = Some S1
     ∧ find_submission tripleScenario 3 = Some (lateS2 3) ∧ isS2 (lateS2 3)
     ∧ ¬ dismissed tripleScenario 3 1
     ∧ map existingSubmissionId (snd (detectDuplicates sampleNow 3 tripleScenario))
       = [2; 1]
     ∧ map (λ n, (n_type n, n_related_submission_id n,
                  match n_metadata n with
                  | Some (MetaDuplicate x y _ _) => Some (x, y)
                  | _ => None
                  end))
           (notifications (fst (detectDuplicates sampleNow 3 tripleScenario)))
       = [(duplicate_detected, Some 3, Some (3, 2))]).
Proof.
  assert (∀ db x, duplicate_dismissals db = [] → ¬ dismissed db x 1) as Hnd.
  { intros db x Hdb. unfold dismissed. rewrite Hdb.
    intros [H|H]; by apply elem_of_nil in H. }
  split; [|split; [|split]].
  - eexists. split; [vm_compute; reflexivity|]. split; [by vm_compute|].
    split; [vm_compute; reflexivity|]. split; [by vm_compute|].
    split; [by apply Hnd|]. vm_compute. reflexivity.
  - split_and!; [vm_compute; reflexivity|by vm_compute|vm_compute; reflexivity
                 |by vm_compute|by apply Hnd|vm_compute; reflexivity
                 |vm_compute; reflexivity].
  - split_and!; [vm_compute; reflexivity..|by apply Hnd|vm_compute; reflexivity].
  - split_and!; [vm_compute; reflexivity|vm_compute; reflexivity|by vm_compute
                 |by apply Hnd|vm_compute; reflexivity|vm_compute; reflexivity].
Qed.

(** On the sample store the pass on the creation of S2 inserts one
    notification, about the pair (S2, S1), with score 1.00. *)
Lemma scenario_notification :
  map (λ n, (n_type n, n_priority n, n_metadata n, n_related_submission_id n))
      (notifications (fst (detectDuplicates sampleNow 2 sampleStore)))
  = [(duplicate_detected, high,
      Some (MetaDuplicate 2 1 100
              ["Same organizer"; "Overlapping dates"; "Same country"; "Similar city";
               "Same event name"]%string),
      Some 2)].
Proof. vm_compute. reflexivity. Qed.

End DuplicateWitnesses.

(** * Batch creation *)

Section Batch.

Lemma truthy_Some x v : truthy x = Some v ↔ x = Some v ∧ v ≠ EmptyString.
Proof. destruct x as [[|]|]; simpl; naive_solver. Qed.

Lemma truthy_None x : truthy x = None ↔ ¬ presentText x.
Proof.
  unfold presentText. destruct x as [[|]|]; simpl; split; try done.
  - intros _ (v & [= <-] & ?). done.
  - intros H. destruct H. by eexists.
  - intros _ (v & ? & ?). done.
Qed.

Lemma truthyNum_Some x v : truthyNum x = Some v ↔ x = Some v ∧ v ≠ 0.
Proof. destruct x as [[| |]|]; simpl; naive_solver. Qed.

Lemma truthyNum_None x : truthyNum x = None ↔ ¬ presentId x.
Proof.
  unfold presentId. destruct x as [[| |]|]; simpl; split; try done.
  - intros _ (v & [= <-] & ?). done.
  - intros H. destruct H. by eexists.
  - intros H. destruct H. by eexists.
  - intros _ (v & ? & ?). done.
Qed.

Lemma presetName_is_Some t v :
  is_Some (presetName t v) ↔ ∃ p, p ∈ t ∧ p_id p = v.
Proof.
  unfold presetName. rewrite fmap_is_Some. split.
  - intros [p [Hin Hp%bool_decide_eq_true]%find_Some_elem]. by exists p.
  - intros (p & Hin & Hp). destruct (List.find _ t) eqn:Hf; [done|].
    apply (find_None_elem _ _ Hf), bool_decide_eq_false in Hin. done.
Qed.

Lemma knownPreset_spec t x v :
  x = Some v → knownPreset t x ↔ is_Some (presetName t v).
Proof.
  intros ->. rewrite presetName_is_Some. unfold knownPreset. split.
  - intros (v' & p & [= <-] & ? & ?). by exists p.
  - intros (p & ? & ?). by exists v, p.
Qed.

Lemma validateEvent_inl db e a b display o n t city country :
  validateEvent db e = inl (a, b, display, o, n, t, city, country) →
  validEvent db e
  ∧ e_start_date e = Some a ∧ e_end_date e = Some b
  ∧ e_organizer_id e = Some o ∧ e_event_name_id e = Some n
  ∧ e_event_type_id e = Some t
  ∧ e_city e = Some city ∧ e_country e = Some country.
Proof.
  unfold validateEvent.
  destruct (e_start_date e) as [a'|] eqn:Ha; [|done].
  destruct (e_end_date e) as [b'|] eqn:Hb; [|done].
  destruct (truthyNum (e_organizer_id e)) as [o'|] eqn:Ho; [|done].
  destruct (truthyNum (e_event_name_id e)) as [n'|] eqn:Hn; [|done].
  destruct (truthyNum (e_event_type_id e)) as [t'|] eqn:Ht; [|done].
  destruct (truthy (e_city e)) as [city'|] eqn:Hci; [|done].
  destruct (truthy (e_country e)) as [country'|] eqn:Hco; [|done].
  destruct (Z.gtb_spec a' b'); [done|].
  destruct (presetName (organizers db) o') eqn:Hpo; [|done].
  destruct (presetName (event_names db) n') eqn:Hpn; [|done].
  destruct (presetName (event_types db) t') eqn:Hpt; [|done].
  intros [= <- <- <- <- <- <- <- <-].
  apply truthyNum_Some in Ho as [Ho ?], Hn as [Hn ?], Ht as [Ht ?].
  apply truthy_Some in Hci as [Hci ?], Hco as [Hco ?].
  split; [|done]. split; [|split].
  - unfold complete, presentId, presentText. rewrite Ha, Hb. split_and!; eauto.
  - intros ? ? Ha' Hb'. rewrite Ha in Ha'. rewrite Hb in Hb'. simplify_eq. lia.
  - unfold knownPresets.
    rewrite (knownPreset_spec _ _ _ Ho), (knownPreset_spec _ _ _ Hn),
      (knownPreset_spec _ _ _ Ht), Hpo, Hpn, Hpt. done.
Qed.

Lemma validateEvent_inr db e err :
  validateEvent db e = inr err → rejection db e err.
Proof.
  unfold validateEvent.
  assert (∀ P : Prop, (complete e → P) → ¬ P → ¬ complete e) as Hno by tauto.
  destruct (e_start_date e) as [a|] eqn:Ha;
    [|intros [= <-]; apply (Hno (is_Some (e_start_date e))); [unfold complete; tauto|];
      rewrite Ha; by intros []].
  destruct (e_end_date e) as [b|] eqn:Hb;
    [|intros [= <-]; apply (Hno (is_Some (e_end_date e))); [unfold complete; tauto|];
      rewrite Hb; by intros []].
  destruct (truthyNum (e_organizer_id e)) as [o|] eqn:Ho;
    [|intros [= <-]; apply truthyNum_None in Ho; simpl; unfold complete; tauto].
  destruct (truthyNum (e_event_name_id e)) as [n|] eqn:Hn;
    [|intros [= <-]; apply truthyNum_None in Hn; simpl; unfold complete; tauto].
  destruct (truthyNum (e_event_type_id e)) as [t|] eqn:Ht;
    [|intros [= <-]; apply truthyNum_None in Ht; simpl; unfold complete; tauto].
  destruct (truthy (e_city e)) as [city|] eqn:Hci;
    [|intros [= <-]; apply truthy_None in Hci; simpl; unfold complete; tauto].
  destruct (truthy (e_country e)) as [country|] eqn:Hco;
    [|intros [= <-]; apply truthy_None in Hco; simpl; unfold complete; tauto].
  apply truthyNum_Some in Ho as [Ho ?], Hn as [Hn ?], Ht as [Ht ?].
  apply truthy_Some in Hci as [Hci ?], Hco as [Hco ?].
  assert (complete e) as Hcomplete.
  { unfold complete, presentId, presentText. rewrite Ha, Hb. split_and!; eauto. }
  destruct (Z.gtb_spec a b) as [Hgt|Hle].
  { intros [= <-]. split; [done|]. intros Hord. specialize (Hord a b Ha Hb). lia. }
  assert (ordered e) as Hordered.
  { intros ? ? Ha' Hb'. rewrite Ha in Ha'. rewrite Hb in Hb'. simplify_eq. lia. }
  assert (knownPresets db e ↔
          is_Some (presetName (organizers db) o)
          ∧ is_Some (presetName (event_names db) n)
          ∧ is_Some (presetName (event_types db) t)) as Hknown.
  { unfold knownPresets.
    by rewrite (knownPreset_spec _ _ _ Ho), (knownPreset_spec _ _ _ Hn),
      (knownPreset_spec _ _ _ Ht). }
  destruct (presetName (organizers db) o), (presetName (event_names db) n),
    (presetName (event_types db) t); intros [= <-];
    (split; [done|split; [done|]]); rewrite Hknown;
    intros (Hk1 & Hk2 & Hk3); by (inversion Hk1 || inversion Hk2 || inversion Hk3).
Qed.

Lemma rejection_not_valid db e err : rejection db e err → ¬ validEvent db e.
Proof. unfold validEvent. destruct err; simpl; tauto. Qed.

Lemma validateEvent_presets db db' e :
  same_presets db db' → validateEvent db' e = validateEvent db e.
Proof. intros (Ho & Hn & Ht). unfold validateEvent. by rewrite Ho, Hn, Ht. Qed.

Lemma validEvent_presets db db' e :
  same_presets db db' → validEvent db' e ↔ validEvent db e.
Proof.
  intros (Ho & Hn & Ht). unfold validEvent, knownPresets. by rewrite Ho, Hn, Ht.
Qed.

Lemma rejection_presets db db' e err :
  same_presets db db' → rejection db' e err ↔ rejection db e err.
Proof.
  intros (Ho & Hn & Ht). unfold rejection, knownPresets. by rewrite Ho, Hn, Ht.
Qed.

Lemma same_presets_refl db : same_presets db db.
Proof. by repeat split. Qed.

Lemma same_presets_trans db1 db2 db3 :
  same_presets db1 db2 → same_presets db2 db3 → same_presets db1 db3.
Proof. unfold same_presets. intros (? & ? & ?) (? & ? & ?). split_and!; congruence. Qed.

Lemma batchStep_spec now username st i e :
  let st' := batchStep now username st i e in
  same_presets (bs_db st) (bs_db st')
  ∧ match validateEvent (bs_db st) e with
    | inr err =>
        bs_db st' = bs_db st ∧ bs_results st' = bs_results st
        ∧ bs_errors st' = bs_errors st ++ [(i, err)]
    | inl _ =>
        ∃ s, submissions (bs_db st') = submissions (bs_db st) ++ [s]
             ∧ createdFrom username e s
             ∧ bs_results st' = bs_results st ++ [(i, s_id s)]
             ∧ bs_errors st' = bs_errors st
    end.
Proof.
  unfold batchStep.
  destruct (validateEvent (bs_db st) e)
    as [[[[[[[[a b] display] o] n] t] city] country]|err] eqn:Hv; simpl.
  - apply validateEvent_inl in Hv as (_ & Ha & Hb & Ho & Hn & Ht & Hci & Hco).
    set (db1 := set_submissions _ _ _).
    set (db2 := logActivity _ _ _ _ db1).
    destruct (detectDuplicates_frame now (submissions_seq (bs_db st) + 1) db2)
      as (_ & Hpo & Hpn & Hpt & Hs & _).
    split; [by split_and!|].
    eexists. split; [by rewrite Hs|]. split; [|done].
    unfold createdFrom. simpl. by split_and!.
  - split; [apply same_presets_refl|done].
Qed.

Lemma batchLoop_spec now username events st i :
  let st' := batchLoop now username st i events in
  same_presets (bs_db st) (bs_db st')
  ∧ ∃ added new_results new_errors,
      submissions (bs_db st') = submissions (bs_db st) ++ added
      ∧ bs_results st' = bs_results st ++ new_results
      ∧ bs_errors st' = bs_errors st ++ new_errors
      ∧ length added = length new_results
      ∧ (length new_results + length new_errors = length events)%nat
      ∧ (∀ j e, events !! j = Some e →
           match validateEvent (bs_db st) e with
           | inl _ => ∃ s, ((i + j)%nat, s_id s) ∈ new_results ∧ s ∈ added
                           ∧ createdFrom username e s
           | inr err => ((i + j)%nat, err) ∈ new_errors
           end)
      ∧ (∀ k id, (k, id) ∈ new_results →
           ∃ j e v, k = (i + j)%nat ∧ events !! j = Some e
                    ∧ validateEvent (bs_db st) e = inl v)
      ∧ (∀ k err, (k, err) ∈ new_errors →
           ∃ j e, k = (i + j)%nat ∧ events !! j = Some e
                  ∧ validateEvent (bs_db st) e = inr err).
Proof.
  revert st i. induction events as [|e events IH]; intros st i; simpl.
  - split; [apply same_presets_refl|]. exists [], [], [].
    rewrite !app_nil_r. split_and!; try done.
    + intros k id Hin. by apply elem_of_nil in Hin.
    + intros k err Hin. by apply elem_of_nil in Hin.
  - destruct (batchStep_spec now username st i e) as [Hp Hstep].
    destruct (IH (batchStep now username st i e) (S i))
      as (Hp' & added & nr & ne & Hs & Hr & He & Hlen & Htot & Hall & Hres & Herr).
    split; [by eapply same_presets_trans|].
    assert (∀ e', validateEvent (bs_db (batchStep now username st i e)) e'
                  = validateEvent (bs_db st) e') as Hsame
      by (intros; by apply validateEvent_presets).
    setoid_rewrite Hsame in Hall. setoid_rewrite Hsame in Hres.
    setoid_rewrite Hsame in Herr.
    destruct (validateEvent (bs_db st) e) as [v|err] eqn:Hv.
    + destruct Hstep as (s & Hs1 & Hcreated & Hr1 & He1).
      exists (s :: added), ((i, s_id s) :: nr), ne.
      rewrite Hs, Hs1, Hr, Hr1, He, He1, <- !app_assoc. simpl.
      split_and!; try done; try lia.
      * intros [|j] e' Hj; simpl in Hj.
        -- simplify_eq. rewrite Hv. exists s. rewrite Nat.add_0_r.
           split_and!; [by left|by left|done].
        -- specialize (Hall j e' Hj). replace (i + S j)%nat with (S i + j)%nat by lia.
           destruct (validateEvent (bs_db st) e'); [|done].
           destruct Hall as (s' & ? & ? & ?). exists s'.
           split_and!; [by right|by right|done].
      * intros k id [[= -> ->]|Hin]%elem_of_cons.
        -- exists O, e, v. by rewrite Nat.add_0_r.
        -- destruct (Hres k id Hin) as (j & e' & v' & -> & ? & ?).
           exists (S j), e', v'. split_and!; [lia|done|done].
      * intros k err Hin. destruct (Herr k err Hin) as (j & e' & -> & ? & ?).
        exists (S j), e'. split_and!; [lia|done|done].
    + destruct Hstep as (Hdb & Hr1 & He1).
      exists added, nr, ((i, err) :: ne).
      rewrite Hs, Hdb, Hr, Hr1, He, He1, <- !app_assoc. simpl.
      split_and!; try done; try lia.
      * intros [|j] e' Hj; simpl in Hj.
        -- simplify_eq. rewrite Hv, Nat.add_0_r. by left.
        -- specialize (Hall j e' Hj). replace (i + S j)%nat with (S i + j)%nat by lia.
           destruct (validateEvent (bs_db st) e'); [done|by right].
      * intros k id Hin. destruct (Hres k id Hin) as (j & e' & v' & -> & ? & ?).
        exists (S j), e', v'. split_and!; [lia|done|done].
      * intros k err' [[= -> ->]|Hin]%elem_of_cons.
        -- exists O, e. by rewrite Nat.add_0_r.
        -- destruct (Herr k err' Hin) as (j & e' & -> & ? & ?).
           exists (S j), e'. split_and!; [lia|done|done].
Qed.

(** Claim C10.  For a non-empty list of events the batch endpoint answers
    a report: every valid event has a result with the id of a [pending]
    submission stored with its fields and has no error; every invalid event
    has an error at its index, with the reason of the rejection, and no
    result; [ok] is true exactly when every event is valid.  The store gains
    one submission for each result, and results and errors together count
    the events. *)
Theorem batch_independent now username events db :
  events ≠ [] →
  ∃ db' r,
    createBatch now username (Some events) db = (db', Ok r)
    ∧ (∀ i e, events !! i = Some e → validEvent db e →
         (∃ id s, (i, id) ∈ b_results r ∧ s ∈ submissions db' ∧ s_id s = id
                  ∧ createdFrom username e s)
         ∧ ∀ err, (i, err) ∉ b_errors r)
    ∧ (∀ i e, events !! i = Some e → ¬ validEvent db e →
         (∃ err, (i, err) ∈ b_errors r ∧ rejection db e err)
         ∧ ∀ id, (i, id) ∉ b_results r)
    ∧ (b_ok r = true ↔ ∀ e, e ∈ events → validEvent db e)
    ∧ length (submissions db') = (length (submissions db) + b_submitted r)%nat
    ∧ (b_submitted r + b_failed r = length events)%nat.
Proof.
  intros Hne. unfold createBatch.
  destruct events as [|e0 events0] eqn:Hev; [done|]. rewrite <- Hev. clear Hne.
  set (st0 := {| bs_db := db; bs_results := []; bs_errors := [] |}).
  destruct (batchLoop_spec now username events st0 O)
    as (_ & added & nr & ne & Hs & Hr & He & Hlen & Htot & Hall & Hres & Herr).
  simpl in Hs, Hr, He, Hall, Hres, Herr.
  eexists _, _. split; [reflexivity|]. simpl. rewrite Hs, Hr, He.
  assert (∀ i e, events !! i = Some e → validEvent db e →
                 ∃ v, validateEvent db e = inl v) as Hvalid.
  { intros i e _ Hval. destruct (validateEvent db e) as [v|err] eqn:Hv; [by exists v|].
    by apply validateEvent_inr, rejection_not_valid in Hv. }
  assert (∀ e v, validateEvent db e = inl v → validEvent db e) as Hinl.
  { intros e [[[[[[[a b] display] o] n] t] city] country] Hv.
    by apply validateEvent_inl in Hv as [? _]. }
  split_and!.
  - intros i e Hi Hval. destruct (Hvalid i e Hi Hval) as [v Hv].
    specialize (Hall i e Hi). rewrite Hv in Hall. destruct Hall as (s & Hin & Hadd & Hc).
    split.
    + exists (s_id s), s. split_and!; [done| |done|done].
      apply elem_of_app. by right.
    + intros err (j & e' & [= <-] & Hj & Hv')%Herr.
      rewrite Hi in Hj. simplify_eq. congruence.
  - intros i e Hi Hinv.
    destruct (validateEvent db e) as [v|err] eqn:Hv; [by apply Hinl in Hv|].
    specialize (Hall i e Hi). rewrite Hv in Hall. split.
    + exists err. split; [done|]. by apply validateEvent_inr.
    + intros id (j & e' & v' & [= <-] & Hj & Hv')%Hres.
      rewrite Hi in Hj. simplify_eq. congruence.
  - rewrite Nat.eqb_eq. split.
    + intros Hnil e (i & Hi)%list_elem_of_lookup.
      destruct (validateEvent db e) as [v|err] eqn:Hv; [by apply Hinl in Hv|].
      specialize (Hall i e Hi). rewrite Hv in Hall.
      destruct ne; [by apply elem_of_nil in Hall|done].
    + intros Hallvalid. destruct ne as [|[k err] ne']; [done|].
      destruct (Herr k err) as (j & e & _ & Hj & Hv); [by left|].
      apply validateEvent_inr, rejection_not_valid in Hv. destruct Hv.
      apply Hallvalid. by apply list_elem_of_lookup_2 in Hj.
  - rewrite length_app. lia.
  - done.
Qed.

Lemma batch_independent_witness :
  sampleEvents ≠ []
  ∧ ∃ db' r,
      createBatch sampleNow "alice" (Some sampleEvents) sampleStore = (db', Ok r)
      ∧ (b_ok r = true ↔ ∀ e, e ∈ sampleEvents → validEvent sampleStore e)
      ∧ length (submissions db') = (length (submissions sampleStore) + b_submitted r)%nat.
Proof.
  assert (sampleEvents ≠ []) as Hne by discriminate.
  split; [exact Hne|].
  destruct (batch_independent sampleNow "alice" sampleEvents sampleStore Hne)
    as (db' & r & Heq & _ & _ & Hok & Hlen & _).
  exists db', r. split; [exact Heq|]. split; [exact Hok|exact Hlen].
Defined.

(** The batch of the sample events: the first and the last are stored, the
    second ends before it starts, the third names an unknown organizer. *)
Lemma batch_sample :
  let result := createBatch sampleNow "alice" (Some sampleEvents) sampleStore in
  (b_results <$> match snd result with Ok r => Some r | Error _ => None end)
  = Some [(0%nat, 3); (3%nat, 4)]
  ∧ (b_errors <$> match snd result with Ok r => Some r | Error _ => None end)
    = Some [(1%nat, EndBeforeStart); (2%nat, InvalidPresetSelection)]
  ∧ (b_ok <$> match snd result with Ok r => Some r | Error _ => None end) = Some false
  ∧ map (λ s, (s_id s, s_status s, s_city s)) (submissions (fst result))
    = [(1, pending, "Paris"); (2, pending, "Paris"); (3, pending, "Lyon");
       (4, pending, "Turin")]%string.
Proof. vm_compute. done. Qed.

End Batch.

(** * Availability on the sample store *)

Section AvailabilityWitnesses.

Lemma staffedStore_ids s : s ∈ submissions staffedStore → s_id s ≠ 0.
Proof.
  vm_compute submissions.
  intros Hs. repeat (apply elem_of_cons in Hs as [->|Hs]; [done|]).
  by apply elem_of_nil in Hs.
Qed.

Lemma availability_classification_witness :
  fromYMD 2026 1 10 ≤ fromYMD 2026 1 16
  ∧ counsellorA ∈ counsellors staffedStore
  ∧ c_is_active counsellorA = true
  ∧ ∃ rows (B : gset date),
      getAvailability utc staffedStore (Some (fromYMD 2026 1 10)) (Some (fromYMD 2026 1 16))
                      None = Ok rows
      ∧ (∀ d, d ∈ B ↔ busyDay staffedStore (c_id counsellorA)
                              (fromYMD 2026 1 10) (fromYMD 2026 1 16) None d)
      ∧ ∀ r, r ∈ rows → r_id r = c_id counsellorA →
          (r_status r = partially_available
           ↔ B ≠ ∅ ∧ Z.of_nat (size B) < fromYMD 2026 1 16 - fromYMD 2026 1 10 + 1).
Proof.
  assert (fromYMD 2026 1 10 ≤ fromYMD 2026 1 16) as Hq by (vm_compute; discriminate).
  assert (counsellorA ∈ counsellors staffedStore) as Hc
    by (vm_compute; apply list_elem_of_In; simpl; tauto).
  split; [exact Hq|]. split; [exact Hc|]. split; [reflexivity|].
  destruct (availability_classification utc steady_utc staffedStore (fromYMD 2026 1 10)
              (fromYMD 2026 1 16) None counsellorA Hq Hc eq_refl staffedStore_ids)
    as (rows & B & Hrows & _ & _ & HB & Hst).
  exists rows, B. split; [exact Hrows|]. split; [exact HB|].
  intros r Hr Hid. exact (proj2 (proj2 (Hst r Hr Hid))).
Defined.

Lemma partial_ranges_cover_witness :
  let qStart := fromYMD 2026 1 10 in
  let qEnd := fromYMD 2026 1 16 in
  let r := availabilityOf utc staffedStore qStart qEnd None counsellorA in
  r_status r = partially_available
  ∧ r_available_ranges r = "2026-01-13 -> 2026-01-16"%string
  ∧ ∃ runs,
      r_available_ranges r = join ", " (map renderRange runs)
      ∧ separated runs
      ∧ (∀ d, covered runs d ∨ d ∈ busySetFor utc staffedStore 1 qStart qEnd None
              ↔ qStart ≤ d ≤ qEnd).
Proof.
  intros qStart qEnd r.
  assert (r_status r = partially_available) as Hst by (vm_compute; reflexivity).
  split; [exact Hst|]. split; [vm_compute; reflexivity|].
  destruct (partial_ranges_cover utc steady_utc staffedStore qStart qEnd None counsellorA
              (map (availabilityOf utc staffedStore qStart qEnd None)
                   (activeCounsellors staffedStore))
              r (busySetFor utc staffedStore 1 qStart qEnd None))
    as (runs & Hfmt & Hsep & _ & Hcover).
  - exact staffedStore_ids.
  - reflexivity.
  - apply list_elem_of_fmap. exists counsellorA. split; [reflexivity|].
    vm_compute. apply list_elem_of_In. simpl. tauto.
  - reflexivity.
  - exact Hst.
  - intros d. apply elem_of_busySetFor; [exact steady_utc|exact staffedStore_ids].
  - exists runs. split; [exact Hfmt|]. split; [exact Hsep|exact Hcover].
Defined.

End AvailabilityWitnesses.

(** * Further properties of the routes and jobs *)

Section Levenshtein.

Lemma editDistance_nil_r s : editDistance s "" = String.length s.
Proof. by destruct s. Qed.

Lemma editDistance_nil_l t : editDistance "" t = String.length t.
Proof. by destruct t. Qed.

Lemma editDistance_cons a s b t :
  editDistance (String a s) (String b t) =
    if Ascii.eqb a b then editDistance s t
    else S (Nat.min (editDistance s (String b t))
                    (Nat.min (editDistance (String a s) t) (editDistance s t))).
Proof. done. Qed.

Lemma editDistance_sym s t : editDistance s t = editDistance t s.
Proof.
  revert t. induction s as [|a s IH]; intros t.
  - by rewrite editDistance_nil_r, editDistance_nil_l.
  - induction t as [|b t IHt]; [by rewrite editDistance_nil_r, editDistance_nil_l|].
    rewrite !editDistance_cons, (Ascii.eqb_sym b a), IHt, !IH.
    destruct (Ascii.eqb a b); [done|]. f_equal. lia.
Qed.

Lemma editDistance_refl s : editDistance s s = 0%nat.
Proof.
  induction s as [|a s IH]; [done|].
  by rewrite editDistance_cons, Ascii.eqb_refl.
Qed.

Lemma editDistance_zero s t : editDistance s t = 0%nat → s = t.
Proof.
  revert t. induction s as [|a s IH]; intros [|b t]; simpl; try done.
  fold (editDistance s). destruct (Ascii.eqb_spec a b) as [->|]; [|done].
  by intros ->%IH.
Qed.

Lemma editDistance_le s t :
  (editDistance s t ≤ Nat.max (String.length s) (String.length t))%nat.
Proof.
  revert t. induction s as [|a s IH]; intros t.
  - simpl. destruct t; simpl; lia.
  - induction t as [|b t IHt]; [simpl; lia|].
    rewrite editDistance_cons. specialize (IH t).
    destruct (Ascii.eqb a b); simpl in *; lia.
Qed.

Lemma editDistance_ge s t :
  (String.length s - String.length t ≤ editDistance s t)%nat.
Proof.
  revert t. induction s as [|a s IH]; intros t.
  - simpl. lia.
  - induction t as [|b t IHt]; [simpl; lia|].
    rewrite editDistance_cons.
    pose proof (IH t). pose proof (IH (String b t)).
    destruct (Ascii.eqb a b); simpl in *; lia.
Qed.

Lemma rev_app_length s acc :
  String.length (String.rev_app s acc) = (String.length s + String.length acc)%nat.
Proof.
  revert acc. induction s as [|a s IH]; intros acc; simpl; [done|].
  rewrite IH. simpl. lia.
Qed.

Lemma rev_app_rev_app s a b :
  String.rev_app (String.rev_app s a) b = String.rev_app a (s ++ b)%string.
Proof.
  revert a b. induction s as [|c s IH]; intros a b; simpl; [done|].
  by rewrite IH.
Qed.

Lemma rev_involutive s : String.rev (String.rev s) = s.
Proof.
  unfold String.rev. rewrite rev_app_rev_app. cbn [String.rev_app].
  induction s as [|c s IH]; [done|].
  change (String c (s ++ "")%string = String c s). by rewrite IH.
Qed.

Lemma rev_inj s t : String.rev s = String.rev t → s = t.
Proof. intros H. by rewrite <- (rev_involutive s), H, rev_involutive. Qed.

Lemma rev_length s : String.length (String.rev s) = String.length s.
Proof. unfold String.rev. rewrite rev_app_length. simpl. lia. Qed.

(** One pass of the inner loop computes the next row of the table. *)
Lemma levRow_tableRow c R acc rem :
  levRow c rem (editDistance R acc) (tableRow R acc rem)
         (editDistance (String c R) acc)
  = tableRow (String c R) acc rem.
Proof.
  revert acc. induction rem as [|c2 rem IH]; intros acc; [done|].
  cbn [levRow tableRow]. rewrite <- IH. rewrite editDistance_cons. done.
Qed.

Lemma tableRow_first acc rem :
  tableRow "" acc rem = seq (S (String.length acc)) (String.length rem).
Proof.
  revert acc. induction rem as [|c rem IH]; intros acc; [done|].
  simpl. by rewrite IH.
Qed.

Lemma levRows_tableRow str1 str2 R :
  levRows str1 str2 (String.length R) (String.length R :: tableRow R "" str2)
  = String.length (String.rev_app str1 R) :: tableRow (String.rev_app str1 R) "" str2.
Proof.
  revert R. induction str1 as [|c str1 IH]; intros R; [done|].
  cbn [levRows hd tl].
  pose proof (levRow_tableRow c R "" str2) as Hrow.
  rewrite !editDistance_nil_r in Hrow. cbn [String.length] in Hrow.
  rewrite Hrow. apply (IH (String c R)).
Qed.

Lemma last_tableRow R acc rem :
  List.last (editDistance R acc :: tableRow R acc rem) 0%nat
  = editDistance R (String.rev_app rem acc).
Proof.
  revert acc. induction rem as [|c rem IH]; intros acc; [done|].
  cbn [tableRow String.rev_app]. rewrite <- IH. done.
Qed.

(** The table of [levenshteinDistance] holds the edit distances of the
    prefixes; its last entry is the distance of the two texts. *)
Lemma levenshteinDistance_editDistance str1 str2 :
  levenshteinDistance str1 str2 = editDistance (String.rev str1) (String.rev str2).
Proof.
  unfold levenshteinDistance. cbn [seq].
  pose proof (levRows_tableRow str1 str2 "") as H.
  rewrite tableRow_first in H. cbn [String.length] in H. rewrite H.
  rewrite <- (editDistance_nil_r (String.rev_app str1 "")).
  by rewrite last_tableRow.
Qed.

End Levenshtein.

Section TextDistance.

Lemma levenshteinDistance_comm str1 str2 :
  levenshteinDistance str1 str2 = levenshteinDistance str2 str1.
Proof. rewrite !levenshteinDistance_editDistance. apply editDistance_sym. Qed.

Lemma levenshteinDistance_same str : levenshteinDistance str str = 0%nat.
Proof. rewrite levenshteinDistance_editDistance. apply editDistance_refl. Qed.

(** Property X1.  [levenshteinDistance] is 0 exactly for equal texts, does
    not depend on the order of its two arguments, is the length of the text
    when the other text is empty, is at most the length of the longer text
    and at least the difference of the two lengths. *)
Theorem levenshteinDistance_properties (str1 str2 : string) :
  (levenshteinDistance str1 str2 = 0%nat ↔ str1 = str2)
  ∧ levenshteinDistance str1 str2 = levenshteinDistance str2 str1
  ∧ levenshteinDistance str1 "" = String.length str1
  ∧ (levenshteinDistance str1 str2
     ≤ Nat.max (String.length str1) (String.length str2))%nat
  ∧ (String.length str1 - String.length str2 ≤ levenshteinDistance str1 str2)%nat
  ∧ (String.length str2 - String.length str1 ≤ levenshteinDistance str1 str2)%nat.
Proof.
  rewrite !levenshteinDistance_editDistance.
  pose proof (editDistance_le (String.rev str1) (String.rev str2)) as Hle.
  pose proof (editDistance_ge (String.rev str1) (String.rev str2)) as Hge.
  pose proof (editDistance_ge (String.rev str2) (String.rev str1)) as Hge'.
  rewrite (editDistance_sym (String.rev str2)) in Hge'.
  rewrite !rev_length in *.
  split_and!; try done.
  - split.
    + by intros ?%editDistance_zero%rev_inj.
    + intros ->. apply editDistance_refl.
  - apply editDistance_sym.
  - by rewrite editDistance_nil_r, rev_length.
Qed.


End TextDistance.

Section Overlap.

Lemma datesOverlap_sym a b c d : datesOverlap a b c d = datesOverlap c d a b.
Proof.
  unfold datesOverlap.
  destruct (Z.ltb_spec b c), (Z.gtb_spec a d), (Z.ltb_spec d a), (Z.gtb_spec c b);
    simpl; (done || lia).
Qed.

(** Property X2.  The overlap test of the similarity score and the SQL
    overlap condition of the availability queries are the same test; it
    does not depend on the order of the two ranges, and for two ranges that
    do not end before they start it holds exactly when the ranges share a
    day (bounds included). *)
Theorem datesOverlap_shared_day (start1 end1 start2 end2 : date) :
  datesOverlap start1 end1 start2 end2 = overlapCondition start1 end1 start2 end2
  ∧ datesOverlap start1 end1 start2 end2 = datesOverlap start2 end2 start1 end1
  ∧ (start1 ≤ end1 → start2 ≤ end2 →
     (datesOverlap start1 end1 start2 end2 = true
      ↔ ∃ day, start1 ≤ day ≤ end1 ∧ start2 ≤ day ≤ end2)).
Proof.
  split; [done|]. split; [apply datesOverlap_sym|].
  unfold datesOverlap. intros H1 H2.
  destruct (Z.ltb_spec end1 start2), (Z.gtb_spec start1 end2); simpl;
    (split; [try done|intros (day & ? & ?); try lia]).
  intros _. exists (Z.max start1 start2). lia.
Qed.

End Overlap.

Section Similarity.

Lemma both_and_equal {A} `{EqDecision A} (p q : bool) (x y : A) :
  p && q && bool_decide (x = y) = q && p && bool_decide (y = x).
Proof.
  rewrite (bool_decide_ext (x = y) (y = x)) by (split; congruence).
  by destruct p, q.
Qed.

Lemma citySimilar_sym city1 city2 : citySimilar city1 city2 = citySimilar city2 city1.
Proof.
  unfold citySimilar. by rewrite levenshteinDistance_comm, Nat.max_comm.
Qed.

Lemma citySimilar_same city : city ≠ EmptyString → citySimilar city city = true.
Proof.
  intros Hne. unfold citySimilar. rewrite levenshteinDistance_same.
  destruct city; [done|]. done.
Qed.

(** Property X3.  [calculateSimilarity] gives the same score and the same
    factors whichever of the two submissions comes first; the score lies
    between 0 and 1 (0 to 100 hundredths) and at most five factors are
    listed. *)
Theorem calculateSimilarity_sym_bounds (sub1 sub2 : submission) :
  calculateSimilarity sub1 sub2 = calculateSimilarity sub2 sub1
  ∧ 0 ≤ fst (calculateSimilarity sub1 sub2) ≤ 100
  ∧ (length (snd (calculateSimilarity sub1 sub2)) ≤ 5)%nat.
Proof.
  split.
  - unfold calculateSimilarity.
    rewrite (both_and_equal _ _ (s_organizer_id sub2)).
    rewrite (both_and_equal _ _ (toLowerCase (s_organizer sub2))).
    rewrite (datesOverlap_sym (s_start_date sub2)).
    rewrite (both_and_equal _ _ (toLowerCase (s_country sub2))).
    rewrite (citySimilar_sym (toLowerCase (s_city sub2))).
    rewrite (andb_comm (truthyText (s_city sub2))).
    rewrite (both_and_equal _ _ (s_event_name_id sub2)).
    done.
  - unfold calculateSimilarity.
    repeat match goal with
           | |- context [if ?c then _ else _] => destruct c
           end; simpl; lia.
Qed.

(** Property X4.  A submission compared with itself, or with an exact copy,
    scores 1.00 with all five factors, when its organizer and event-name
    presets are set, its country and city are not empty and it does not end
    before it starts. *)
Theorem calculateSimilarity_copy (sub1 sub2 : submission) :
  presentId (s_organizer_id sub1) → presentId (s_event_name_id sub1) →
  s_country sub1 ≠ EmptyString → s_city sub1 ≠ EmptyString →
  s_start_date sub1 ≤ s_end_date sub1 →
  s_organizer_id sub2 = s_organizer_id sub1 →
  s_event_name_id sub2 = s_event_name_id sub1 →
  s_country sub2 = s_country sub1 → s_city sub2 = s_city sub1 →
  s_start_date sub2 = s_start_date sub1 → s_end_date sub2 = s_end_date sub1 →
  calculateSimilarity sub1 sub2
  = (100, ["Same organizer"; "Overlapping dates"; "Same country"; "Similar city";
           "Same event name"]%string).
Proof.
  intros (o & Ho & Hon) (e & He & Hen) Hco Hci Hle Ho2 He2 Hco2 Hci2 Hs2 He2'.
  unfold calculateSimilarity.
  rewrite Ho2, He2, Hco2, Hci2, Hs2, He2', Ho, He. simpl.
  destruct (Z.eqb_spec o 0) as [?|_]; [done|].
  destruct (Z.eqb_spec e 0) as [?|_]; [done|].
  rewrite !bool_decide_eq_true_2 by done. simpl.
  assert (datesOverlap (s_start_date sub1) (s_end_date sub1)
                       (s_start_date sub1) (s_end_date sub1) = true) as ->.
  { unfold datesOverlap.
    destruct (Z.ltb_spec (s_end_date sub1) (s_start_date sub1)),
      (Z.gtb_spec (s_start_date sub1) (s_end_date sub1)); simpl; (done || lia). }
  assert (truthyText (s_country sub1) = true) as -> by (by destruct (s_country sub1)).
  assert (truthyText (s_city sub1) = true) as -> by (by destruct (s_city sub1)).
  rewrite citySimilar_same by (by destruct (s_city sub1)).
  by rewrite !bool_decide_eq_true_2 by done.
Qed.

Lemma calculateSimilarity_copy_witness :
  presentId (s_organizer_id S1) ∧ presentId (s_event_name_id S1)
  ∧ s_country S1 ≠ EmptyString ∧ s_city S1 ≠ EmptyString
  ∧ s_start_date S1 ≤ s_end_date S1
  ∧ calculateSimilarity S1 S1
    = (100, ["Same organizer"; "Overlapping dates"; "Same country"; "Similar city";
             "Same event name"]%string).
Proof.
  assert (presentId (s_organizer_id S1)) as H1
    by (exists 5; split; [reflexivity|discriminate]).
  assert (presentId (s_event_name_id S1)) as H2
    by (exists 1; split; [reflexivity|discriminate]).
  assert (s_country S1 ≠ EmptyString) as H3 by discriminate.
  assert (s_city S1 ≠ EmptyString) as H4 by discriminate.
  assert (s_start_date S1 ≤ s_end_date S1) as H5 by (vm_compute; discriminate).
  repeat (split; [assumption|]).
  exact (calculateSimilarity_copy S1 S1 H1 H2 H3 H4 H5 eq_refl eq_refl eq_refl eq_refl
                                  eq_refl eq_refl).
Defined.

End Similarity.

Section RepeatedNotifications.

Lemma find_app_last {A} (f : A → bool) (l : list A) (x : A) :
  (∀ y, y ∈ l → f y = false) → f x = true → List.find f (l ++ [x]) = Some x.
Proof.
  intros Hl Hx. induction l as [|y l IH]; simpl; [by rewrite Hx|].
  rewrite (Hl y) by (by left). apply IH. intros z Hz. apply Hl. by right.
Qed.

Lemma find_none_iff {A} (f : A → bool) (l : list A) :
  (∀ y, y ∈ l → f y = false) → List.find f l = None.
Proof.
  intros Hl. induction l as [|y l IH]; simpl; [done|].
  rewrite (Hl y) by (by left). apply IH. intros z Hz. apply Hl. by right.
Qed.

(** Property X5.  A notification (of a type other than the weekly report)
    that found no similar one and was inserted suppresses every request of
    the same type, title and related submission made within the next hour:
    the later request leaves the store as it is and returns the id of the
    first notification, whatever its own priority, message and metadata. *)
Theorem createNotification_repeat now now' type prio title message meta role user rel db :
  type ≠ weekly_report →
  related_exists db rel →
  (∀ n, n ∈ notifications db → ¬ similar now type title rel n) →
  now ≤ now' < now + 3600 →
  let first := createNotification now type prio title message meta role user rel db in
  snd first = Some (notifications_seq db + 1)
  ∧ notifications (fst first)
    = notifications db
      ++ [new_notification (notifications_seq db + 1) now type prio title message meta
                           role user rel]
  ∧ ∀ prio' message' meta' role' user',
      createNotification now' type prio' title message' meta' role' user' rel (fst first)
      = (fst first, Some (notifications_seq db + 1)).
Proof.
  intros Htype Hrel Hnone Hnow. unfold createNotification.
  rewrite decide_False by done.
  rewrite find_none_iff
    by (intros n Hn; apply bool_decide_eq_false; by apply Hnone).
  rewrite decide_True by done. simpl. split; [done|]. split; [done|].
  intros prio' message' meta' role' user'.
  rewrite decide_False by done.
  set (new := new_notification _ _ _ _ _ _ _ _ _ _).
  rewrite (find_app_last _ _ new); [done| |].
  - intros n Hn. apply bool_decide_eq_false. intros (? & ? & ? & ? & ?).
    apply (Hnone n Hn). unfold similar. split_and!; try done. lia.
  - apply bool_decide_eq_true. unfold similar, new. simpl. split_and!; try done. lia.
Qed.

Lemma createNotification_repeat_witness :
  related_exists sampleStore (Some 2)
  ∧ (∀ n, n ∈ notifications sampleStore →
          ¬ similar sampleNow duplicate_detected "Possible duplicate event detected"
                    (Some 2) n)
  ∧ let first := createNotification sampleNow duplicate_detected high
                   "Possible duplicate event detected" "first" None "admin" None
                   (Some 2) sampleStore in
    createNotification (sampleNow + 60) duplicate_detected medium
      "Possible duplicate event detected" "second" None "admin" None (Some 2) (fst first)
    = (fst first, Some 1).
Proof.
  assert (related_exists sampleStore (Some 2)) as Hrel by (vm_compute; eauto).
  assert (∀ n, n ∈ notifications sampleStore →
               ¬ similar sampleNow duplicate_detected "Possible duplicate event detected"
                         (Some 2) n) as Hnone
    by (intros n Hn; by apply elem_of_nil in Hn).
  split; [exact Hrel|]. split; [exact Hnone|].
  assert (sampleNow ≤ sampleNow + 60 < sampleNow + 3600) as Hnow by lia.
  assert (duplicate_detected ≠ weekly_report) as Htype by discriminate.
  exact (proj2 (proj2 (createNotification_repeat sampleNow (sampleNow + 60)
                         duplicate_detected high "Possible duplicate event detected"
                         "first" None "admin" None (Some 2) sampleStore
                         Htype Hrel Hnone Hnow))
               medium "second"%string None "admin"%string None).
Defined.

(** A run of requests with one type, title and related submission appends
    at most one notification. *)
Lemma requests_append_at_most_one {A} now type title rel (P : notification → Prop)
      (request : store → A → store) (l : list A) db :
  (∀ db0 x,
     request db0 x = db0
     ∨ ((∀ n, n ∈ notifications db0 → ¬ similar now type title rel n)
        ∧ ∃ n, notifications (request db0 x) = notifications db0 ++ [n]
               ∧ similar now type title rel n ∧ P n)) →
  notifications (foldl request db l) = notifications db
  ∨ ∃ n, notifications (foldl request db l) = notifications db ++ [n] ∧ P n.
Proof.
  intros Hreq.
  assert (∀ k db', (∃ n, n ∈ notifications db' ∧ similar now type title rel n) →
                   foldl request db' k = db') as Hstay.
  { induction k as [|x k IH]; intros db' (n & Hn & Hsim); [done|]. simpl.
    destruct (Hreq db' x) as [->|[Hnone _]]; [apply IH; eauto|].
    by destruct (Hnone n Hn). }
  revert db. induction l as [|x l IH]; intros db; [by left|]. simpl.
  destruct (Hreq db x) as [->|[_ (n & Heq & Hsim & HP)]]; [apply IH|].
  right. exists n. rewrite Hstay; [done|].
  exists n. split; [|done]. rewrite Heq. apply elem_of_app. right. by left.
Qed.

(** Property X6.  One run of [checkCounsellorOverload] changes nothing but
    the notifications and stores at most one alert, however many overloaded
    counsellors it counts: the alerts share their title, so the first one
    suppresses the others. *)
Theorem checkCounsellorOverload_one_alert now db :
  same_but_notifications db (fst (checkCounsellorOverload now db))
  ∧ (notifications (fst (checkCounsellorOverload now db)) = notifications db
     ∨ ∃ alert,
         notifications (fst (checkCounsellorOverload now db))
         = notifications db ++ [alert]
         ∧ n_type alert = staffing_warning ∧ n_status alert = unread
         ∧ n_created_at alert = now).
Proof.
  split; [apply checkCounsellorOverload_frame|].
  unfold checkCounsellorOverload. destruct (negb _); [by left|]. cbn [fst].
  set (threshold := parseInt _).
  apply (requests_append_at_most_one now staffing_warning
           "Counsellor workload alert" None
           (λ n, n_type n = staffing_warning ∧ n_status n = unread
                 ∧ n_created_at n = now)).
  intros db0 row.
  destruct (raiseOverload_cases now threshold db0 row)
    as [(existing & ? & ? & ?)|[Hnone Happ]]; [by left|right].
  split; [done|]. eexists. split; [done|].
  unfold similar, overloadNotification. simpl. split_and!; try done. lia.
Qed.

End RepeatedNotifications.

Section DuplicatePass.

Lemma createNotification_either now type prio title message meta role user rel db :
  type ≠ weekly_report →
  fst (createNotification now type prio title message meta role user rel db) = db
  ∨ ((∀ n, n ∈ notifications db → ¬ similar now type title rel n)
     ∧ notifications
         (fst (createNotification now type prio title message meta role user rel db))
       = notifications db
         ++ [new_notification (notifications_seq db + 1) now type prio title message
                              meta role user rel]).
Proof.
  intros Htype. unfold createNotification. rewrite decide_False by done.
  destruct (List.find _ _) eqn:Hfind; [by left|].
  case_decide; [|by left]. right. split; [|done].
  intros n Hn. by apply (find_None_elem _ _ Hfind), bool_decide_eq_false in Hn.
Qed.

Lemma elem_of_candidatesQuery db x newSub candidate :
  candidate ∈ candidatesQuery db x newSub →
  candidate ∈ submissions db ∧ s_id candidate ≠ x
  ∧ s_event_status candidate ≠ CANCELLED
  ∧ (s_country candidate = s_country newSub
     ∨ (s_start_date candidate ≤ s_end_date newSub
        ∧ s_start_date newSub ≤ s_end_date candidate)).
Proof.
  unfold candidatesQuery. intros (i & Hi & _)%elem_of_take.
  apply list_elem_of_lookup_2 in Hi.
  rewrite merge_sort_Permutation in Hi.
  apply list_elem_of_filter in Hi. tauto.
Qed.

Lemma length_candidatesQuery db x newSub :
  (length (candidatesQuery db x newSub) ≤ 50)%nat.
Proof. unfold candidatesQuery. rewrite length_take. lia. Qed.

(** What the loop over the candidates has flagged. *)
Lemma checkCandidates_sound now threshold x newSub db candidates acc :
  same_but_notifications db (fst acc) →
  let result := foldl (checkCandidate now threshold x newSub) acc candidates in
  (length (snd result) ≤ length (snd acc) + length candidates)%nat
  ∧ ∀ dup, dup ∈ snd result →
      dup ∈ snd acc
      ∨ ∃ candidate t,
          candidate ∈ candidates
          ∧ existingSubmissionId dup = s_id candidate
          ∧ ¬ dismissed db x (s_id candidate)
          ∧ calculateSimilarity newSub candidate = (dup_score dup, dup_factors dup)
          ∧ threshold = Some t
          ∧ hundredths_ge (dup_score dup) t = true.
Proof.
  revert acc. induction candidates as [|candidate rest IH]; intros acc Hframe.
  - simpl. split; [lia|]. intros dup ?. by left.
  - simpl.
    destruct (IH (checkCandidate now threshold x newSub acc candidate)) as [IHlen IHdup].
    { eapply same_but_notifications_trans; [done|apply checkCandidate_frame]. }
    assert ((length (snd (checkCandidate now threshold x newSub acc candidate))
             ≤ length (snd acc) + 1)%nat
            ∧ ∀ dup, dup ∈ snd (checkCandidate now threshold x newSub acc candidate) →
                dup ∈ snd acc
                ∨ (existingSubmissionId dup = s_id candidate
                   ∧ ¬ dismissed db x (s_id candidate)
                   ∧ calculateSimilarity newSub candidate
                     = (dup_score dup, dup_factors dup)
                   ∧ ∃ t, threshold = Some t ∧ hundredths_ge (dup_score dup) t = true))
      as [Hlen Hdup].
    { unfold checkCandidate. destruct acc as [db0 dups]. simpl in Hframe.
      case_decide as Hd; [split; [simpl; lia|by left]|].
      destruct (calculateSimilarity newSub candidate) as [score factors] eqn:Hscore.
      destruct threshold as [t|]; simpl; [|split; [lia|by left]].
      destruct (hundredths_ge score t) eqn:Hge; simpl; [|split; [lia|by left]].
      split; [rewrite length_app; simpl; lia|].
      intros dup [?| ->%list_elem_of_singleton]%elem_of_app; [by left|right].
      simpl. split_and!; try done; [|by exists t].
      by rewrite <- (dismissed_frame db db0). }
    split; [simpl in *; lia|].
    intros dup [Hin|(c & t & ? & ? & ? & ? & ? & ?)]%IHdup.
    + apply Hdup in Hin as [?|(? & ? & ? & t & ? & ?)]; [by left|right].
      exists candidate, t. split_and!; try done. by left.
    + right. exists c, t. split_and!; try done. by right.
Qed.

(** Property X7.  A duplicate-detection pass returns at most 50 flags, and
    none when detection is switched off or the submission does not exist.
    Every flag names another submission of the store that is not cancelled,
    shares the country of the new submission or overlaps its dates, is not
    dismissed for the pair, and whose similarity score, the one reported,
    reaches the configured threshold. *)
Theorem detectDuplicates_sound now x db :
  let result := detectDuplicates now x db in
  (length (snd result) ≤ 50)%nat
  ∧ (isSettingEnabled db "duplicate_detection_enabled" = false → result = (db, []))
  ∧ (find_submission db x = None → result = (db, []))
  ∧ ∀ dup, dup ∈ snd result →
      ∃ newSub candidate t,
        find_submission db x = Some newSub
        ∧ candidate ∈ submissions db
        ∧ existingSubmissionId dup = s_id candidate
        ∧ s_id candidate ≠ x
        ∧ s_event_status candidate ≠ CANCELLED
        ∧ (s_country candidate = s_country newSub
           ∨ (s_start_date candidate ≤ s_end_date newSub
              ∧ s_start_date newSub ≤ s_end_date candidate))
        ∧ ¬ dismissed db x (s_id candidate)
        ∧ calculateSimilarity newSub candidate = (dup_score dup, dup_factors dup)
        ∧ parseFloat (settingOr db "duplicate_threshold" "0.7") = Some t
        ∧ hundredths_ge (dup_score dup) t = true.
Proof.
  cbv zeta. unfold detectDuplicates.
  destruct (isSettingEnabled db "duplicate_detection_enabled"); simpl.
  2: { split; [lia|]. split; [done|]. split; [done|].
       intros dup Hdup. by apply elem_of_nil in Hdup. }
  destruct (find_submission db x) as [newSub|] eqn:Hnew.
  2: { simpl. split; [lia|]. split; [done|]. split; [done|].
       intros dup Hdup. by apply elem_of_nil in Hdup. }
  destruct (checkCandidates_sound now
              (parseFloat (settingOr db "duplicate_threshold" "0.7")) x newSub db
              (candidatesQuery db x newSub) (db, []))
    as [Hlen Hdup]; [apply same_but_notifications_refl|].
  split; [|split; [done|split; [done|]]].
  - pose proof (length_candidatesQuery db x newSub). simpl in *. lia.
  - intros dup [Hnil|(c & t & Hc & ? & ? & ? & ? & ?)]%Hdup;
      [by apply elem_of_nil in Hnil|].
    apply elem_of_candidatesQuery in Hc as (? & ? & ? & ?).
    exists newSub, c, t. split_and!; done.
Qed.

Lemma detectDuplicates_sound_witness :
  ∃ dup, dup ∈ snd (detectDuplicates sampleNow 2 sampleStore)
         ∧ ∃ candidate, candidate ∈ submissions sampleStore
                        ∧ existingSubmissionId dup = s_id candidate
                        ∧ s_id candidate ≠ 2
                        ∧ s_event_status candidate ≠ CANCELLED.
Proof.
  set (dup := {| existingSubmissionId := 1; dup_score := 100;
                 dup_factors := ["Same organizer"; "Overlapping dates"; "Same country";
                                 "Similar city"; "Same event name"]%string |}).
  assert (dup ∈ snd (detectDuplicates sampleNow 2 sampleStore)) as Hdup
    by (vm_compute; apply list_elem_of_In; simpl; tauto).
  exists dup. split; [exact Hdup|].
  destruct (proj2 (proj2 (proj2 (detectDuplicates_sound sampleNow 2 sampleStore))) dup Hdup)
    as (newSub & candidate & t & _ & Hc & Hid & Hne & Hev & _).
  exists candidate. repeat (split; [assumption|]). exact Hev.
Defined.

(** The loop over the candidates stores at most one notification. *)
Lemma checkCandidates_one now threshold x newSub candidates acc :
  notifications (fst (foldl (checkCandidate now threshold x newSub) acc candidates))
  = notifications (fst acc)
  ∨ ∃ n, notifications
           (fst (foldl (checkCandidate now threshold x newSub) acc candidates))
         = notifications (fst acc) ++ [n]
         ∧ n_type n = duplicate_detected ∧ n_status n = unread
         ∧ n_related_submission_id n = Some x ∧ n_created_at n = now.
Proof.
  set (title := "Possible duplicate event detected"%string).
  assert (∀ acc c,
     fst (checkCandidate now threshold x newSub acc c) = fst acc
     ∨ ((∀ n, n ∈ notifications (fst acc) →
              ¬ similar now duplicate_detected title (Some x) n)
        ∧ ∃ n, notifications (fst (checkCandidate now threshold x newSub acc c))
               = notifications (fst acc) ++ [n]
               ∧ similar now duplicate_detected title (Some x) n
               ∧ n_type n = duplicate_detected ∧ n_status n = unread
               ∧ n_related_submission_id n = Some x ∧ n_created_at n = now)) as Hstep.
  { intros [db0 dups] c. unfold checkCandidate.
    case_decide; [by left|].
    destruct (calculateSimilarity newSub c) as [score factors].
    destruct (from_option _ _ _); [|by left]. cbn [fst].
    destruct (createNotification_either now duplicate_detected
                (if 90 <=? score then high else medium) title
                (duplicateMessage newSub c score)
                (Some (MetaDuplicate x (s_id c) score factors)) "admin" None (Some x) db0)
      as [?|[Hnone Happ]]; [done|by left|right].
    split; [done|]. eexists. split; [done|].
    unfold similar. simpl. split_and!; try done. lia. }
  assert (∀ k acc', (∃ n, n ∈ notifications (fst acc')
                          ∧ similar now duplicate_detected title (Some x) n) →
            fst (foldl (checkCandidate now threshold x newSub) acc' k) = fst acc')
    as Hstay.
  { induction k as [|c k IH]; intros acc' (n & Hn & Hsim); [done|]. simpl.
    destruct (Hstep acc' c) as [Heq|[Hnone _]]; [|by destruct (Hnone n Hn)].
    rewrite IH; [done|]. exists n. by rewrite Heq. }
  revert acc. induction candidates as [|c rest IH]; intros acc; [by left|]. simpl.
  destruct (Hstep acc c) as [Heq|[_ (n & Happ & Hsim & ?)]].
  - rewrite <- Heq. apply IH.
  - right. exists n. rewrite Hstay; [done|].
    exists n. split; [|done]. rewrite Happ. apply elem_of_app. right. by left.
Qed.

(** Property X8.  A duplicate-detection pass changes nothing but the
    notifications and stores at most one notification, however many
    candidates it flags: the notifications of a pass share their title and
    related submission, so the first one suppresses the others. *)
Theorem detectDuplicates_one_notification now x db :
  same_but_notifications db (fst (detectDuplicates now x db))
  ∧ (notifications (fst (detectDuplicates now x db)) = notifications db
     ∨ ∃ n, notifications (fst (detectDuplicates now x db)) = notifications db ++ [n]
            ∧ n_type n = duplicate_detected ∧ n_status n = unread
            ∧ n_related_submission_id n = Some x ∧ n_created_at n = now).
Proof.
  split; [apply detectDuplicates_frame|].
  unfold detectDuplicates. destruct (negb _); [by left|].
  destruct (find_submission db x) as [newSub|]; [|by left].
  apply (checkCandidates_one now _ x newSub _ (db, [])).
Qed.

End DuplicatePass.

Section WeeklyFrame.

(** Property X9.  Weekly-report generation touches only the weekly
    reports: every notification of another type stays, in its order, and no
    other table changes.  It answers true exactly when it ran (forced, or
    weekly reports enabled); when it answers false the store is as before. *)
Theorem generateWeeklyReport_keeps_others now force db :
  let result := generateWeeklyReport now force db in
  same_but_notifications db (fst result)
  ∧ filter (λ n, n_type n ≠ weekly_report) (notifications (fst result))
    = filter (λ n, n_type n ≠ weekly_report) (notifications db)
  ∧ snd result = force || isSettingEnabled db "weekly_report_enabled"
  ∧ (snd result = false → fst result = db).
Proof.
  cbv zeta. split; [apply generateWeeklyReport_frame|].
  destruct (decide (force = true ∨ isSettingEnabled db "weekly_report_enabled" = true))
    as [Hrun|Hoff].
  - destruct (weeklyReports_after_run now force db Hrun) as (report & -> & Htype & _).
    split.
    { rewrite filter_app, filter_cons, filter_nil, decide_False by (by intros ?).
      rewrite app_nil_r. apply list_filter_filter_l. tauto. }
    unfold generateWeeklyReport.
    assert (negb force && negb (isSettingEnabled db "weekly_report_enabled") = false)
      as -> by (destruct Hrun as [-> | ->]; [done|by rewrite andb_false_r]).
    cbv zeta. cbn [snd]. split; [|done].
    destruct Hrun as [-> | ->]; [done|by rewrite orb_true_r].
  - assert (force = false) as -> by (destruct force; tauto).
    assert (isSettingEnabled db "weekly_report_enabled" = false) as Hen
      by (destruct (isSettingEnabled _ _); tauto).
    unfold generateWeeklyReport. rewrite Hen. done.
Qed.

End WeeklyFrame.

Section DateLists.

(** Property X10.  In a time zone without clock change (the offset from
    UTC is constant, as for UTC itself), [getDatesInRange] lists exactly the
    days from the start to the end of the range, both included, in ascending
    order and without repetition; the list is empty when the end precedes
    the start. *)
Theorem getDatesInRange_days (tz : zone) (startStr endStr : date) :
  steady tz →
  (∀ d, d ∈ getDatesInRange tz startStr endStr ↔ startStr ≤ d ≤ endStr)
  ∧ StronglySorted Z.lt (getDatesInRange tz startStr endStr)
  ∧ length (getDatesInRange tz startStr endStr) = Z.to_nat (endStr - startStr + 1)
  ∧ (endStr < startStr → getDatesInRange tz startStr endStr = []).
Proof.
  intros Hsteady.
  split; [by apply elem_of_getDatesInRange|]. split; [by apply sorted_getDatesInRange|].
  split; [by apply length_getDatesInRange|].
  intros Hlt. apply length_zero_iff_nil. rewrite length_getDatesInRange by done. lia.
Qed.

Lemma getDatesInRange_days_witness :
  steady utc
  ∧ getDatesInRange utc (fromYMD 2026 1 30) (fromYMD 2026 2 2)
    = [fromYMD 2026 1 30; fromYMD 2026 1 31; fromYMD 2026 2 1; fromYMD 2026 2 2]
  ∧ ∀ d, d ∈ getDatesInRange utc (fromYMD 2026 1 30) (fromYMD 2026 2 2)
         ↔ fromYMD 2026 1 30 ≤ d ≤ fromYMD 2026 2 2.
Proof.
  split; [exact steady_utc|]. split; [vm_compute; reflexivity|].
  exact (proj1 (getDatesInRange_days utc (fromYMD 2026 1 30) (fromYMD 2026 2 2)
                  steady_utc)).
Defined.

Lemma sortedUnique_ext l l' :
  (∀ d, d ∈ l ↔ d ∈ l') → sortedUnique l = sortedUnique l'.
Proof.
  intros Hext. unfold sortedUnique.
  apply (StronglySorted_unique Z.le); try apply (StronglySorted_merge_sort _).
  rewrite !merge_sort_Permutation.
  apply NoDup_Permutation; try apply NoDup_remove_dups.
  intros d. by rewrite !elem_of_remove_dups.
Qed.

Lemma sortedUnique_sorted_id l : StronglySorted Z.lt l → sortedUnique l = l.
Proof.
  intros Hs. unfold sortedUnique.
  apply (StronglySorted_unique Z.le); [apply (StronglySorted_merge_sort _)| |].
  - induction Hs as [|x k Hs IH Hx]; constructor; [done|].
    eapply Forall_impl; [done|]. simpl. lia.
  - rewrite merge_sort_Permutation.
    apply NoDup_Permutation; [apply NoDup_remove_dups| |].
    + by apply StronglySorted_lt_NoDup.
    + intros d. by rewrite elem_of_remove_dups.
Qed.

(** Property X11.  The text [formatDateRanges] renders depends only on
    which days are in the list, not on their order or on repetitions. *)
Theorem formatDateRanges_same_days (tz : zone) (dates1 dates2 : list date) :
  (∀ d, d ∈ dates1 ↔ d ∈ dates2) →
  formatDateRanges tz dates1 = formatDateRanges tz dates2.
Proof.
  intros Hext. unfold formatDateRanges, dateRuns.
  rewrite (sortedUnique_ext dates1 dates2 Hext).
  destruct dates1 as [|d1 dates1], dates2 as [|d2 dates2]; try done.
  exfalso. apply (elem_of_nil d2), Hext. by left.
Qed.

Lemma formatDateRanges_same_days_witness :
  (∀ d, d ∈ [fromYMD 2026 1 12; fromYMD 2026 1 10; fromYMD 2026 1 11; fromYMD 2026 1 10]
        ↔ d ∈ [fromYMD 2026 1 10; fromYMD 2026 1 11; fromYMD 2026 1 12])
  ∧ formatDateRanges utc
      [fromYMD 2026 1 12; fromYMD 2026 1 10; fromYMD 2026 1 11; fromYMD 2026 1 10]
    = "2026-01-10 -> 2026-01-12"%string.
Proof.
  assert (∀ d, d ∈ [fromYMD 2026 1 12; fromYMD 2026 1 10; fromYMD 2026 1 11;
                    fromYMD 2026 1 10]
               ↔ d ∈ [fromYMD 2026 1 10; fromYMD 2026 1 11; fromYMD 2026 1 12]) as Hext.
  { intros d. rewrite !elem_of_cons, !elem_of_nil. tauto. }
  split; [exact Hext|].
  rewrite (formatDateRanges_same_days utc _ _ Hext). vm_compute. reflexivity.
Defined.

Lemma rangesLoop_run tz start prev (fuel : nat) :
  steady tz →
  rangesLoop tz start prev (seqZ (prev + 1) (Z.of_nat fuel)) []
  = [(start, prev + Z.of_nat fuel)].
Proof.
  intros Hsteady. revert prev. induction fuel as [|fuel IH]; intros prev.
  - simpl. by rewrite Z.add_0_r.
  - rewrite seqZ_cons by lia. rewrite rangesLoop_cons by done.
    rewrite bool_decide_eq_false_2 by (by intros []).
    replace (Z.pred (Z.of_nat (S fuel))) with (Z.of_nat fuel) by lia.
    replace (Z.succ (prev + 1)) with (prev + 1 + 1) by lia.
    replace (prev + Z.of_nat (S fuel)) with (prev + 1 + Z.of_nat fuel) by lia.
    apply IH.
Qed.

(** Property X12.  In a time zone without clock change, the days of a whole
    window render as one range: a single day as its date, several days as
    [first -> last]; an empty window (the end before the start) renders as
    the empty text. *)
Theorem formatDateRanges_window (tz : zone) (startStr endStr : date) :
  steady tz →
  formatDateRanges tz (getDatesInRange tz startStr endStr)
  = if decide (endStr < startStr) then EmptyString
    else if decide (startStr = endStr) then toISODate startStr
    else (toISODate startStr ++ " -> " ++ toISODate endStr)%string.
Proof.
  intros Hsteady. case_decide as Hlt.
  - assert (getDatesInRange tz startStr endStr = []) as ->; [|done].
    apply length_zero_iff_nil. rewrite length_getDatesInRange by done. lia.
  - unfold formatDateRanges, dateRuns.
    rewrite sortedUnique_sorted_id by (by apply sorted_getDatesInRange).
    rewrite getDatesInRange_steady by done.
    rewrite seqZ_cons by lia.
    pose proof (rangesLoop_run tz startStr startStr (Z.to_nat (endStr - startStr))
                  Hsteady) as Hrun.
    replace (Z.of_nat (Z.to_nat (endStr - startStr)))
      with (Z.pred (endStr - startStr + 1)) in Hrun by lia.
    replace (startStr + 1) with (Z.succ startStr) in Hrun by lia.
    rewrite Hrun. simpl. unfold renderRange. simpl.
    replace (startStr + Z.pred (endStr - startStr + 1)) with endStr by lia.
    case_decide; [by rewrite bool_decide_eq_true_2|by rewrite bool_decide_eq_false_2].
Qed.

Lemma formatDateRanges_window_witness :
  steady utc
  ∧ formatDateRanges utc (getDatesInRange utc (fromYMD 2026 3 28) (fromYMD 2026 3 31))
    = "2026-03-28 -> 2026-03-31"%string.
Proof.
  split; [exact steady_utc|].
  rewrite (formatDateRanges_window utc (fromYMD 2026 3 28) (fromYMD 2026 3 31)
             steady_utc).
  vm_compute. reflexivity.
Defined.

End DateLists.

Section ReminderJob.

Lemma daysUntil_days now dateStr : daysUntil now dateStr = dateStr - date_of now.
Proof.
  unfold daysUntil, ceilDiv.
  replace (- (dateStr * 86400 * 1000 - date_of now * 86400 * 1000))
    with ((date_of now - dateStr) * (1000 * 60 * 60 * 24)) by lia.
  rewrite Z.div_mul by lia. lia.
Qed.

Lemma isReminderDay_elem reminderDays days :
  isReminderDay reminderDays days = true ↔ days ∈ reminderDays.
Proof.
  unfold isReminderDay. rewrite existsb_exists. split.
  - intros (d & Hd%list_elem_of_In & Hc). apply andb_prop in Hc as [H1 H2].
    apply Z.leb_le in H1. apply Z.gtb_lt in H2.
    destruct (Z.eqb_spec d 1); replace days with d by lia; done.
  - intros Hd. exists days. split; [by apply list_elem_of_In|].
    apply andb_true_intro. split; [by apply Z.leb_le|]. apply Z.gtb_lt.
    destruct (Z.eqb_spec days 1); lia.
Qed.

Lemma count_zero {A} (P : A → Prop) `{∀ x, Decision (P x)} (l : list A) :
  count P l = 0 ↔ ∀ x, x ∈ l → ¬ P x.
Proof.
  unfold count. split.
  - intros Hc x Hx HP.
    assert (x ∈ filter P l) as Hin by (by apply list_elem_of_filter).
    destruct (filter P l); [by apply elem_of_nil in Hin|done].
  - intros Hnone. replace (filter P l) with (@nil A); [done|].
    symmetry. apply elem_of_nil_inv. intros x [HP Hx]%list_elem_of_filter.
    by apply (Hnone x).
Qed.

Lemma unstaffed_count db sid :
  count (λ sa : link, sa.1 = sid) (submission_assignments db) = 0
  ↔ ∀ c, ¬ assigned db sid c.
Proof.
  rewrite count_zero. unfold assigned. split.
  - intros Hnone c Hc. by apply (Hnone (sid, c)).
  - intros Hnone [sid' c] Hin Heq. simpl in Heq. subst sid'. by apply (Hnone c).
Qed.

Lemma calculateReminderPriority_eq days :
  days ≤ 30 → ∃ prio, calculateReminderPriority days = Some prio.
Proof.
  intros Hd. unfold calculateReminderPriority.
  repeat (case_match; [by eexists|]).
  destruct (Z.leb_spec days 30); [done|lia].
Qed.

(** The call the body of the loop makes for an event of the query. *)
Lemma reminderFor_sound now reminderDays db s r :
  reminderFor now reminderDays
    (s, count (λ sa : link, sa.1 = s_id s) (submission_assignments db)) = Some r →
  s_start_date s - date_of now ∈ reminderDays
  ∧ (s_status s = pending ∨ ∀ c, ¬ assigned db (s_id s) c)
  ∧ calculateReminderPriority (s_start_date s - date_of now) = Some (rm_priority r)
  ∧ rm_submission_id r = s_id s
  ∧ rm_days_until r = s_start_date s - date_of now.
Proof.
  unfold reminderFor. rewrite daysUntil_days.
  destruct (isReminderDay reminderDays _) eqn:Hday; [|done]. simpl.
  apply isReminderDay_elem in Hday. intros Hr. split; [done|].
  assert (s_status s = pending ∨ ∀ c, ¬ assigned db (s_id s) c) as Hissue.
  { destruct (decide (s_status s = pending)) as [?|Hnp]; [by left|right].
    destruct (Z.eqb_spec (count (λ sa : link, sa.1 = s_id s)
                                (submission_assignments db)) 0) as [Hc|Hc];
      [by apply unstaffed_count|done]. }
  split; [done|].
  destruct (_ ++ _) as [|issue issues]; [done|].
  destruct (calculateReminderPriority _) as [prio|]; [|done].
  by injection Hr as <-.
Qed.

Lemma reminderFor_complete now reminderDays db s :
  s_start_date s - date_of now ∈ reminderDays →
  s_start_date s - date_of now ≤ 30 →
  s_status s = pending ∨ (∀ c, ¬ assigned db (s_id s) c) →
  is_Some (reminderFor now reminderDays
             (s, count (λ sa : link, sa.1 = s_id s) (submission_assignments db))).
Proof.
  intros Hday Hle Hissue. unfold reminderFor. rewrite daysUntil_days.
  rewrite (proj2 (isReminderDay_elem _ _) Hday). simpl.
  destruct (calculateReminderPriority_eq (s_start_date s - date_of now)) as [prio ->].
  { done. }
  destruct Hissue as [Hp|Hun%unstaffed_count].
  - rewrite decide_True by done. by eexists.
  - rewrite Hun. simpl. case_decide; by eexists.
Qed.

(** Property X13.  With reminders enabled and the reminder days an array
    of integers, the reminder job calls [createNotification] exactly for the
    events that are neither completed nor cancelled, are pending or without
    staff, and start in a number of days that is one of the reminder days
    (and at most 30): on the days in between nothing is raised.  Each call
    carries the event, the days left and the priority of that number of
    days; the job returns the number of calls.  The server clock is taken in
    UTC. *)
Theorem checkEventReminders_due now db reminderDays :
  isSettingEnabled db "event_reminder_enabled" = true →
  parseReminderDays (settingOr db "event_reminder_days" "[30, 14, 7, 3, 1]")
  = Some reminderDays →
  ∃ calls,
    checkEventReminders now db = Some (calls, Z.of_nat (length calls))
    ∧ (∀ r, r ∈ calls →
         ∃ s, dueReminder db now reminderDays s
              ∧ rm_submission_id r = s_id s
              ∧ rm_days_until r = s_start_date s - date_of now
              ∧ calculateReminderPriority (rm_days_until r) = Some (rm_priority r))
    ∧ (∀ s, dueReminder db now reminderDays s →
         ∃ r, r ∈ calls ∧ rm_submission_id r = s_id s
              ∧ rm_days_until r = s_start_date s - date_of now).
Proof.
  intros Hen Hparse. unfold checkEventReminders. rewrite Hen, Hparse. simpl.
  eexists. split; [done|]. unfold reminderEvents. split.
  - intros r (ev & Hev & Hr)%list_elem_of_omap.
    apply list_elem_of_fmap in Hev as (s & -> & Hs).
    apply list_elem_of_filter in Hs as [(Hc & Hx & Hlo & Hhi) Hs].
    apply reminderFor_sound in Hr as (Hday & Hissue & Hprio & Hid & Hdays).
    exists s. rewrite Hdays. split; [|done].
    unfold dueReminder. split_and!; try done; lia.
  - intros s (Hs & Hc & Hx & Hday & [Hlo Hhi] & Hissue).
    destruct (reminderFor_complete now reminderDays db s Hday Hhi Hissue) as [r Hr].
    exists r. pose proof Hr as (_ & _ & _ & Hid & Hdays)%reminderFor_sound.
    split; [|done]. apply list_elem_of_omap. eexists. split; [|exact Hr].
    apply list_elem_of_fmap. exists s. split; [done|].
    apply list_elem_of_filter. split; [|done]. unfold liveUpcoming. split_and!; try done; lia.
Qed.

Lemma checkEventReminders_due_witness :
  isSettingEnabled sampleStore "event_reminder_enabled" = true
  ∧ parseReminderDays (settingOr sampleStore "event_reminder_days" "[30, 14, 7, 3, 1]")
    = Some [30; 14; 7; 3; 1]
  ∧ dueReminder sampleStore reminderNow [30; 14; 7; 3; 1] S1
  ∧ ∃ calls r,
      checkEventReminders reminderNow sampleStore = Some (calls, Z.of_nat (length calls))
      ∧ r ∈ calls ∧ rm_submission_id r = 1 ∧ rm_days_until r = 7.
Proof.
  assert (isSettingEnabled sampleStore "event_reminder_enabled" = true) as Hen
    by (vm_compute; reflexivity).
  assert (parseReminderDays
            (settingOr sampleStore "event_reminder_days" "[30, 14, 7, 3, 1]")
          = Some [30; 14; 7; 3; 1]) as Hparse by (vm_compute; reflexivity).
  assert (dueReminder sampleStore reminderNow [30; 14; 7; 3; 1] S1) as Hdue.
  { unfold dueReminder. split; [apply list_elem_of_In; simpl; tauto|].
    split; [discriminate|]. split; [discriminate|].
    split; [vm_compute; apply list_elem_of_In; simpl; tauto|].
    split; [vm_compute; split; discriminate|]. left. reflexivity. }
  split; [exact Hen|]. split; [exact Hparse|]. split; [exact Hdue|].
  destruct (checkEventReminders_due reminderNow sampleStore [30; 14; 7; 3; 1] Hen Hparse)
    as (calls & Hcalls & _ & Hall).
  destruct (Hall S1 Hdue) as (r & Hr & Hid & Hdays).
  exists calls, r. split; [exact Hcalls|]. split; [exact Hr|].
  split; [exact Hid|]. exact Hdays.
Defined.

End ReminderJob.

Section StaffListings.

Lemma busySetOf_empty_iff tz (start end_ : date) confs :
  steady tz →
  start ≤ end_ →
  (∀ conf, conf ∈ confs →
           cf_start_date conf ≤ cf_end_date conf
           ∧ ¬ (cf_end_date conf < start ∨ end_ < cf_start_date conf)) →
  busySetOf tz (list_to_set (getDatesInRange tz start end_)) confs = ∅ ↔ confs = [].
Proof.
  intros Hsteady Hwin Hconfs. split.
  - intros Hempty. destruct confs as [|conf confs]; [done|]. exfalso.
    destruct (Hconfs conf) as [Hle Hov]; [by left|].
    assert (Z.max start (cf_start_date conf)
              ∈ busySetOf tz (list_to_set (getDatesInRange tz start end_)) (conf :: confs))
      as Hin.
    { apply elem_of_busySetOf; [done|]. split.
      - apply elem_of_list_to_set, elem_of_getDatesInRange; [done|lia].
      - exists conf. split; [by left|lia]. }
    rewrite Hempty in Hin. by apply elem_of_empty in Hin.
  - by intros ->.
Qed.

Lemma staffRow_availabilityOf tz db start end_ ex c :
  steady tz →
  start ≤ end_ →
  (∀ s, s ∈ submissions db → s_start_date s ≤ s_end_date s) →
  sr_available (staffRow db start end_ ex c)
  = r_available (availabilityOf tz db start end_ ex c).
Proof.
  intros Hsteady Hwin Hwf. unfold staffRow, availabilityOf. simpl.
  set (confs := conflictsQuery db (c_id c) start end_ ex).
  pose proof (busySetOf_empty_iff tz start end_ confs Hsteady Hwin) as Hiff.
  destruct Hiff as [H1 H2].
  { intros conf (s & Hs & _ & _ & Hov & _ & ->)%elem_of_conflictsQuery. simpl.
    split; [by apply Hwf|done]. }
  set (B := busySetOf tz _ confs) in *.
  destruct (Nat.eqb_spec (size B) 0) as [H0|H0].
  - rewrite bool_decide_eq_true_2 by done.
    apply size_empty_iff in H0. rewrite H1 by (by unfold_leibniz). done.
  - assert (confs ≠ []) as Hne.
    { intros Heq. apply H0. rewrite (H2 Heq). apply size_empty. }
    destruct confs; [done|]. simpl.
    symmetry. apply bool_decide_eq_false. by case_match.
Qed.

(** Property X14.  In a time zone without clock change (the offset from
    UTC is constant, as for UTC itself), for a window that does not end
    before it starts, on a store whose submissions do not end before they
    start, the availability
    listing for counsellors and the admin availability query agree: they
    list the same counsellors in the same order with the same conflicts, and
    a counsellor is [available] in the one exactly when the other classifies
    them [available].  [GET /staff-availability] answers a counsellor what
    the public listing answers without an excluded submission. *)
Theorem availability_listings_agree tz db start end_ ex who :
  steady tz →
  start ≤ end_ →
  (∀ s, s ∈ submissions db → s_start_date s ≤ s_end_date s) →
  ∃ rows rows',
    getAvailability tz db (Some start) (Some end_) ex = Ok rows
    ∧ availabilityPublic (Some who) (Some start) (Some end_) ex db = Ok rows'
    ∧ map (λ r, (r_id r, r_username r, r_full_name r, r_available r, r_conflicts r)) rows
      = map (λ r, (sr_id r, sr_username r, sr_full_name r, sr_available r,
                   sr_conflicts r)) rows'
    ∧ (usr_role who = RoleCounsellor →
       staffAvailability (Some who) (Some start) (Some end_) db
       = availabilityPublic (Some who) (Some start) (Some end_) None db).
Proof.
  intros Hsteady Hwin Hwf. eexists _, _. split; [done|]. split.
  { unfold availabilityPublic. rewrite decide_False; [done|].
    destruct (usr_role who); intros [? ?]; done. }
  split.
  - rewrite !map_map. apply map_ext. intros c.
    by rewrite (staffRow_availabilityOf tz).
  - intros Hrole. unfold staffAvailability, availabilityPublic, requireAuth.
    rewrite Hrole. reflexivity.
Qed.

Lemma availability_listings_agree_witness :
  steady utc
  ∧ fromYMD 2026 1 10 ≤ fromYMD 2026 1 20
  ∧ (∀ s, s ∈ submissions staffedStore → s_start_date s ≤ s_end_date s)
  ∧ ∃ rows',
      availabilityPublic (Some alice) (Some (fromYMD 2026 1 10))
                         (Some (fromYMD 2026 1 20)) None staffedStore = Ok rows'
      ∧ map sr_available rows' = [false; false; true].
Proof.
  assert (fromYMD 2026 1 10 ≤ fromYMD 2026 1 20) as Hwin by (vm_compute; discriminate).
  assert (∀ s, s ∈ submissions staffedStore → s_start_date s ≤ s_end_date s) as Hwf.
  { apply Forall_forall. apply (bool_decide_unpack _). vm_compute. reflexivity. }
  split; [exact steady_utc|]. split; [exact Hwin|]. split; [exact Hwf|].
  destruct (availability_listings_agree utc staffedStore (fromYMD 2026 1 10)
              (fromYMD 2026 1 20) None alice steady_utc Hwin Hwf)
    as (rows & rows' & _ & Hpub & _ & _).
  exists rows'. split; [exact Hpub|].
  revert Hpub. vm_compute. by intros [= <-].
Defined.

End StaffListings.

Section FinalizeOutcome.

Lemma insertAssignments_is_Some id selected t :
  NoDup (map c_id selected) →
  (∀ c, c ∈ selected → (id, c_id c) ∉ t) →
  is_Some (insertAssignments id selected t).
Proof.
  revert t. induction selected as [|c sel IH]; intros t Hnd Hfresh; simpl; [done|].
  apply NoDup_cons in Hnd as [Hc Hnd].
  unfold insertAssignment. rewrite decide_False by (apply Hfresh; by left). simpl.
  apply IH; [done|]. intros c' Hc' [Hin|Hin%list_elem_of_singleton]%elem_of_app.
  - apply (Hfresh c'); [by right|done].
  - injection Hin as Heq. apply Hc. rewrite <- Heq.
    apply list_elem_of_fmap. by exists c'.
Qed.

Lemma NoDup_selected (P : counsellor → Prop) `{∀ c, Decision (P c)} l :
  NoDup (map c_id l) → NoDup (map c_id (filter P l)).
Proof.
  intros Hnd. eapply sublist_NoDup; [done|].
  apply fmap_sublist, sublist_filter.
Qed.

(** The length test of [finalize] holds exactly when the ids are pairwise
    different and each names an active counsellor. *)
Lemma selected_length (db : store) (ids : list Z) :
  NoDup (map c_id (counsellors db)) →
  let selected := filter (λ c, c_is_active c = true ∧ c_id c ∈ ids) (counsellors db) in
  length selected = length ids
  ↔ NoDup ids
    ∧ ∀ cid, cid ∈ ids →
             ∃ c, c ∈ counsellors db ∧ c_id c = cid ∧ c_is_active c = true.
Proof.
  intros Hpk selected.
  assert (NoDup (map c_id selected)) as Hnd by (by apply NoDup_selected).
  assert (map c_id selected ⊆+ ids) as Hsub.
  { apply NoDup_submseteq; [done|].
    intros cid (c & -> & [[_ ?] _]%list_elem_of_filter)%list_elem_of_fmap. done. }
  split.
  - intros Hlen.
    apply submseteq_length_Permutation in Hsub; [|rewrite length_map; lia].
    split; [by rewrite <- Hsub|].
    intros cid Hcid. rewrite <- Hsub in Hcid.
    apply list_elem_of_fmap in Hcid as (c & -> & [[? _] ?]%list_elem_of_filter).
    by exists c.
  - intros [Hids Hall].
    assert (ids ⊆+ map c_id selected) as Hsup.
    { apply NoDup_submseteq; [done|]. intros cid Hcid.
      destruct (Hall cid Hcid) as (c & Hc & <- & Hact).
      apply list_elem_of_fmap. exists c. split; [done|].
      apply list_elem_of_filter. done. }
    apply submseteq_length in Hsub, Hsup. rewrite length_map in *. lia.
Qed.

(** Property X15.  On a store where counsellor ids are unique, [finalize]
    succeeds exactly when the submission exists and is neither completed
    nor cancelled, at least one counsellor id is given, the ids are pairwise
    different, and each names an active counsellor.  Otherwise it answers
    400 or 404 and changes nothing; it never answers 500. *)
Theorem finalize_succeeds_iff now username id counsellor_ids db :
  NoDup (map c_id (counsellors db)) →
  let result := finalize now username (Some id) (Some counsellor_ids) db in
  (snd result = Ok ()
   ↔ (∃ sub, find_submission db id = Some sub
             ∧ s_event_status sub ≠ COMPLETED ∧ s_event_status sub ≠ CANCELLED)
     ∧ counsellor_ids ≠ [] ∧ NoDup counsellor_ids
     ∧ ∀ cid, cid ∈ counsellor_ids →
              ∃ c, c ∈ counsellors db ∧ c_id c = cid ∧ c_is_active c = true)
  ∧ (snd result ≠ Ok () →
     fst result = db ∧ (snd result = Error 400 ∨ snd result = Error 404)).
Proof.
  intros Hpk. cbv zeta. unfold finalize.
  destruct counsellor_ids as [|cid0 ids0] eqn:Hids.
  { simpl. split; [|by auto]. split; [done|]. intros (_ & ? & _). done. }
  rewrite <- Hids. assert (counsellor_ids ≠ []) as Hne by (by rewrite Hids).
  clear Hids cid0 ids0.
  destruct (find_submission db id) as [sub|] eqn:Hsub.
  2: { simpl. split; [|by auto]. split; [done|]. intros ((? & ? & _) & _). done. }
  case_decide as Hev.
  { simpl. split; [|by auto]. split; [done|].
    intros ((? & [= <-] & ? & ?) & _). tauto. }
  pose proof (selected_length db counsellor_ids Hpk) as Hlen. simpl in Hlen.
  set (selected := filter _ (counsellors db)) in *.
  destruct (Nat.eqb_spec (length selected) (length counsellor_ids)) as [Heq|Hneq].
  2: { simpl. split; [|by auto]. split; [done|].
       intros (_ & _ & Hnd & Hall). destruct Hneq. apply Hlen. done. }
  simpl.
  destruct (insertAssignments_is_Some id selected
              (filter (λ sa : link, sa.1 ≠ id) (submission_assignments db)))
    as [t Ht].
  { by apply NoDup_selected. }
  { intros c _ [Hid _]%list_elem_of_filter. by apply Hid. }
  unfold finalizeTx. rewrite Ht. simpl. split; [|done].
  split; [|done]. intros _. apply Hlen in Heq as [? ?].
  split; [|done]. exists sub. split; [done|]. tauto.
Qed.

Lemma finalize_succeeds_iff_witness :
  NoDup (map c_id (counsellors sampleStore))
  ∧ snd (finalize sampleNow "admin" (Some 1) (Some [1; 2]) sampleStore) = Ok ()
  ∧ NoDup [1; 2].
Proof.
  assert (NoDup (map c_id (counsellors sampleStore))) as Hpk.
  { apply (bool_decide_unpack _). vm_compute. reflexivity. }
  split; [exact Hpk|].
  assert (snd (finalize sampleNow "admin" (Some 1) (Some [1; 2]) sampleStore) = Ok ())
    as Hok by (vm_compute; reflexivity).
  split; [exact Hok|].
  exact (proj1 (proj2 (proj2 (proj1 (proj1 (finalize_succeeds_iff sampleNow "admin" 1
                  [1; 2] sampleStore Hpk)) Hok)))).
Defined.

End FinalizeOutcome.

Section MetadataFrame.

Lemma map_updateWhereId {B} (g : submission → B) id f l :
  (∀ s, g (f s) = g s) → map g (updateWhereId id f l) = map g l.
Proof.
  intros Hg. unfold updateWhereId. rewrite map_map. apply map_ext.
  intros s. by case_decide.
Qed.

Lemma updateWhereId_others id f l s :
  s ∈ l → s_id s ≠ id → s ∈ updateWhereId id f l.
Proof.
  intros Hs Hne. unfold updateWhereId. apply list_elem_of_fmap. exists s.
  by rewrite decide_False.
Qed.

(** Property X16.  A successful metadata update that leaves the event
    neither cancelled nor postponed changes no assignment and no decision
    status: payment, sender, remarks and event status are the only fields it
    writes, on the one submission. *)
Theorem updateMeta_keeps_staffing now username id body db db' row :
  updateMeta now username (Some id) body db = (db', Ok ()) →
  find_submission db id = Some row →
  default (s_event_status row) (requestedStatus body) ≠ CANCELLED →
  default (s_event_status row) (requestedStatus body) ≠ POSTPONED →
  submission_assignments db' = submission_assignments db
  ∧ map (λ s, (s_id s, s_status s, s_start_date s, s_end_date s, s_confirmed_at s))
        (submissions db')
    = map (λ s, (s_id s, s_status s, s_start_date s, s_end_date s, s_confirmed_at s))
          (submissions db)
  ∧ ∀ s, s ∈ submissions db → s_id s ≠ id → s ∈ submissions db'.
Proof.
  intros (row' & newSent & newPay & newStatus & newRemarks & Hrow & -> & _ & Hs & Ha)
         %updateMeta_Ok Hfind Hc Hp.
  rewrite Hfind in Hrow. injection Hrow as <-.
  rewrite bool_decide_eq_false_2 in Hs, Ha by tauto.
  split; [done|]. rewrite Hs. split.
  - by apply map_updateWhereId.
  - intros s. apply updateWhereId_others.
Qed.

Lemma updateMeta_keeps_staffing_witness :
  let body := {| mb_sent_by_counsellor_id := SentNumber 3;
                 mb_payment_status := Some "paid"%string;
                 mb_event_status := Some "completed"%string;
                 mb_remarks := None |} in
  let result := updateMeta sampleNow "admin" (Some 1) body staffedStore in
  snd result = Ok ()
  ∧ submission_assignments (fst result) = submission_assignments staffedStore.
Proof.
  cbv zeta.
  set (body := {| mb_sent_by_counsellor_id := SentNumber 3;
                  mb_payment_status := Some "paid"%string;
                  mb_event_status := Some "completed"%string;
                  mb_remarks := None |}).
  assert (snd (updateMeta sampleNow "admin" (Some 1) body staffedStore) = Ok ()) as Hok
    by (vm_compute; reflexivity).
  split; [exact Hok|].
  apply answer_eq in Hok.
  assert (∃ row, find_submission staffedStore 1 = Some row
                 ∧ default (s_event_status row) (requestedStatus body) = COMPLETED)
    as (row & Hrow & Hst) by (eexists; split; vm_compute; reflexivity).
  refine (proj1 (updateMeta_keeps_staffing sampleNow "admin" 1 body staffedStore _ row
                   Hok Hrow _ _)); rewrite Hst; discriminate.
Defined.

End MetadataFrame.

Section Reschedule.

Lemma reschedule_frame now who id body db db' :
  reschedule now who (Some id) body db = (db', Ok ()) →
  ∃ start_date end_date,
    rs_start_date body = DateText start_date
    ∧ rs_end_date body = DateText end_date
    ∧ is_Some (find_submission db' id)
    ∧ (∀ s', s' ∈ submissions db' → s_id s' = id →
             s_status s' = pending ∧ s_event_status s' = ONGOING
             ∧ s_start_date s' = start_date ∧ s_end_date s' = end_date)
    ∧ submission_assignments db' = submission_assignments db.
Proof.
  unfold reschedule, requireAuth.
  destruct who as [u|]; [|done].
  case_decide as Hrole; [done|].
  destruct (rs_start_date body) as [| |start_date] eqn:Hs; try done.
  destruct (rs_end_date body) as [| |end_date] eqn:He; try done.
  destruct (Z.gtb_spec start_date end_date) as [?|Hle]; [done|].
  destruct (find_submission db id) as [row|] eqn:Hrow; [|done].
  intros [= <-]. exists start_date, end_date. split_and!; try done.
  - set (db' := set_submissions _ _ _).
    apply (updateWhereId_is_Some db db' id (rescheduled now start_date end_date));
      [done|done|by rewrite Hrow].
  - intros s' (s0 & _ & ->)%updateWhereId_elem. by case_decide.
Qed.

(** Property X17.  A successful reschedule (by an admin, with two
    well-formed dates in order, of a submission that exists) puts the
    submission back to [pending] and [ONGOING] with the new dates, touches no
    other submission and no assignment; every other request is answered
    with an error and changes nothing. *)
Theorem reschedule_outcome now who id body db :
  let result := reschedule now who id body db in
  (snd result = Ok () →
   ∃ i start_date end_date,
     id = Some i
     ∧ rs_start_date body = DateText start_date
     ∧ rs_end_date body = DateText end_date
     ∧ start_date ≤ end_date
     ∧ (∃ u, who = Some u ∧ usr_role u = RoleAdmin)
     ∧ is_Some (find_submission db i)
     ∧ is_Some (find_submission (fst result) i)
     ∧ (∀ s', s' ∈ submissions (fst result) → s_id s' = i →
              s_status s' = pending ∧ s_event_status s' = ONGOING
              ∧ s_start_date s' = start_date ∧ s_end_date s' = end_date)
     ∧ (∀ s, s ∈ submissions db → s_id s ≠ i → s ∈ submissions (fst result))
     ∧ submission_assignments (fst result) = submission_assignments db)
  ∧ (snd result ≠ Ok () → fst result = db).
Proof.
  cbv zeta. unfold reschedule, requireAuth.
  destruct who as [u|]; [|done].
  case_decide as Hrole; [done|].
  destruct id as [i|]; [|done].
  destruct (rs_start_date body) as [| |start_date] eqn:Hs; try done.
  destruct (rs_end_date body) as [| |end_date] eqn:He; try done.
  destruct (Z.gtb_spec start_date end_date) as [?|Hle]; [done|].
  destruct (find_submission db i) as [row|] eqn:Hrow; [|done].
  simpl. split; [|done]. intros _.
  exists i, start_date, end_date. split_and!; try done; try lia.
  - exists u. split; [done|]. by destruct (decide (usr_role u = RoleAdmin)).
  - set (db' := set_submissions _ _ _).
    apply (updateWhereId_is_Some db db' i (rescheduled now start_date end_date));
      [done|done|by rewrite Hrow].
  - intros s' (s0 & _ & ->)%updateWhereId_elem. by case_decide.
  - intros s. apply updateWhereId_others.
Qed.

(** Property X18.  An event that was postponed or cancelled by a metadata
    update and is then rescheduled is [pending] and [ONGOING] with the new
    dates, and has no staff: the counsellors freed by the postponement stay
    free until the event is finalized again. *)
Theorem postpone_then_reschedule now1 now2 username who id body1 body2 db db1 db2 :
  requestedStatus body1 = Some POSTPONED ∨ requestedStatus body1 = Some CANCELLED →
  updateMeta now1 username (Some id) body1 db = (db1, Ok ()) →
  reschedule now2 who (Some id) body2 db1 = (db2, Ok ()) →
  (∀ c, ¬ assigned db2 id c)
  ∧ is_Some (find_submission db2 id)
  ∧ ∀ s, s ∈ submissions db2 → s_id s = id →
         s_status s = pending ∧ s_event_status s = ONGOING
         ∧ rs_start_date body2 = DateText (s_start_date s)
         ∧ rs_end_date body2 = DateText (s_end_date s).
Proof.
  intros Hreq Hmeta Hres.
  destruct (updateMeta_cancels now1 username id body1 db db1 Hmeta) as [Hnone _];
    [tauto|].
  destruct (reschedule_frame now2 who id body2 db1 db2 Hres)
    as (start_date & end_date & Hs & He & Hsome & Hall & Ha).
  split; [|split; [done|]].
  - intros c. unfold assigned. rewrite Ha. apply Hnone.
  - intros s Hin Hid. destruct (Hall s Hin Hid) as (? & ? & -> & ->). done.
Qed.

Lemma postpone_then_reschedule_witness :
  let db1 := fst (updateMeta sampleNow "admin" (Some 1) postponeBody staffedStore) in
  let db2 := fst (reschedule (sampleNow + 60) (Some root) (Some 1) rescheduleBody db1) in
  requestedStatus postponeBody = Some POSTPONED
  ∧ (assigned staffedStore 1 1 ∧ assigned staffedStore 1 2)
  ∧ (∀ c, ¬ assigned db2 1 c)
  ∧ is_Some (find_submission db2 1).
Proof.
  cbv zeta.
  assert (requestedStatus postponeBody = Some POSTPONED) as Hreq by reflexivity.
  split; [exact Hreq|].
  split; [split; vm_compute; apply list_elem_of_In; simpl; tauto|].
  set (r1 := updateMeta sampleNow "admin" (Some 1) postponeBody staffedStore).
  set (r2 := reschedule (sampleNow + 60) (Some root) (Some 1) rescheduleBody (fst r1)).
  assert (snd r1 = Ok ()) as H1%answer_eq by (vm_compute; reflexivity).
  assert (snd r2 = Ok ()) as H2%answer_eq by (vm_compute; reflexivity).
  destruct (postpone_then_reschedule sampleNow (sampleNow + 60) "admin" (Some root) 1
              postponeBody rescheduleBody staffedStore (fst r1) (fst r2)
              (or_introl Hreq) H1 H2) as (Hnone & Hsome & _).
  split; [exact Hnone|exact Hsome].
Defined.

End Reschedule.

Section CounsellorRemoval.

(** Property X19.  A successful removal of a counsellor account (by an
    admin, of an account that exists and is not named [admin]) leaves no
    trace of the counsellor: no account, no assignment, no suggestion, and no
    submission sent by them.  The assignments and suggestions of the other
    counsellors stay, and no submission changes its decision status: a
    confirmed event stays confirmed even when it lost its staff. *)
Theorem deleteCounsellor_unlinks who id db db' :
  deleteCounsellor who (Some id) db = (db', Ok ()) →
  (∃ u, who = Some u ∧ usr_role u = RoleAdmin)
  ∧ (∃ c, c ∈ counsellors db ∧ c_id c = id ∧ c_username c ≠ "admin"%string)
  ∧ (∀ c, c ∈ counsellors db' ↔ c ∈ counsellors db ∧ c_id c ≠ id)
  ∧ (∀ sid c, assigned db' sid c ↔ assigned db sid c ∧ c ≠ id)
  ∧ (∀ sid c, (sid, c) ∈ submission_suggestions db'
              ↔ (sid, c) ∈ submission_suggestions db ∧ c ≠ id)
  ∧ (∀ s, s ∈ submissions db' → s_sent_by_counsellor_id s ≠ Some id)
  ∧ map (λ s, (s_id s, s_status s, s_event_status s, s_start_date s, s_end_date s))
        (submissions db')
    = map (λ s, (s_id s, s_status s, s_event_status s, s_start_date s, s_end_date s))
          (submissions db).
Proof.
  unfold deleteCounsellor, requireAuth.
  destruct who as [u|]; [|done].
  case_decide as Hrole; [done|].
  destruct (List.find _ _) as [info|] eqn:Hfind; [|done].
  case_decide as Hadmin; [done|].
  intros [= <-]. simpl.
  apply find_Some_elem in Hfind as [Hin Hid%bool_decide_eq_true].
  split_and!.
  - exists u. split; [done|]. by destruct (decide (usr_role u = RoleAdmin)).
  - by exists info.
  - intros c. rewrite list_elem_of_filter. tauto.
  - intros sid c. unfold assigned. simpl. rewrite list_elem_of_filter. simpl. tauto.
  - intros sid c. rewrite list_elem_of_filter. simpl. tauto.
  - intros s (s0 & -> & _)%list_elem_of_fmap. by case_decide.
  - rewrite map_map. apply map_ext. intros s. by case_decide.
Qed.

Lemma deleteCounsellor_unlinks_witness :
  let result := deleteCounsellor (Some root) (Some 1) staffedStore in
  snd result = Ok ()
  ∧ (assigned staffedStore 1 1 ∧ assigned staffedStore 1 2)
  ∧ (assigned (fst result) 1 2 ∧ ¬ assigned (fst result) 1 1).
Proof.
  cbv zeta.
  set (result := deleteCounsellor (Some root) (Some 1) staffedStore).
  assert (snd result = Ok ()) as Hok by (vm_compute; reflexivity).
  assert (assigned staffedStore 1 1 ∧ assigned staffedStore 1 2) as [H1 H2]
    by (split; vm_compute; apply list_elem_of_In; simpl; tauto).
  split; [exact Hok|]. split; [exact (conj H1 H2)|].
  apply answer_eq in Hok.
  destruct (deleteCounsellor_unlinks (Some root) 1 staffedStore (fst result) Hok)
    as (_ & _ & _ & Ha & _).
  split.
  - apply Ha. split; [exact H2|discriminate].
  - intros [_ Hne]%Ha. by apply Hne.
Defined.

End CounsellorRemoval.

Section SubmissionRoutes.

(** Property X20.  Creating one submission answers 401 without a token,
    403 to an admin and 400 to a counsellor whose event fails validation,
    each time without a change.  For a valid event of a counsellor it stores
    the submission as [pending] and [ONGOING] under the next id, which it
    answers, and changes no other submission and no assignment: the same
    submissions that the batch route stores for that event alone. *)
Theorem createSubmission_outcome now who body db :
  let result := createSubmission now who body db in
  (who = None → result = (db, Error 401))
  ∧ (∀ u, who = Some u → usr_role u = RoleAdmin → result = (db, Error 403))
  ∧ (∀ u, who = Some u → usr_role u = RoleCounsellor →
       (¬ validEvent db (cb_event body) → result = (db, Error 400))
       ∧ (validEvent db (cb_event body) →
          snd result = Ok (submissions_seq db + 1)
          ∧ (∃ s, submissions (fst result) = submissions db ++ [s]
                  ∧ s_id s = submissions_seq db + 1
                  ∧ createdFrom (usr_username u) (cb_event body) s)
          ∧ submissions (fst result)
            = submissions
                (fst (createBatch now (usr_username u) (Some [cb_event body]) db))
          ∧ submission_assignments (fst result) = submission_assignments db)).
Proof.
  cbv zeta. unfold createSubmission, requireAuth.
  split; [by intros ->|]. split; [by intros u -> ->|].
  intros u -> Hrole. rewrite Hrole. simpl.
  destruct (validateEvent db (cb_event body))
    as [[[[[[[[start_date end_date] display] oid] nid] tid] city] country]|err] eqn:Hv.
  2: { split; [done|]. intros Hvalid.
       by apply validateEvent_inr, rejection_not_valid in Hv. }
  split; [intros Hinvalid; by apply validateEvent_inl in Hv as [? _]|]. intros _.
  cbn [snd fst]. split; [done|].
  set (new := new_submission _ _ _ _ _ _ _ _ _ _ _ _ _).
  assert (∀ db0, submissions (fst (detectDuplicates now (submissions_seq db + 1) db0))
                 = submissions db0) as Hdd.
  { intros db0. by destruct (detectDuplicates_frame now (submissions_seq db + 1) db0)
      as (_ & _ & _ & _ & ? & _). }
  assert (∀ db0, submission_assignments
                   (fst (detectDuplicates now (submissions_seq db + 1) db0))
                 = submission_assignments db0) as Hda.
  { intros db0. by destruct (detectDuplicates_frame now (submissions_seq db + 1) db0)
      as (_ & _ & _ & _ & _ & _ & ? & _). }
  split; [|split].
  - exists new. rewrite Hdd. simpl. split; [done|]. split; [done|].
    apply validateEvent_inl in Hv. unfold createdFrom, new. simpl. tauto.
  - unfold createBatch, batchLoop, batchStep. simpl. rewrite Hv. simpl.
    by rewrite !Hdd.
  - by rewrite Hda.
Qed.

(** Property X21.  The remarks of a submission can be set by the counsellor
    who submitted it whatever its status, also once a confirmed event has
    started: the update writes the remarks (the empty text for none) and
    changes no status, no date and no assignment.  Another counsellor is
    answered 403, an unknown id 404, and nothing changes. *)
Theorem updateRemarks_outcome now u id remarks db :
  usr_role u = RoleCounsellor →
  let result := updateRemarks now (Some u) (Some id) remarks db in
  (find_submission db id = None → result = (db, Error 404))
  ∧ (∀ sub, find_submission db id = Some sub →
       (s_submitted_by sub ≠ usr_username u → result = (db, Error 403))
       ∧ (s_submitted_by sub = usr_username u →
          snd result = Ok ()
          ∧ submission_assignments (fst result) = submission_assignments db
          ∧ map (λ s, (s_id s, s_status s, s_event_status s, s_start_date s,
                       s_end_date s, s_confirmed_at s))
                (submissions (fst result))
            = map (λ s, (s_id s, s_status s, s_event_status s, s_start_date s,
                         s_end_date s, s_confirmed_at s))
                  (submissions db)
          ∧ (∀ s, s ∈ submissions (fst result) → s_id s = id →
                  s_remarks s = Some (default EmptyString (truthy remarks)))
          ∧ ∀ s, s ∈ submissions db → s_id s ≠ id → s ∈ submissions (fst result))).
Proof.
  intros Hrole. cbv zeta. unfold updateRemarks, requireAuth. rewrite Hrole. simpl.
  destruct (find_submission db id) as [sub|]; [|split; [done|by intros ? [=]]].
  split; [done|]. intros ? [= <-]. split.
  - intros Hne. by rewrite decide_True.
  - intros Heq. rewrite decide_False by (by intros ?). simpl.
    split_and!; try done.
    + by apply map_updateWhereId.
    + intros s (s0 & _ & ->)%updateWhereId_elem. by case_decide.
    + intros s. apply updateWhereId_others.
Qed.

Lemma updateRemarks_outcome_witness :
  usr_role alice = RoleCounsellor
  ∧ (s_status <$> find_submission staffedStore 1) = Some confirmed
  ∧ snd (updateRemarks (sampleNow + 30 * 86400) (Some alice) (Some 1)
                       (Some "room changed"%string) staffedStore) = Ok ()
  ∧ updateRemarks sampleNow (Some bob) (Some 1) (Some "mine"%string) staffedStore
    = (staffedStore, Error 403).
Proof.
  assert (usr_role alice = RoleCounsellor) as Ha by reflexivity.
  assert (usr_role bob = RoleCounsellor) as Hb by reflexivity.
  assert (∃ sub, find_submission staffedStore 1 = Some sub
                 ∧ s_submitted_by sub = "alice"%string ∧ s_status sub = confirmed)
    as (sub & Hsub & Hby & Hst) by (eexists; split; [|split]; vm_compute; reflexivity).
  split; [exact Ha|]. split; [by rewrite Hsub; simpl; rewrite Hst|]. split.
  - refine (proj1 (proj2 (proj2 (updateRemarks_outcome (sampleNow + 30 * 86400) alice 1
                                   (Some "room changed"%string) staffedStore Ha)
                                sub Hsub) _)).
    exact Hby.
  - refine (proj1 (proj2 (updateRemarks_outcome sampleNow bob 1 (Some "mine"%string)
                            staffedStore Hb) sub Hsub) _).
    rewrite Hby. discriminate.
Defined.

Lemma find_submission_deleted id (l : list submission) :
  List.find (λ s, bool_decide (s_id s = id)) (filter (λ s, s_id s ≠ id) l) = None.
Proof.
  apply find_none_iff. intros s [Hne _]%list_elem_of_filter.
  by apply bool_decide_eq_false.
Qed.

(** Property X22.  A submission is deleted for an admin, and for a
    counsellor only when it is their own: another counsellor is answered 403
    and nothing changes.  After a deletion the submission is gone together
    with every assignment, suggestion and notification that referred to it;
    the other submissions and their assignments stay, and the deletion is
    logged. *)
Theorem deleteSubmission_outcome now u id db sub :
  find_submission db id = Some sub →
  let result := deleteSubmission now (Some u) (Some id) db in
  (usr_role u = RoleCounsellor → s_submitted_by sub ≠ usr_username u →
   result = (db, Error 403))
  ∧ (usr_role u = RoleAdmin ∨ s_submitted_by sub = usr_username u →
     snd result = Ok ()
     ∧ find_submission (fst result) id = None
     ∧ (∀ s, s ∈ submissions (fst result) ↔ s ∈ submissions db ∧ s_id s ≠ id)
     ∧ (∀ sid c, assigned (fst result) sid c ↔ assigned db sid c ∧ sid ≠ id)
     ∧ (∀ sid c, (sid, c) ∈ submission_suggestions (fst result)
                 ↔ (sid, c) ∈ submission_suggestions db ∧ sid ≠ id)
     ∧ (∀ n, n ∈ notifications (fst result)
             ↔ n ∈ notifications db ∧ n_related_submission_id n ≠ Some id)
     ∧ ∃ entry, activity_log (fst result) = activity_log db ++ [entry]
                ∧ a_action entry = "submission_deleted"%string
                ∧ a_username entry = usr_username u).
Proof.
  intros Hsub. cbv zeta. unfold deleteSubmission, requireAuth. rewrite Hsub. simpl.
  split.
  - intros Hrole Hne. by rewrite decide_True.
  - intros Hmay. rewrite decide_False.
    2: { intros [Hrole Hne]. destruct Hmay as [Hadmin|?]; [|done].
         rewrite Hrole in Hadmin. done. }
    simpl. split; [done|]. split.
    { unfold find_submission. simpl. apply find_submission_deleted. }
    split_and!.
    + intros s. rewrite list_elem_of_filter. tauto.
    + intros sid c. unfold assigned. simpl. rewrite !list_elem_of_filter. simpl. tauto.
    + intros sid c. rewrite !list_elem_of_filter. simpl. tauto.
    + intros n. rewrite list_elem_of_filter. tauto.
    + by eexists.
Qed.

Lemma deleteSubmission_outcome_witness :
  find_submission staffedStore 1 = Some (Admin.confirm sampleNow S1)
  ∧ deleteSubmission sampleNow (Some bob) (Some 1) staffedStore
    = (staffedStore, Error 403)
  ∧ snd (deleteSubmission sampleNow (Some alice) (Some 1) staffedStore) = Ok ()
  ∧ find_submission (fst (deleteSubmission sampleNow (Some root) (Some 1) staffedStore)) 1
    = None.
Proof.
  assert (find_submission staffedStore 1 = Some (Admin.confirm sampleNow S1)) as Hsub
    by (vm_compute; reflexivity).
  split; [exact Hsub|].
  pose proof (deleteSubmission_outcome sampleNow bob 1 staffedStore _ Hsub) as [Hb _].
  pose proof (deleteSubmission_outcome sampleNow alice 1 staffedStore _ Hsub) as [_ Ha].
  pose proof (deleteSubmission_outcome sampleNow root 1 staffedStore _ Hsub) as [_ Hr].
  split; [apply Hb; [reflexivity|discriminate]|].
  split; [apply Ha; by right|]. apply Hr. by left.
Defined.

End SubmissionRoutes.

Section System.

Lemma tracks_rows db db' :
  (∀ s', s' ∈ submissions db' →
     (s_start_date s' ≤ s_end_date s' ∧ s_status s' = pending)
     ∨ ∃ s, s ∈ submissions db ∧ s_id s' = s_id s
            ∧ s_start_date s' = s_start_date s ∧ s_end_date s' = s_end_date s
            ∧ s_status s' = s_status s ∧ s_confirmed_at s' = s_confirmed_at s) →
  (∀ sid c, assigned db' sid c → assigned db sid c) →
  tracks db db'.
Proof.
  intros Hrows Ha s' Hs'.
  destruct (Hrows s' Hs') as [?|(s & ? & ? & ? & ? & ? & ?)]; [by left|right].
  exists s. split_and!; try done. right. right. split_and!; try done.
  intros c. apply Ha.
Qed.

Lemma tracks_same db db' :
  submissions db' = submissions db →
  submission_assignments db' = submission_assignments db →
  tracks db db'.
Proof.
  intros Hs Ha. apply tracks_rows.
  - intros s' Hs'. right. exists s'. rewrite <- Hs. done.
  - intros sid c. unfold assigned. by rewrite Ha.
Qed.

Lemma tracks_frame db db' :
  same_but_notifications db db' → tracks db db'.
Proof.
  intros (_ & _ & _ & _ & Hs & _ & Ha & _). by apply tracks_same.
Qed.

Lemma tracks_ext db db1 db2 :
  submissions db2 = submissions db1 →
  submission_assignments db2 = submission_assignments db1 →
  tracks db db1 → tracks db db2.
Proof.
  intros Hs Ha Ht s'. rewrite Hs. intros Hs'.
  unfold assigned in *. rewrite Ha. by apply Ht.
Qed.

Lemma tracks_datesOrdered db db' : tracks db db' → datesOrdered db → datesOrdered db'.
Proof.
  intros Ht Hinv s' Hs'.
  destruct (Ht s' Hs') as [[? _]|(s & Hs & -> & -> & _)]; [done|by apply Hinv].
Qed.

Lemma tracks_cancelledUnstaffed db db' :
  tracks db db' → cancelledUnstaffed db → cancelledUnstaffed db'.
Proof.
  intros Ht Hinv s' Hs' Hna.
  destruct (Ht s' Hs') as [[_ ?]|(s & Hs & _ & _ & [[? _]|[[_ ?]|(Hid & Hst & _ & Ha)]])];
    try congruence; [done|].
  intros c Hc%Ha. rewrite Hid in Hc. apply (Hinv s Hs) in Hc; [done|congruence].
Qed.

Lemma tracks_confirmedStamped db db' :
  tracks db db' → confirmedStamped db → confirmedStamped db'.
Proof.
  intros Ht Hinv s' Hs' Hc.
  destruct (Ht s' Hs') as [[_ ?]|(s & Hs & _ & _ & [[_ ?]|[[? _]|(_ & Hst & -> & _)]])];
    try congruence.
  apply Hinv; [done|congruence].
Qed.

(** *** Each route and job *)

Lemma batchStep_rows now username st i e :
  let st' := batchStep now username st i e in
  submission_assignments (bs_db st') = submission_assignments (bs_db st)
  ∧ ∀ s', s' ∈ submissions (bs_db st') →
          s' ∈ submissions (bs_db st)
          ∨ (s_start_date s' ≤ s_end_date s' ∧ s_status s' = pending).
Proof.
  cbv zeta. unfold batchStep.
  destruct (validateEvent (bs_db st) e)
    as [[[[[[[[a b] display] o] n] t] city] country]|err] eqn:Hv; simpl.
  - apply validateEvent_inl in Hv as ((_ & Hord & _) & Ha & Hb & _).
    set (db1 := set_submissions _ _ _).
    set (db2 := logActivity _ _ _ _ db1).
    destruct (detectDuplicates_frame now (submissions_seq (bs_db st) + 1) db2)
      as (_ & _ & _ & _ & Hs & _ & Hsa & _).
    rewrite Hs, Hsa. simpl. split; [done|].
    intros s' [?| ->%list_elem_of_singleton]%elem_of_app; [by left|right].
    simpl. split; [by apply Hord|done].
  - split; [done|]. by left.
Qed.

Lemma batchLoop_rows now username events st i :
  let st' := batchLoop now username st i events in
  submission_assignments (bs_db st') = submission_assignments (bs_db st)
  ∧ ∀ s', s' ∈ submissions (bs_db st') →
          s' ∈ submissions (bs_db st)
          ∨ (s_start_date s' ≤ s_end_date s' ∧ s_status s' = pending).
Proof.
  revert st i. induction events as [|e events IH]; intros st i; simpl.
  - split; [done|]. by left.
  - destruct (IH (batchStep now username st i e) (S i)) as [Ha Hrows].
    destruct (batchStep_rows now username st i e) as [Ha' Hrows'].
    split; [congruence|].
    intros s' [Hin|?]%Hrows; [|by right]. by apply Hrows'.
Qed.

Lemma tracks_pending_or_old db db' :
  submission_assignments db' = submission_assignments db →
  (∀ s', s' ∈ submissions db' →
         s' ∈ submissions db ∨ (s_start_date s' ≤ s_end_date s' ∧ s_status s' = pending)) →
  tracks db db'.
Proof.
  intros Ha Hrows. apply tracks_rows.
  - intros s' [?|?]%Hrows; [right; by exists s'|by left].
  - intros sid c. unfold assigned. by rewrite Ha.
Qed.

Lemma tracks_createBatch now username events db :
  tracks db (fst (createBatch now username events db)).
Proof.
  unfold createBatch. destruct events as [[|e events]|]; try by apply tracks_same.
  cbn [fst].
  destruct (batchLoop_rows now username (e :: events)
              {| bs_db := db; bs_results := []; bs_errors := [] |} O) as [Ha Hrows].
  by apply tracks_pending_or_old.
Qed.

Lemma tracks_createSubmission now who body db :
  tracks db (fst (createSubmission now who body db)).
Proof.
  unfold createSubmission. destruct (requireAuth _ _); [|by apply tracks_same].
  destruct (validateEvent db (cb_event body))
    as [[[[[[[[a b] display] o] n] t] city] country]|err] eqn:Hv;
    [|by apply tracks_same].
  cbn [fst].
  apply validateEvent_inl in Hv as ((_ & Hord & _) & Ha & Hb & _).
  match goal with
  | |- tracks _ (fst (detectDuplicates ?now ?x ?db0)) =>
      destruct (detectDuplicates_frame now x db0) as (_ & _ & _ & _ & Hs & _ & Hsa & _)
  end.
  apply tracks_pending_or_old; [by rewrite Hsa|]. rewrite Hs. simpl.
  intros s' [?| ->%list_elem_of_singleton]%elem_of_app; [by left|right].
  simpl. split; [by apply Hord|done].
Qed.

Lemma tracks_updateWhereId db db' id f :
  submissions db' = updateWhereId id f (submissions db) →
  submission_assignments db' = submission_assignments db →
  (∀ s, (s_start_date (f s) ≤ s_end_date (f s) ∧ s_status (f s) = pending)
        ∨ (s_id (f s) = s_id s
           ∧ s_start_date (f s) = s_start_date s ∧ s_end_date (f s) = s_end_date s
           ∧ s_status (f s) = s_status s ∧ s_confirmed_at (f s) = s_confirmed_at s)) →
  tracks db db'.
Proof.
  intros Hs Ha Hf. apply tracks_rows.
  - rewrite Hs. intros s' (s & Hin & ->)%updateWhereId_elem.
    case_decide; [|right; by exists s].
    destruct (Hf s) as [?|?]; [by left|right]. by exists s.
  - intros sid c. unfold assigned. by rewrite Ha.
Qed.

Lemma tracks_updateSubmission now username id body db :
  tracks db (fst (updateSubmission now username id body db)).
Proof.
  unfold updateSubmission.
  destruct id as [id|]; [|by apply tracks_same].
  destruct (u_start_date body) as [a|]; [|by apply tracks_same].
  destruct (u_end_date body) as [b|]; [|by apply tracks_same].
  destruct (truthy (u_organizer body)) as [organizer|]; [|by apply tracks_same].
  destruct (truthy (u_city body)) as [city|]; [|by apply tracks_same].
  destruct (truthy (u_country body)) as [country|]; [|by apply tracks_same].
  destruct (Z.gtb_spec a b); [by apply tracks_same|].
  destruct (find_submission db id) as [sub|]; [|by apply tracks_same].
  repeat (case_decide; [by apply tracks_same|]). cbn [fst].
  eapply tracks_updateWhereId; [done|done|]. intros s. left. simpl. split; [lia|done].
Qed.

Lemma tracks_updateRemarks now who id remarks db :
  tracks db (fst (updateRemarks now who id remarks db)).
Proof.
  unfold updateRemarks.
  repeat (case_match; try by apply tracks_same). cbn [fst].
  eapply tracks_updateWhereId; [done|done|]. intros row. by right.
Qed.

Lemma tracks_deleteSubmissionRow id db : tracks db (deleteSubmissionRow id db).
Proof.
  apply tracks_rows.
  - intros s' [_ Hs']%list_elem_of_filter. right. by exists s'.
  - intros sid c. unfold assigned. simpl. rewrite list_elem_of_filter. tauto.
Qed.

Lemma tracks_deleteSubmission now who id db :
  tracks db (fst (deleteSubmission now who id db)).
Proof.
  unfold deleteSubmission.
  repeat (case_match; try by apply tracks_same). cbn [fst].
  apply tracks_rows; simpl.
  - intros s' [_ Hs']%list_elem_of_filter. right. by exists s'.
  - intros sid c. unfold assigned. simpl. rewrite !list_elem_of_filter. tauto.
Qed.

Lemma tracks_finalize now username id counsellor_ids db :
  tracks db (fst (finalize now username id counsellor_ids db)).
Proof.
  destruct (finalize now username id counsellor_ids db) as [db' [[]|code]] eqn:Hf.
  2: { apply finalize_Error in Hf as ->. by apply tracks_same. }
  destruct id as [id|]; [|done]. destruct counsellor_ids as [ids|]; [|done].
  apply finalize_Ok in Hf as (_ & Hothers & Hs & _). cbn [fst].
  intros s'. rewrite Hs. intros (s & Hin & ->)%updateWhereId_elem. right.
  exists s. split; [done|]. case_decide as Hid; simpl; [split_and!; try done; by left|].
  split_and!; try done. right. right. split_and!; try done.
  intros c. by apply Hothers.
Qed.

Lemma updateMeta_Error now username id body db db' code :
  updateMeta now username id body db = (db', Error code) →
  submissions db' = submissions db
  ∧ ∀ sid c, assigned db' sid c → assigned db sid c.
Proof.
  unfold updateMeta.
  destruct id as [id|]; [|by intros [= <-]].
  destruct (find_submission db id) as [row|]; [|by intros [= <-]].
  cbv zeta.
  destruct (match mb_sent_by_counsellor_id body with
            | SentUndefined => _ | SentNull => _ | SentNumber n => _
            | SentNotANumber => _ end) as [newSent|]; [|by intros [= <-]].
  destruct (match mb_payment_status body with Some v => _ | None => _ end)
    as [newPay|]; [|by intros [= <-]].
  destruct (match mb_event_status body with Some v => _ | None => _ end)
    as [newStatus|]; [|by intros [= <-]].
  case_decide; [done|]. intros [= <-]. case_bool_decide; [|done].
  split; [done|]. intros sid c. unfold assigned. simpl.
  rewrite list_elem_of_filter. tauto.
Qed.

Lemma tracks_updateMeta now username id body db :
  tracks db (fst (updateMeta now username id body db)).
Proof.
  destruct (updateMeta now username id body db) as [db' [[]|code]] eqn:Hf.
  2: { apply updateMeta_Error in Hf as [Hs Ha]. cbn [fst].
       apply tracks_rows; [|done]. rewrite Hs. intros s' ?. right. by exists s'. }
  destruct id as [id|]; [|done].
  apply updateMeta_Ok in Hf
    as (row & newSent & newPay & newStatus & newRemarks & _ & _ & _ & Hs & Ha).
  cbn [fst]. intros s'. rewrite Hs. intros (s & Hin & ->)%updateWhereId_elem. right.
  exists s. split; [done|]. unfold assigned. rewrite Ha.
  destruct (bool_decide (newStatus = CANCELLED ∨ newStatus = POSTPONED));
    destruct (decide (s_id s = id)) as [Hid|Hid]; simpl.
  - split; [done|]. split; [done|]. right. left.
    split; [done|]. intros c [Hne _]%list_elem_of_filter. by apply Hne.
  - split; [done|]. split; [done|]. right. right. split_and!; try done.
    intros c. rewrite list_elem_of_filter. tauto.
  - split; [done|]. split; [done|]. right. right. by split_and!.
  - split; [done|]. split; [done|]. right. right. by split_and!.
Qed.

Lemma tracks_reschedule now who id body db :
  tracks db (fst (reschedule now who id body db)).
Proof.
  unfold reschedule.
  destruct (requireAuth _ _); [|by apply tracks_same].
  destruct id as [id|]; [|by apply tracks_same].
  destruct (rs_start_date body) as [| |a]; try by apply tracks_same.
  destruct (rs_end_date body) as [| |b]; try by apply tracks_same.
  destruct (Z.gtb_spec a b); [by apply tracks_same|].
  destruct (find_submission db id) as [sub|]; [|by apply tracks_same]. cbn [fst].
  eapply tracks_updateWhereId; [done|done|]. intros s. left. simpl. split; [lia|done].
Qed.

Lemma tracks_deleteCounsellor who id db :
  tracks db (fst (deleteCounsellor who id db)).
Proof.
  unfold deleteCounsellor.
  repeat (case_match; try by apply tracks_same). cbn [fst].
  apply tracks_rows; simpl.
  - intros s' (s & -> & Hs)%list_elem_of_fmap. right. exists s.
    by destruct (decide (s_sent_by_counsellor_id s = Some _)).
  - intros sid cid. unfold assigned. simpl. rewrite list_elem_of_filter. tauto.
Qed.

Lemma tracks_markWhere now status P `{∀ n, Decision (P n)} ib :
  tracks (ib_db ib) (ib_db (markWhere now status P ib)).
Proof. by apply tracks_same. Qed.

Lemma tracks_deleteWhere P `{∀ n, Decision (P n)} ib :
  tracks (ib_db ib) (ib_db (deleteWhere P ib)).
Proof. by apply tracks_same. Qed.

(** The clear-read request is served by the route of one notification and
    finds none. *)
Lemma clearRead_served who ib :
  clearRead who ib
  = (ib, match who with Some _ => Error 404 | None => Error 401 end).
Proof.
  unfold clearRead, deleteRequest.
  assert (dispatch deleteRoutes ["notifications"; "clear-read"]%string
          = Some (DeleteById, ["clear-read"%string])) as -> by (vm_compute; reflexivity).
  assert (idOfText "clear-read" = None) as -> by (vm_compute; reflexivity).
  by destruct who.
Qed.

Lemma tracks_serve now req ib : tracks (ib_db ib) (ib_db (serve now req ib)).
Proof.
  destruct req; simpl.
  - apply tracks_createSubmission.
  - apply tracks_createBatch.
  - apply tracks_updateSubmission.
  - apply tracks_updateRemarks.
  - apply tracks_deleteSubmission.
  - apply tracks_finalize.
  - apply tracks_updateMeta.
  - apply tracks_reschedule.
  - apply tracks_deleteCounsellor.
  - unfold markRead, markOne. repeat case_match; cbn [fst]; by apply tracks_same.
  - unfold dismissNotification, markOne. repeat case_match; cbn [fst]; by apply tracks_same.
  - unfold deleteNotification. repeat case_match; cbn [fst]; by apply tracks_same.
  - unfold markAllRead. repeat case_match; cbn [fst]; by apply tracks_same.
  - rewrite clearRead_served. by apply tracks_same.
  - unfold putSettings. repeat case_match; cbn [fst]; by apply tracks_same.
  - unfold dismissDuplicate. repeat case_match; cbn [fst]; by apply tracks_same.
  - unfold mergeDuplicates. repeat case_match; cbn [fst]; try by apply tracks_same.
    all: cbn [ib_db]; eapply tracks_ext; [| |apply tracks_deleteSubmissionRow]; done.
  - apply tracks_frame, checkCounsellorOverload_frame.
  - apply tracks_frame, generateWeeklyReport_frame.
Qed.

Lemma serveAll_invariant (I : store → Prop) requests ib :
  (∀ db db', tracks db db' → I db → I db') →
  I (ib_db ib) → I (ib_db (serveAll requests ib)).
Proof.
  intros Hstep. revert ib. unfold serveAll.
  induction requests as [|[now req] requests IH]; intros ib Hinv; [done|].
  simpl. apply IH. eapply Hstep; [apply tracks_serve|done].
Qed.

(** Property X23.  As long as the dates that requests carry are calendar
    days written YYYY-MM-DD (the values of [date]; the create, batch and
    edit routes compare the texts as they come and test no format, so a
    request with a text such as 2026-1-5 is not covered), no sequence of
    requests and job runs makes a submission end before it starts: on a
    store where every submission has its dates in order, they are in order
    after every request, whatever its answer.  The requests are those of
    [request], which lists every route and job that writes a submission or
    an assignment. *)
Theorem serveAll_datesOrdered requests ib :
  datesOrdered (ib_db ib) → datesOrdered (ib_db (serveAll requests ib)).
Proof. apply serveAll_invariant. apply tracks_datesOrdered. Qed.

Lemma serveAll_datesOrdered_witness :
  datesOrdered emptyStore
  ∧ datesOrdered (ib_db (serveAll sampleDay (inboxOf emptyStore)))
  ∧ map (λ s, (s_id s, s_status s, s_event_status s))
        (submissions (ib_db (serveAll sampleDay (inboxOf emptyStore))))
    = [(1, confirmed, ONGOING)].
Proof.
  assert (datesOrdered emptyStore) as H0 by (intros s Hs; by apply elem_of_nil in Hs).
  split; [exact H0|].
  split; [exact (serveAll_datesOrdered sampleDay (inboxOf emptyStore) H0)|].
  vm_compute. reflexivity.
Defined.

(** Property X24.  A submission that is not applicable has no staff, and no
    sequence of requests and job runs changes that: cancelling or postponing
    frees the counsellors, and only a new finalization, which confirms the
    submission, staffs it again. *)
Theorem serveAll_cancelledUnstaffed requests ib :
  cancelledUnstaffed (ib_db ib) → cancelledUnstaffed (ib_db (serveAll requests ib)).
Proof. apply serveAll_invariant. apply tracks_cancelledUnstaffed. Qed.

Lemma serveAll_cancelledUnstaffed_witness :
  cancelledUnstaffed emptyStore
  ∧ cancelledUnstaffed (ib_db (serveAll (take 3 sampleDay) (inboxOf emptyStore)))
  ∧ map (λ s, (s_id s, s_status s, s_event_status s))
        (submissions (ib_db (serveAll (take 3 sampleDay) (inboxOf emptyStore))))
    = [(1, not_applicable, POSTPONED)].
Proof.
  assert (cancelledUnstaffed emptyStore) as H0
    by (intros s Hs; by apply elem_of_nil in Hs).
  split; [exact H0|].
  split; [exact (serveAll_cancelledUnstaffed (take 3 sampleDay) (inboxOf emptyStore) H0)|].
  vm_compute. reflexivity.
Defined.

(** Property X25.  A confirmed submission carries the time of its
    confirmation, and no sequence of requests and job runs changes that:
    finalization is the only way to confirm, and it stamps the time. *)
Theorem serveAll_confirmedStamped requests ib :
  confirmedStamped (ib_db ib) → confirmedStamped (ib_db (serveAll requests ib)).
Proof. apply serveAll_invariant. apply tracks_confirmedStamped. Qed.

Lemma serveAll_confirmedStamped_witness :
  confirmedStamped emptyStore
  ∧ confirmedStamped (ib_db (serveAll sampleDay (inboxOf emptyStore)))
  ∧ map (λ s, (s_status s, s_confirmed_at s))
        (submissions (ib_db (serveAll sampleDay (inboxOf emptyStore))))
    = [(confirmed, Some (sampleNow + 240))].
Proof.
  assert (confirmedStamped emptyStore) as H0
    by (intros s Hs; by apply elem_of_nil in Hs).
  split; [exact H0|].
  split; [exact (serveAll_confirmedStamped sampleDay (inboxOf emptyStore) H0)|].
  vm_compute. reflexivity.
Defined.

End System.

Section InboxRoutes.

Lemma NoDup_ids (l : list notification) a b :
  NoDup (n_id <$> l) → a ∈ l → b ∈ l → n_id a = n_id b → a = b.
Proof.
  induction l as [|x l IH]; simpl; intros Hnd Ha Hb Hid.
  - by apply elem_of_nil in Ha.
  - apply NoDup_cons in Hnd as [Hx Hnd].
    apply elem_of_cons in Ha as [->|Ha]; apply elem_of_cons in Hb as [->|Hb]; try done.
    + exfalso. apply Hx. rewrite Hid. apply list_elem_of_fmap. by exists b.
    + exfalso. apply Hx. rewrite <- Hid. apply list_elem_of_fmap. by exists a.
    + by apply IH.
Qed.

Lemma requireAuth_any u : requireAuth None (Some u) = Ok u.
Proof. done. Qed.

Lemma requireAuth_admin who :
  (∃ u, requireAuth (Some RoleAdmin) who = Ok u ∧ who = Some u ∧ usr_role u = RoleAdmin)
  ∨ (∃ code, requireAuth (Some RoleAdmin) who = Error code
             ∧ ∀ u, who = Some u → usr_role u ≠ RoleAdmin).
Proof.
  destruct who as [u|]; simpl.
  - case_decide as Hr.
    + right. eexists. split; [done|]. by intros ? [= <-].
    + left. exists u. split_and!; [done..|]. by destruct (decide (usr_role u = RoleAdmin)).
  - right. eexists. split; [done|]. done.
Qed.

Lemma ownNotification_Some u id ib n :
  ownNotification u id ib = Some n →
  n ∈ notifications (ib_db ib) ∧ id = Some (n_id n) ∧ visible u n.
Proof.
  unfold ownNotification. destruct id as [i|]; simpl; [|done].
  intros [Hn Hp]%find_Some_elem. apply bool_decide_eq_true in Hp as [<- Hv]. done.
Qed.

Lemma ownNotification_None u i ib n :
  ownNotification u (Some i) ib = None →
  n ∈ notifications (ib_db ib) → n_id n = i → ¬ visible u n.
Proof.
  unfold ownNotification. simpl. intros Hf Hn Hi Hv.
  pose proof (find_None_elem _ _ Hf n Hn) as Hp.
  apply bool_decide_eq_false in Hp. by apply Hp.
Qed.

Lemma markWhere_frame now status P `{∀ n, Decision (P n)} ib :
  same_but_notifications (ib_db ib) (ib_db (markWhere now status P ib)).
Proof. by repeat split. Qed.

Lemma deleteWhere_frame P `{∀ n, Decision (P n)} ib :
  same_but_notifications (ib_db ib) (ib_db (deleteWhere P ib)).
Proof. by repeat split. Qed.

Lemma markWhere_keeps now status P `{∀ n, Decision (P n)} ib n :
  n ∈ notifications (ib_db ib) →
  (∀ m, m ∈ notifications (ib_db ib) → P m → n_id m ≠ n_id n) →
  n ∈ notifications (ib_db (markWhere now status P ib))
  ∧ ib_read_at (markWhere now status P ib) !! n_id n = ib_read_at ib !! n_id n.
Proof.
  simpl. generalize (ib_read_at ib). intros reads.
  induction (notifications (ib_db ib)) as [|x l IH]; intros Hn HP.
  - by apply elem_of_nil in Hn.
  - simpl. assert (∀ m, m ∈ l → P m → n_id m ≠ n_id n) as HP'
      by (intros m Hm; apply HP; by right).
    assert (foldr (λ n0 m, if decide (P n0) then <[n_id n0:=now]> m else m) reads l
              !! n_id n = reads !! n_id n) as Hreads.
    { clear -HP'. induction l as [|y l IH]; [done|]. simpl.
      assert (∀ m, m ∈ l → P m → n_id m ≠ n_id n) as HP''
        by (intros m Hm; apply HP'; by right).
      case_decide as Hy; [|by apply IH].
      rewrite lookup_insert_ne by (apply HP'; [by left|done]). by apply IH. }
    split.
    + apply elem_of_cons in Hn as [->|Hn].
      * case_decide as Hx; [|by left]. exfalso. by apply (HP x); [left|..].
      * right. by apply IH.
    + case_decide as Hx; [|done].
      rewrite lookup_insert_ne by (apply HP; [by left|done]). done.
Qed.

Lemma deleteWhere_keeps P `{∀ n, Decision (P n)} ib n :
  n ∈ notifications (ib_db ib) →
  (∀ m, m ∈ notifications (ib_db ib) → P m → n_id m ≠ n_id n) →
  n ∈ notifications (ib_db (deleteWhere P ib))
  ∧ ib_read_at (deleteWhere P ib) !! n_id n = ib_read_at ib !! n_id n.
Proof.
  simpl. intros Hn HP. split.
  - apply list_elem_of_filter. split; [|done]. intros HPn. by apply (HP n).
  - clear Hn. generalize (ib_read_at ib). intros reads.
    induction (notifications (ib_db ib)) as [|y l IH]; [done|]. simpl.
    assert (∀ m, m ∈ l → P m → n_id m ≠ n_id n) as HP'
      by (intros m Hm; apply HP; by right).
    case_decide as Hy; [|by apply IH].
    rewrite lookup_delete_ne by (apply HP; [by left|done]). by apply IH.
Qed.

(** Property X26.  The routes a user has on their notifications (mark read,
    dismiss, delete, mark all read, clear read) never touch a notification
    that is not addressed to the user: it stays in the table as it was, with
    its time of reading, and no other table changes.  Notification ids are
    a primary key. *)
Theorem personal_routes_keep_others now who req ib n :
  NoDup (n_id <$> notifications (ib_db ib)) →
  personalRequest who req →
  n ∈ notifications (ib_db ib) →
  (∀ u, who = Some u → ¬ visible u n) →
  n ∈ notifications (ib_db (serve now req ib))
  ∧ ib_read_at (serve now req ib) !! n_id n = ib_read_at ib !! n_id n
  ∧ same_but_notifications (ib_db ib) (ib_db (serve now req ib)).
Proof.
  intros Hnd Hreq Hn Hvis.
  assert (∀ m, m ∈ notifications (ib_db ib) → n_id m = n_id n → m = n) as Hkey
    by (intros m Hm Hid; by apply (NoDup_ids _ _ _ Hnd)).
  assert (∀ u target status,
            who = Some u → ownNotification u target ib = Some status →
            ∀ m, m ∈ notifications (ib_db ib) → n_id m = n_id status →
                 n_id m ≠ n_id n) as Hone.
  { intros u target n0 Hu (Hn0 & _ & Hv0)%ownNotification_Some m Hm Hid Hmn.
    apply (Hvis u Hu). by rewrite <- (Hkey n0 Hn0) by congruence. }
  assert (∀ u, who = Some u →
            ∀ m, m ∈ notifications (ib_db ib) → visible u m → n_id m ≠ n_id n) as Hall.
  { intros u Hu m Hm Hv Hmn. apply (Hvis u Hu). by rewrite <- (Hkey m Hm). }
  assert (∀ ib', (n ∈ notifications (ib_db ib')
                  ∧ ib_read_at ib' !! n_id n = ib_read_at ib !! n_id n) →
                 same_but_notifications (ib_db ib) (ib_db ib') →
                 n ∈ notifications (ib_db ib')
                 ∧ ib_read_at ib' !! n_id n = ib_read_at ib !! n_id n
                 ∧ same_but_notifications (ib_db ib) (ib_db ib')) as Hsplit
    by (intros ib' [? ?] ?; done).
  destruct req; simpl in Hreq; try done; subst who0; unfold serve;
    (destruct who as [u|]; [|split_and!; [done..|apply same_but_notifications_refl]]).
  - unfold markRead, markOne. rewrite requireAuth_any.
    destruct (ownNotification u id ib) as [n0|] eqn:Hown; cbn [fst];
      [|split_and!; [done..|apply same_but_notifications_refl]].
    apply Hsplit; [apply markWhere_keeps; eauto|apply markWhere_frame].
  - unfold dismissNotification, markOne. rewrite requireAuth_any.
    destruct (ownNotification u id ib) as [n0|] eqn:Hown; cbn [fst];
      [|split_and!; [done..|apply same_but_notifications_refl]].
    apply Hsplit; [apply markWhere_keeps; eauto|apply markWhere_frame].
  - unfold deleteNotification. rewrite requireAuth_any.
    destruct (ownNotification u id ib) as [n0|] eqn:Hown; cbn [fst];
      [|split_and!; [done..|apply same_but_notifications_refl]].
    apply Hsplit; [apply deleteWhere_keeps; eauto|apply deleteWhere_frame].
  - unfold markAllRead. rewrite requireAuth_any. cbn [fst].
    apply Hsplit; [apply markWhere_keeps; [done|]|apply markWhere_frame].
    intros m Hm [Hv _]. by apply (Hall u).
  - rewrite clearRead_served. cbn [fst].
    split_and!; [done..|apply same_but_notifications_refl].
Qed.


Lemma personal_routes_keep_others_witness :
  ∃ n, n ∈ notifications (ib_db flaggedInbox)
       ∧ n_type n = duplicate_detected
       ∧ n ∈ notifications
               (ib_db (serve (sampleNow + 120) (MarkAllRead (Some alice)) flaggedInbox))
       ∧ map (λ m, statusText (n_status m))
             (notifications
                (ib_db (serve (sampleNow + 120) (MarkAllRead (Some alice)) flaggedInbox)))
         = ["unread"; "read"]%string.
Proof.
  assert (∃ n rest, notifications (ib_db flaggedInbox) = n :: rest
                    ∧ n_type n = duplicate_detected
                    ∧ n_target_role n = "admin"%string ∧ n_target_user n = None)
    as (n & rest & Hl & Ht & Hr & Hu).
  { vm_compute. eexists _, _. split; [reflexivity|]. done. }
  assert (n ∈ notifications (ib_db flaggedInbox)) as Hn by (rewrite Hl; by left).
  assert (NoDup (n_id <$> notifications (ib_db flaggedInbox))) as Hnd
    by (apply (bool_decide_unpack _); vm_compute; reflexivity).
  assert (∀ u, Some alice = Some u → ¬ visible u n) as Hvis.
  { intros u [= <-]. unfold visible. rewrite Hr, Hu. by intros [?|[?|?]]. }
  destruct (personal_routes_keep_others (sampleNow + 120) (Some alice)
              (MarkAllRead (Some alice)) flaggedInbox n Hnd eq_refl Hn Hvis)
    as (Hkept & _).
  exists n. split_and!; [done|done|done|]. vm_compute. reflexivity.
Defined.

Lemma setStatus_visible u status n : visible u (setStatus status n) ↔ visible u n.
Proof. done. Qed.

(** Property X27.  No [DELETE] request reaches the handler registered for
    [/notifications/clear-read]: the route [/notifications/:id] is
    registered before it and matches every path that route matches.  The
    clear-read request of the page is therefore answered as the deletion of
    a notification named [clear-read]: 401 without a token, 404 with one,
    and nothing is deleted.  On the sample inbox after mark-all-read the
    handler would have deleted one notification; the request deletes
    none. *)
Theorem clearRead_unreachable who ib path :
  (∀ params, dispatch deleteRoutes path ≠ Some (DeleteClearRead, params))
  ∧ clearRead who ib
    = (ib, match who with Some _ => Error 404 | None => Error 401 end)
  ∧ (∀ now, serve now (ClearRead who) ib = ib)
  ∧ (let ib1 := serve (sampleNow + 120) (MarkAllRead (Some alice)) flaggedInbox in
     snd (clearReadHandler (Some alice) ib1) = Ok 1
     ∧ length (notifications (ib_db (fst (clearReadHandler (Some alice) ib1)))) = 1%nat
     ∧ snd (clearRead (Some alice) ib1) = Error 404
     ∧ length (notifications (ib_db (fst (clearRead (Some alice) ib1)))) = 2%nat).
Proof.
  split_and!.
  - intros params. unfold deleteRoutes.
    destruct path as [|a [|b [|c rest]]]; simpl;
      repeat (case_bool_decide; simpl); try done.
    subst b. done.
  - apply clearRead_served.
  - intros now. simpl. by rewrite clearRead_served.
  - intros ib1. rewrite clearRead_served. cbn [fst snd].
    split_and!; [vm_compute; reflexivity..|done|vm_compute; reflexivity].
Qed.


Lemma lastEntry_snoc entries e key :
  lastEntry (entries ++ [e]) key
  = if decide (e.1 = key) then Some e.2 else lastEntry entries key.
Proof.
  unfold lastEntry. rewrite filter_app, filter_cons, filter_nil.
  case_decide; [by rewrite last_snoc|by rewrite app_nil_r].
Qed.

Lemma foldl_updateSetting m entries key :
  foldl updateSetting m entries !! key
  = (λ old, from_option jsonString old (lastEntry entries key)) <$> m !! key.
Proof.
  induction entries as [|e entries IH] using rev_ind.
  - simpl. by destruct (m !! key).
  - rewrite foldl_app, lastEntry_snoc. simpl. unfold updateSetting at 1.
    destruct (foldl updateSetting m entries !! e.1) eqn:He.
    + case_decide as Hk.
      * subst key. rewrite lookup_insert_eq. rewrite IH in He.
        by destruct (m !! e.1).
      * by rewrite lookup_insert_ne.
    + case_decide as Hk; [|done].
      subst key. rewrite He. rewrite IH in He. by destruct (m !! e.1).
Qed.

(** Property X28.  The settings route only rewrites values: it answers 200
    exactly for an admin who sends a settings object, a refused request
    changes nothing, no key is added or removed, and a key of the table that
    the object names takes the text of the value the object gives it (the
    last one when it is named twice).  A switch set to a boolean is
    then enabled exactly when the boolean is true and the key was in the
    table. *)
Theorem putSettings_outcome who settings db :
  let db' := fst (putSettings who settings db) in
  let answer := snd (putSettings who settings db) in
  (answer = Ok () ↔ ∃ u entries, who = Some u ∧ usr_role u = RoleAdmin
                                ∧ settings = Some entries)
  ∧ (answer ≠ Ok () → db' = db)
  ∧ (∀ key, is_Some (notification_settings db' !! key)
            ↔ is_Some (notification_settings db !! key))
  ∧ (∀ entries key, answer = Ok () → settings = Some entries →
       notification_settings db' !! key
       = (λ old, from_option jsonString old (lastEntry entries key))
           <$> notification_settings db !! key)
  ∧ (∀ entries key b, answer = Ok () → settings = Some entries →
       lastEntry entries key = Some (JBool b) →
       isSettingEnabled db' key
       = b && bool_decide (is_Some (notification_settings db !! key)))
  ∧ submissions db' = submissions db
  ∧ submission_assignments db' = submission_assignments db
  ∧ notifications db' = notifications db.
Proof.
  unfold putSettings.
  destruct (requireAuth_admin who) as [(u & -> & -> & Hr)|(code & -> & Hr)]; cbn [fst snd].
  - destruct settings as [entries|]; cbn [fst snd].
    + split_and!; try done.
      * split; [|done]. intros _. by exists u, entries.
      * intros key. simpl. rewrite foldl_updateSetting, fmap_is_Some. done.
      * intros ? key _ [= <-]. simpl. apply foldl_updateSetting.
      * intros ? key b _ [= <-] Hlast. unfold isSettingEnabled, getSetting. simpl.
        rewrite foldl_updateSetting, Hlast.
        destruct (notification_settings db !! key) as [old|] eqn:Hold; simpl.
        -- by destruct b.
        -- by destruct b.
    + split_and!; try done. split; [done|]. by intros (? & ? & _ & _ & ?).
  - split_and!; try done. split; [done|].
    intros (u & ? & -> & Hadmin & _). by destruct (Hr u).
Qed.

Lemma find_map_same {A} (p : A → bool) (f : A → A) (l : list A) :
  (∀ x, p (f x) = p x) → List.find p (map f l) = f <$> List.find p l.
Proof.
  intros Hp. induction l as [|x l IH]; [done|]. simpl. rewrite Hp.
  by destruct (p x).
Qed.

Lemma duplicateNotification_Some id ib n :
  duplicateNotification id ib = Some n →
  n ∈ notifications (ib_db ib) ∧ id = Some (n_id n) ∧ n_type n = duplicate_detected.
Proof.
  unfold duplicateNotification. destruct id as [i|]; simpl; [|done].
  intros [Hn Hp]%find_Some_elem. apply bool_decide_eq_true in Hp as [<- Ht]. done.
Qed.

Lemma duplicateNotification_markWhere now status P `{∀ n, Decision (P n)} id ib :
  duplicateNotification id (markWhere now status P ib)
  = (λ n, if decide (P n) then setStatus status n else n) <$> duplicateNotification id ib.
Proof.
  unfold duplicateNotification. destruct id as [i|]; [|done]. simpl.
  apply find_map_same. intros x. by case_decide.
Qed.

Lemma elem_of_markWhere now status P `{∀ n, Decision (P n)} ib m :
  m ∈ notifications (ib_db (markWhere now status P ib)) →
  ∃ n, n ∈ notifications (ib_db ib)
       ∧ m = (if decide (P n) then setStatus status n else n).
Proof.
  simpl. induction (notifications (ib_db ib)) as [|x l IH]; simpl.
  - by intros ?%elem_of_nil.
  - intros [->|Hm]%elem_of_cons.
    + exists x. split; [by left|done].
    + destruct (IH Hm) as (n & ? & ?). exists n. split; [by right|done].
Qed.

Lemma markWhere_marks now status P `{∀ n, Decision (P n)} ib n :
  n ∈ notifications (ib_db ib) → P n →
  setStatus status n ∈ notifications (ib_db (markWhere now status P ib)).
Proof.
  simpl. induction (notifications (ib_db ib)) as [|x l IH]; simpl.
  - by intros ?%elem_of_nil.
  - intros [->|Hn]%elem_of_cons HP.
    + rewrite decide_True by done. by left.
    + right. by apply IH.
Qed.

(** A pass never reports a pair that is dismissed. *)
Lemma detectDuplicates_not_dismissed now x db dup :
  dup ∈ snd (detectDuplicates now x db) →
  ¬ dismissed db x (existingSubmissionId dup).
Proof.
  unfold detectDuplicates. destruct (negb _); [by intros ?%elem_of_nil|].
  destruct (find_submission db x) as [newSub|]; [|by intros ?%elem_of_nil].
  intros Hdup.
  destruct (checkCandidates_sound now
              (parseFloat (settingOr db "duplicate_threshold" "0.7")) x newSub db
              (candidatesQuery db x newSub) (db, [])) as [_ H];
    [apply same_but_notifications_refl|].
  destruct (H dup Hdup) as [?%elem_of_nil|(c & t & _ & -> & Hnd & _)]; done.
Qed.

(** Property X29.  Once an admin has dismissed a duplicate warning about a
    new and an existing submission, no later duplicate check of either
    submission reports the other; the warning is dismissed, the submissions
    are untouched, and dismissing the warning again records nothing
    more. *)
Theorem dismissDuplicate_stops_flagging now u id ib n x y score factors :
  usr_role u = RoleAdmin →
  duplicateNotification id ib = Some n →
  n_metadata n = Some (MetaDuplicate x y score factors) →
  let ib' := fst (dismissDuplicate now (Some u) id ib) in
  snd (dismissDuplicate now (Some u) id ib) = Ok ()
  ∧ (∀ later dup, dup ∈ snd (detectDuplicates later x (ib_db ib')) →
                  existingSubmissionId dup ≠ y)
  ∧ (∀ later dup, dup ∈ snd (detectDuplicates later y (ib_db ib')) →
                  existingSubmissionId dup ≠ x)
  ∧ (∀ m, m ∈ notifications (ib_db ib') → n_id m = n_id n →
          statusText (n_status m) = "dismissed"%string)
  ∧ submissions (ib_db ib') = submissions (ib_db ib)
  ∧ (∀ later,
       let again := dismissDuplicate later (Some u) id ib' in
       snd again = Ok ()
       ∧ duplicate_dismissals (ib_db (fst again)) = duplicate_dismissals (ib_db ib')).
Proof.
  intros Hadmin Hfind Hmeta.
  assert (requireAuth (Some RoleAdmin) (Some u) = Ok u) as Hauth
    by (simpl; by rewrite decide_False by (by intros ?)).
  unfold dismissDuplicate at 1 2. rewrite Hauth, Hfind, Hmeta. cbn [fst snd].
  set (db1 := if decide ((x, y) ∈ duplicate_dismissals (ib_db ib)) then ib_db ib
              else set_dismissals (ib_db ib) (duplicate_dismissals (ib_db ib) ++ [(x, y)])).
  set (ib1 := {| ib_db := db1; ib_read_at := ib_read_at ib |}).
  assert (notifications db1 = notifications (ib_db ib)) as Hnot
    by (unfold db1; by case_decide).
  assert ((x, y) ∈ duplicate_dismissals db1) as Hpair.
  { unfold db1. case_decide; [done|]. simpl. apply elem_of_app. right. by left. }
  set (ib' := markWhere _ _ _ ib1).
  assert (duplicate_dismissals (ib_db ib') = duplicate_dismissals db1) as Hdis by done.
  split_and!.
  - done.
  - intros later dup Hdup Heq. apply (detectDuplicates_not_dismissed _ _ _ _ Hdup).
    rewrite Heq. left. by rewrite Hdis.
  - intros later dup Hdup Heq. apply (detectDuplicates_not_dismissed _ _ _ _ Hdup).
    rewrite Heq. right. by rewrite Hdis.
  - intros m (m0 & _ & ->)%elem_of_markWhere.
    destruct (decide (n_id m0 = n_id n)) as [|Hne]; [done|]. intros Hid. by destruct Hne.
  - unfold ib', ib1, db1. simpl. by case_decide.
  - intros later. unfold dismissDuplicate. rewrite Hauth.
    unfold ib'. rewrite duplicateNotification_markWhere.
    assert (duplicateNotification id ib1 = Some n) as ->.
    { unfold duplicateNotification in *. simpl. by rewrite Hnot. }
    simpl fmap. rewrite decide_True by done. cbn [n_metadata setStatus].
    rewrite Hmeta. cbn [fst snd]. split; [done|].
    cbn [ib_db markWhere]. rewrite decide_True by done. done.
Qed.


Lemma dismissDuplicate_stops_flagging_witness :
  ∃ n, duplicateNotification (Some 1) flaggedInbox = Some n
       ∧ aboutPair 2 1 n
       ∧ map existingSubmissionId
             (snd (detectDuplicates (sampleNow + 200) 2 (ib_db flaggedInbox))) = [1]
       ∧ snd (dismissDuplicate (sampleNow + 100) (Some root) (Some 1) flaggedInbox) = Ok ()
       ∧ ∀ later dup,
           dup ∈ snd (detectDuplicates later 2
                        (ib_db (fst (dismissDuplicate (sampleNow + 100) (Some root)
                                                      (Some 1) flaggedInbox)))) →
           existingSubmissionId dup ≠ 1.
Proof.
  assert (∃ n score factors,
            duplicateNotification (Some 1) flaggedInbox = Some n
            ∧ n_metadata n = Some (MetaDuplicate 2 1 score factors))
    as (n & score & factors & Hf & Hm)
    by (vm_compute; eexists _, _, _; split; reflexivity).
  destruct (dismissDuplicate_stops_flagging (sampleNow + 100) root (Some 1) flaggedInbox
              n 2 1 score factors eq_refl Hf Hm) as (Hok & Hx & _).
  exists n. split_and!; [done|by exists score, factors| |exact Hok|exact Hx].
  vm_compute. reflexivity.
Defined.

(** Property X30.  Merging on a duplicate warning deletes exactly one of
    the two submissions: the new one when the body names the existing one
    to keep, the existing one in every other case, also when the body names
    no submission or an unrelated one.  The deleted submission goes with its
    assignments and with the notifications about it, so the warning itself
    is deleted when it is about the deleted submission and is marked
    actioned otherwise; one activity is logged. *)
Theorem mergeDuplicates_outcome now u id keepSubmissionId ib n x y score factors :
  usr_role u = RoleAdmin →
  duplicateNotification id ib = Some n →
  n_metadata n = Some (MetaDuplicate x y score factors) →
  let deleted := if decide (keepSubmissionId = Some y) then x else y in
  let ib' := fst (mergeDuplicates now (Some u) id keepSubmissionId ib) in
  snd (mergeDuplicates now (Some u) id keepSubmissionId ib) = Ok deleted
  ∧ (∀ s, s ∈ submissions (ib_db ib') ↔ s ∈ submissions (ib_db ib) ∧ s_id s ≠ deleted)
  ∧ (∀ c, ¬ assigned (ib_db ib') deleted c)
  ∧ (∀ m, m ∈ notifications (ib_db ib') → n_related_submission_id m ≠ Some deleted)
  ∧ (n_related_submission_id n ≠ Some deleted →
     setStatus actioned n ∈ notifications (ib_db ib'))
  ∧ (∀ m, m ∈ notifications (ib_db ib') → n_id m = n_id n → n_status m = actioned)
  ∧ length (activity_log (ib_db ib')) = S (length (activity_log (ib_db ib))).
Proof.
  intros Hadmin Hfind Hmeta.
  assert (requireAuth (Some RoleAdmin) (Some u) = Ok u) as Hauth
    by (simpl; by rewrite decide_False by (by intros ?)).
  unfold mergeDuplicates. rewrite Hauth, Hfind, Hmeta. cbn [fst snd].
  set (deleted := if decide (keepSubmissionId = Some y) then x else y).
  set (ib1 := {| ib_db := deleteSubmissionRow deleted (ib_db ib);
                 ib_read_at := ib_read_at ib |}).
  apply duplicateNotification_Some in Hfind as (Hn & _ & _).
  split_and!.
  - done.
  - intros s. simpl. by rewrite list_elem_of_filter, (comm (∧)).
  - intros c. unfold assigned. simpl. rewrite list_elem_of_filter. by intros [? _].
  - intros m (m0 & Hm0 & ->)%(elem_of_markWhere now).
    simpl in Hm0. apply list_elem_of_filter in Hm0 as [Hrel _].
    by case_decide.
  - intros Hrel.
    apply (markWhere_marks now actioned (λ m, n_id m = n_id n) ib1 n); [|done].
    simpl. by apply list_elem_of_filter.
  - intros m (m0 & _ & ->)%(elem_of_markWhere now).
    destruct (decide (n_id m0 = n_id n)) as [|Hne]; [done|]. intros Hid. by destruct Hne.
  - simpl. rewrite length_app. simpl. lia.
Qed.

Lemma mergeDuplicates_outcome_witness :
  ∃ n, duplicateNotification (Some 1) flaggedInbox = Some n
       ∧ aboutPair 2 1 n
       ∧ snd (mergeDuplicates (sampleNow + 100) (Some root) (Some 1) (Some 1) flaggedInbox)
         = Ok 2
       ∧ map s_id
             (submissions
                (ib_db (fst (mergeDuplicates (sampleNow + 100) (Some root) (Some 1)
                                             (Some 1) flaggedInbox)))) = [1]
       ∧ map n_id
             (notifications
                (ib_db (fst (mergeDuplicates (sampleNow + 100) (Some root) (Some 1)
                                             (Some 1) flaggedInbox)))) = [2]
       ∧ snd (mergeDuplicates (sampleNow + 100) (Some root) (Some 1) None flaggedInbox)
         = Ok 1.
Proof.
  assert (∃ n score factors,
            duplicateNotification (Some 1) flaggedInbox = Some n
            ∧ n_metadata n = Some (MetaDuplicate 2 1 score factors))
    as (n & score & factors & Hf & Hm)
    by (vm_compute; eexists _, _, _; split; reflexivity).
  destruct (mergeDuplicates_outcome (sampleNow + 100) root (Some 1) (Some 1) flaggedInbox
              n 2 1 score factors eq_refl Hf Hm) as (Hok & _).
  exists n. split_and!; [done|by exists score, factors|exact Hok|..];
    vm_compute; reflexivity.
Defined.

End InboxRoutes.
